(** * The listbox controller of patternfly-elements, embedded in Rocq

    The development follows [ListboxController] (the controller that
    [pf-select] composes): option filtering, single and multiple selection,
    typeahead and the [change]/[input] notifications.

    Layout: the pieces of the JavaScript platform that the controller calls
    ([Array.prototype] methods, [RegExp]), the DOM store, the two controllers
    it owns, the controller itself, its public interface as calls, the
    development server's wait for the manifests, the position and set size
    of [pf-select-option], and then the theorems. *)

From Stdlib Require Import List String Ascii ZArith Bool Arith Lia.
From Stdlib Require Import DecimalString.
From Stdlib Require DecimalPos DecimalZ.
Import ListNotations.

Set Implicit Arguments.

(** ** JavaScript values and array methods *)

Module JS.

(** A reference that may be absent.  [null] and [undefined] are kept
    apart, as [===] keeps them apart; both are falsy.  An element is named
    by its address in the DOM store. *)
Inductive elref : Type :=
| Null
| Undefined
| El (r : nat).

Definition truthy (x : elref) : bool :=
  match x with El _ => true | _ => false end.

Definition elref_eqb (x y : elref) : bool :=
  match x, y with
  | Null, Null => true
  | Undefined, Undefined => true
  | El a, El b => Nat.eqb a b
  | _, _ => false
  end.

(** [x || y] on references. *)
Definition or_else (x y : elref) : elref := if truthy x then x else y.

(** What an option's [value] or a caller of the [value] setter may hold. *)
Inductive jsval : Type :=
| VUndefined
| VNull
| VBool (b : bool)
| VNum (z : Z)
| VStr (s : string)
| VEl (r : nat).

(** [===] and SameValueZero agree on these values (no NaN, no signed zero). *)
Definition strict_eqb (x y : jsval) : bool :=
  match x, y with
  | VUndefined, VUndefined => true
  | VNull, VNull => true
  | VBool a, VBool b => Bool.eqb a b
  | VNum a, VNum b => Z.eqb a b
  | VStr a, VStr b => String.eqb a b
  | VEl a, VEl b => Nat.eqb a b
  | _, _ => false
  end.

Definition option_string_eqb (x y : option string) : bool :=
  match x, y with
  | None, None => true
  | Some a, Some b => String.eqb a b
  | _, _ => false
  end.

(** [Array.prototype.includes] on an array of element references. *)
Definition includes (l : list nat) (r : nat) : bool := existsb (Nat.eqb r) l.

(** [Array.prototype.indexOf]: the first index holding [x], or -1. *)
Fixpoint indexOf_from (l : list nat) (x : elref) (i : Z) : Z :=
  match l with
  | [] => (-1)%Z
  | y :: l' => if elref_eqb (El y) x then i else indexOf_from l' x (i + 1)
  end.

Definition indexOf (l : list nat) (x : elref) : Z := indexOf_from l x 0.

(** Number::toString on an integer: decimal digits, a leading minus sign. *)
Definition number_toString (z : Z) : string := NilZero.string_of_int (Z.to_int z).

(** [Array.prototype.sort] with no comparator orders the elements by their
    string forms, code unit by code unit; the sort is stable. *)
Definition sortCompare_le (x y : Z) : bool :=
  negb (String.ltb (number_toString y) (number_toString x)).

Fixpoint sort_insert (x : Z) (l : list Z) : list Z :=
  match l with
  | [] => [x]
  | y :: l' => if sortCompare_le x y then x :: l else y :: sort_insert x l'
  end.

Definition sort (l : list Z) : list Z := fold_right sort_insert [] l.

(** The relative index of [Array.prototype.slice]: negative counts from
    the end, everything is clamped to the array. *)
Definition relative_index (len k : Z) : Z :=
  if (k <? 0)%Z then Z.max (len + k) 0 else Z.min k len.

Definition slice (A : Type) (l : list A) (start finish : Z) : list A :=
  let len := Z.of_nat (List.length l) in
  let k := relative_index len start in
  let fin := relative_index len finish in
  firstn (Z.to_nat (fin - k)) (skipn (Z.to_nat k) l).

(** [slice(start)]: to the end of the array. *)
Definition slice_from (A : Type) (l : list A) (start : Z) : list A :=
  slice l start (Z.of_nat (List.length l)).

(** [String.prototype.split(',')]: the pieces between commas; the empty
    string has one (empty) piece. *)
Fixpoint split_comma_chars (s : list ascii) : list (list ascii) :=
  match s with
  | [] => [[]]
  | c :: s' =>
      if Ascii.eqb c ","%char then [] :: split_comma_chars s'
      else match split_comma_chars s' with
           | [] => [[c]]
           | piece :: pieces => (c :: piece) :: pieces
           end
  end.

Definition split_comma (s : string) : list string :=
  map string_of_list_ascii (split_comma_chars (list_ascii_of_string s)).

End JS.

(** ** Regular expressions

    The controller builds a [RegExp] from the filter text.  The model covers
    a fragment of the pattern language: characters, [.], the class escapes
    [\d \D \w \W \s \S], escaped syntax characters, [^] and [$], groups,
    alternation and the quantifiers [* + ?] (greedy or lazy).  A pattern that
    the platform rejects inside this fragment is a [SyntaxError]; a pattern
    that uses anything else is [NotModelled], and the model says nothing
    about it.  Texts and patterns are sequences of code units below 256. *)

Module RegExp.

Inductive charset : Type :=
| AnyChar
| Lit (c : ascii)
| Digit (negated : bool)
| Word (negated : bool)
| Space (negated : bool).

Inductive regex : Type :=
| Eps
| Chars (cs : charset)
| Bol
| Eol
| Seq (r1 r2 : regex)
| Alt (r1 r2 : regex)
| Star (r : regex).

Record regexp : Type := { source : regex; ignoreCase : bool }.

Inductive compiled : Type :=
| Compiled (re : regexp)
| SyntaxError
| NotModelled.

(** *** Parsing *)

(** What may follow a term: an assertion takes no quantifier, an atom takes
    one, a quantified atom takes the lazy mark [?], and nothing after that. *)
Inductive term_kind : Type := Assertion | Atom | Quantified | Lazy.

Record frame : Type := {
  alternatives : list regex;          (* finished alternatives, last first *)
  terms : list (regex * term_kind)    (* the current alternative, last first *)
}.

Definition empty_frame : frame := {| alternatives := []; terms := [] |}.

Definition push_term (f : frame) (t : regex * term_kind) : frame :=
  {| alternatives := alternatives f; terms := t :: terms f |}.

(** The terms are kept last first; the sequence is rebuilt in order. *)
Definition seq_of (ts : list (regex * term_kind)) : regex :=
  fold_left (fun acc t => Seq (fst t) acc) ts Eps.

Definition close_frame (f : frame) : regex :=
  fold_left (fun acc r => Alt r acc) (alternatives f) (seq_of (terms f)).

Definition quantify (q : ascii) (r : regex) : regex :=
  if Ascii.eqb q "*"%char then Star r
  else if Ascii.eqb q "+"%char then Seq r (Star r)
  else Alt r Eps.

Definition is_syntax_character (c : ascii) : bool :=
  existsb (Ascii.eqb c)
    ["^"; "$"; "\"; "."; "*"; "+"; "?"; "("; ")"; "["; "]"; "{"; "}"; "|"]%char.

Definition class_escape (c : ascii) : option charset :=
  if Ascii.eqb c "d"%char then Some (Digit false)
  else if Ascii.eqb c "D"%char then Some (Digit true)
  else if Ascii.eqb c "w"%char then Some (Word false)
  else if Ascii.eqb c "W"%char then Some (Word true)
  else if Ascii.eqb c "s"%char then Some (Space false)
  else if Ascii.eqb c "S"%char then Some (Space true)
  else if is_syntax_character c || Ascii.eqb c "/"%char then Some (Lit c)
  else None.

Definition is_quantifier (c : ascii) : bool :=
  Ascii.eqb c "*"%char || Ascii.eqb c "+"%char || Ascii.eqb c "?"%char.

Definition outside_fragment (c : ascii) : bool :=
  existsb (Ascii.eqb c) ["["; "]"; "{"; "}"]%char.

Inductive parsed : Type :=
| Parsed (r : regex)
| Malformed        (* the platform throws a SyntaxError *)
| Outside.         (* a construct outside the fragment *)

Fixpoint scan (input : list ascii) (cur : frame) (stack : list frame) : parsed :=
  match input with
  | [] =>
      match stack with
      | [] => Parsed (close_frame cur)
      | _ :: _ => Malformed                        (* unterminated group *)
      end
  | c :: rest =>
      if Ascii.eqb c "("%char then
        match rest with
        | "?"%char :: ":"%char :: rest' => scan rest' empty_frame (cur :: stack)
        | "?"%char :: _ => Outside                    (* lookaround, named group *)
        | _ => scan rest empty_frame (cur :: stack)
        end
      else if Ascii.eqb c ")"%char then
        match stack with
        | [] => Malformed                          (* unmatched ) *)
        | parent :: stack' => scan rest (push_term parent (close_frame cur, Atom)) stack'
        end
      else if Ascii.eqb c "|"%char then
        scan rest {| alternatives := seq_of (terms cur) :: alternatives cur; terms := [] |} stack
      else if is_quantifier c then
        match terms cur with
        | (r, Atom) :: ts =>
            scan rest {| alternatives := alternatives cur;
                         terms := (quantify c r, Quantified) :: ts |} stack
        | (r, Quantified) :: ts =>
            if Ascii.eqb c "?"%char
            then scan rest {| alternatives := alternatives cur; terms := (r, Lazy) :: ts |} stack
            else Malformed                         (* nothing to repeat *)
        | _ => Malformed                           (* nothing to repeat *)
        end
      else if Ascii.eqb c "^"%char then scan rest (push_term cur (Bol, Assertion)) stack
      else if Ascii.eqb c "$"%char then scan rest (push_term cur (Eol, Assertion)) stack
      else if Ascii.eqb c "."%char then scan rest (push_term cur (Chars AnyChar, Atom)) stack
      else if Ascii.eqb c "\"%char then
        match rest with
        | [] => Malformed                          (* \ at end of pattern *)
        | e :: rest' =>
            match class_escape e with
            | Some cs => scan rest' (push_term cur (Chars cs, Atom)) stack
            | None => Outside
            end
        end
      else if outside_fragment c then Outside
      else scan rest (push_term cur (Chars (Lit c), Atom)) stack
  end.

(** [new RegExp(pattern, flags)] with [flags] either empty or [i]. *)
Definition RegExp_new (pattern flags : string) : compiled :=
  let with_flag (ic : bool) :=
    match scan (list_ascii_of_string pattern) empty_frame [] with
    | Parsed r => Compiled {| source := r; ignoreCase := ic |}
    | Malformed => SyntaxError
    | Outside => NotModelled
    end in
  if String.eqb flags "" then with_flag false
  else if String.eqb flags "i" then with_flag true
  else NotModelled.

(** *** Matching *)

Definition between (lo hi : nat) (c : ascii) : bool :=
  let n := nat_of_ascii c in (lo <=? n) && (n <=? hi).

Definition is_digit (c : ascii) : bool := between 48 57 c.
Definition is_upper (c : ascii) : bool := between 65 90 c.
Definition is_lower (c : ascii) : bool := between 97 122 c.
Definition is_word (c : ascii) : bool :=
  is_digit c || is_upper c || is_lower c || Ascii.eqb c "_"%char.
(** The white space and line terminators of [\s] below 256: TAB, LF, VT,
    FF, CR, the space and the no-break space. *)
Definition is_space (c : ascii) : bool :=
  between 9 13 c || Ascii.eqb c " "%char || (nat_of_ascii c =? 160).
Definition is_line_terminator (c : ascii) : bool :=
  (nat_of_ascii c =? 10) || (nat_of_ascii c =? 13).

(** Canonicalize of the [i] flag: the code unit of [toUpperCase] of the
    character, when that is one code unit, and the character's own
    otherwise.  Below 256, [toUpperCase] moves a-z, U+00E0 to U+00F6 and
    U+00F8 to U+00FE 32 down, the micro sign U+00B5 to U+039C and U+00FF to
    U+0178; it turns U+00DF into two code units; it leaves the rest. *)
Definition canonicalize (c : ascii) : N :=
  let n := N_of_ascii c in
  if is_lower c || between 224 246 c || between 248 254 c then (n - 32)%N
  else if (n =? 181)%N then 924%N
  else if (n =? 255)%N then 376%N
  else n.

Definition char_matches (ic : bool) (cs : charset) (x : ascii) : bool :=
  match cs with
  | AnyChar => negb (is_line_terminator x)
  | Lit c => if ic then N.eqb (canonicalize x) (canonicalize c) else Ascii.eqb x c
  | Digit neg => xorb neg (is_digit x)
  | Word neg => xorb neg (is_word x)
  | Space neg => xorb neg (is_space x)
  end.

(** A backtracking matcher in continuation style.  [n] is the length of the
    whole input, so that [^] can tell the start; an iteration of a star
    that consumes nothing is rejected. *)
Fixpoint matcher (ic : bool) (n : nat) (r : regex)
         (k : list ascii -> bool) (s : list ascii) {struct r} : bool :=
  match r with
  | Eps => k s
  | Chars cs =>
      match s with
      | x :: s' => char_matches ic cs x && k s'
      | [] => false
      end
  | Bol => (List.length s =? n) && k s
  | Eol => match s with [] => k s | _ :: _ => false end
  | Seq r1 r2 => matcher ic n r1 (matcher ic n r2 k) s
  | Alt r1 r2 => matcher ic n r1 k s || matcher ic n r2 k s
  | Star r' =>
      (fix loop (fuel : nat) (s : list ascii) {struct fuel} : bool :=
         k s ||
         match fuel with
         | O => false
         | S fuel' =>
             matcher ic n r' (fun s' => (List.length s' <? List.length s) && loop fuel' s') s
         end) (List.length s) s
  end.

(** The search of [exec]: a match may start at any index. *)
Fixpoint search (ic : bool) (n : nat) (r : regex) (s : list ascii) : bool :=
  matcher ic n r (fun _ => true) s ||
  match s with
  | [] => false
  | _ :: s' => search ic n r s'
  end.

(** [text.match(re)] is truthy, for [re] without the [g] flag. *)
Definition test (re : regexp) (text : string) : bool :=
  let s := list_ascii_of_string text in
  search (ignoreCase re) (List.length s) (source re) s.

End RegExp.

(** ** The DOM store

    Option elements are objects shared between the host, the controller and
    the focus tracker: an event target, the shift anchor and the entries of
    the option array all alias the same element.  The store maps an address
    to the element's current fields; every write goes through it. *)

Module Dom.

Record Element : Type := {
  id_attr : option string;     (* the [id] attribute, [None] when absent *)
  textContent : string;
  value : JS.jsval;
  selected : bool;             (* [selected?: boolean]; absent is falsy *)
  hidden : bool;               (* [HTMLElement.hidden] *)
  disabled_attr : bool;        (* [hasAttribute('disabled')] *)
  hidden_by_filter : bool;     (* [hasAttribute('hidden-by-filter')] *)
  active_descendant : bool;    (* [hasAttribute('active-descendant')] *)
  posInSet : option nat;
  setSize : option nat
}.

(** [element.id]: the attribute, or the empty string. *)
Definition id (e : Element) : string :=
  match id_attr e with Some i => i | None => EmptyString end.

Definition with_selected (b : bool) (e : Element) : Element :=
  {| id_attr := id_attr e; textContent := textContent e; value := value e;
     selected := b; hidden := hidden e; disabled_attr := disabled_attr e;
     hidden_by_filter := hidden_by_filter e; active_descendant := active_descendant e;
     posInSet := posInSet e; setSize := setSize e |}.

Definition with_hidden_by_filter (b : bool) (e : Element) : Element :=
  {| id_attr := id_attr e; textContent := textContent e; value := value e;
     selected := selected e; hidden := hidden e; disabled_attr := disabled_attr e;
     hidden_by_filter := b; active_descendant := active_descendant e;
     posInSet := posInSet e; setSize := setSize e |}.

Definition with_active_descendant (b : bool) (e : Element) : Element :=
  {| id_attr := id_attr e; textContent := textContent e; value := value e;
     selected := selected e; hidden := hidden e; disabled_attr := disabled_attr e;
     hidden_by_filter := hidden_by_filter e; active_descendant := b;
     posInSet := posInSet e; setSize := setSize e |}.

Definition with_position (pos size : nat) (e : Element) : Element :=
  {| id_attr := id_attr e; textContent := textContent e; value := value e;
     selected := selected e; hidden := hidden e; disabled_attr := disabled_attr e;
     hidden_by_filter := hidden_by_filter e; active_descendant := active_descendant e;
     posInSet := Some pos; setSize := Some size |}.

Definition store : Type := nat -> Element.

Definition update (r : nat) (f : Element -> Element) (d : store) : store :=
  fun q => if Nat.eqb q r then f (d q) else d q.

End Dom.

(** ** The accessibility-state publisher *)

Module Internals.

(** Modelled from the spec: [InternalsController] is not among the sources.
    The spec calls it a pure projection with the coordinator as its only
    writer, so it is plain storage for the ARIA properties the listbox
    reads back; each is [null] until first written. *)
Record t : Type := {
  ariaActivedescendant : option string;
  ariaDisabled : option string;
  ariaMultiSelectable : option string;
  ariaOrientation : option string
}.

Definition initial : t :=
  {| ariaActivedescendant := None; ariaDisabled := None;
     ariaMultiSelectable := None; ariaOrientation := None |}.

Definition with_ariaActivedescendant (v : option string) (i : t) : t :=
  {| ariaActivedescendant := v; ariaDisabled := ariaDisabled i;
     ariaMultiSelectable := ariaMultiSelectable i; ariaOrientation := ariaOrientation i |}.

Definition with_ariaDisabled (v : option string) (i : t) : t :=
  {| ariaActivedescendant := ariaActivedescendant i; ariaDisabled := v;
     ariaMultiSelectable := ariaMultiSelectable i; ariaOrientation := ariaOrientation i |}.

Definition with_ariaMultiSelectable (v : option string) (i : t) : t :=
  {| ariaActivedescendant := ariaActivedescendant i; ariaDisabled := ariaDisabled i;
     ariaMultiSelectable := v; ariaOrientation := ariaOrientation i |}.

Definition with_ariaOrientation (v : option string) (i : t) : t :=
  {| ariaActivedescendant := ariaActivedescendant i; ariaDisabled := ariaDisabled i;
     ariaMultiSelectable := ariaMultiSelectable i; ariaOrientation := v |}.

End Internals.

(** ** The roving-focus tracker *)

Module RovingTabindex.

(** Modelled from the spec: [RovingTabindexController] is not among the
    sources.  Per the spec it holds an ordered list of items and one active
    pointer; [initItems] replaces the items and resets the pointer to the
    first; [updateItems] replaces them and keeps the pointer when its item
    is still listed, else takes the first; [updateActiveItem] reassigns the
    pointer; operating on an empty item list is a no-op. *)
Record t : Type := {
  items : list nat;
  activeItem : JS.elref
}.

Definition initial : t := {| items := []; activeItem := JS.Undefined |}.

Definition firstItem (t0 : t) : JS.elref :=
  match items t0 with [] => JS.Undefined | x :: _ => JS.El x end.

Definition lastItem (t0 : t) : JS.elref :=
  match rev (items t0) with [] => JS.Undefined | x :: _ => JS.El x end.

Definition initItems (l : list nat) (t0 : t) : t :=
  {| items := l; activeItem := match l with [] => JS.Undefined | x :: _ => JS.El x end |}.

Definition updateItems (l : list nat) (t0 : t) : t :=
  {| items := l;
     activeItem :=
       match activeItem t0 with
       | JS.El a => if JS.includes l a then JS.El a
                    else match l with [] => JS.Undefined | x :: _ => JS.El x end
       | _ => match l with [] => JS.Undefined | x :: _ => JS.El x end
       end |}.

Definition updateActiveItem (item : JS.elref) (t0 : t) : t :=
  match items t0 with
  | [] => t0
  | _ :: _ => {| items := items t0; activeItem := item |}
  end.

End RovingTabindex.

(** ** The listbox controller *)

Module Listbox.

Import JS.

(** The private fields of [ListboxController]. *)
Record Fields : Type := {
  filter : string;
  showAllOptions : bool;
  caseSensitive : bool;
  disableFilter : bool;
  matchAnywhere : bool;
  shiftStartingItem : elref;
  options : list nat;
  updateFocus : bool
}.

Inductive HostEvent : Type := Change | Input.

(** The controller together with what it reads and writes around it. *)
Record State : Type := {
  this : Fields;
  internals : Internals.t;
  tabindex : RovingTabindex.t;
  dom : Dom.store;
  activeElement : elref;            (* [document.activeElement] *)
  dispatched : list HostEvent       (* events dispatched on the host, latest first *)
}.

Definition with_this (f : Fields -> Fields) (s : State) : State :=
  {| this := f (this s); internals := internals s; tabindex := tabindex s;
     dom := dom s; activeElement := activeElement s; dispatched := dispatched s |}.

Definition with_internals (f : Internals.t -> Internals.t) (s : State) : State :=
  {| this := this s; internals := f (internals s); tabindex := tabindex s;
     dom := dom s; activeElement := activeElement s; dispatched := dispatched s |}.

Definition with_tabindex (f : RovingTabindex.t -> RovingTabindex.t) (s : State) : State :=
  {| this := this s; internals := internals s; tabindex := f (tabindex s);
     dom := dom s; activeElement := activeElement s; dispatched := dispatched s |}.

Definition with_dom (f : Dom.store -> Dom.store) (s : State) : State :=
  {| this := this s; internals := internals s; tabindex := tabindex s;
     dom := f (dom s); activeElement := activeElement s; dispatched := dispatched s |}.

Definition with_activeElement (x : elref) (s : State) : State :=
  {| this := this s; internals := internals s; tabindex := tabindex s;
     dom := dom s; activeElement := x; dispatched := dispatched s |}.

Definition dispatchEvent (e : HostEvent) (s : State) : State :=
  {| this := this s; internals := internals s; tabindex := tabindex s;
     dom := dom s; activeElement := activeElement s; dispatched := e :: dispatched s |}.

Definition put_filter (v : string) (f : Fields) : Fields :=
  {| filter := v; showAllOptions := showAllOptions f; caseSensitive := caseSensitive f;
     disableFilter := disableFilter f; matchAnywhere := matchAnywhere f;
     shiftStartingItem := shiftStartingItem f; options := options f;
     updateFocus := updateFocus f |}.

Definition put_showAllOptions (v : bool) (f : Fields) : Fields :=
  {| filter := filter f; showAllOptions := v; caseSensitive := caseSensitive f;
     disableFilter := disableFilter f; matchAnywhere := matchAnywhere f;
     shiftStartingItem := shiftStartingItem f; options := options f;
     updateFocus := updateFocus f |}.

Definition put_caseSensitive (v : bool) (f : Fields) : Fields :=
  {| filter := filter f; showAllOptions := showAllOptions f; caseSensitive := v;
     disableFilter := disableFilter f; matchAnywhere := matchAnywhere f;
     shiftStartingItem := shiftStartingItem f; options := options f;
     updateFocus := updateFocus f |}.

Definition put_disableFilter (v : bool) (f : Fields) : Fields :=
  {| filter := filter f; showAllOptions := showAllOptions f; caseSensitive := caseSensitive f;
     disableFilter := v; matchAnywhere := matchAnywhere f;
     shiftStartingItem := shiftStartingItem f; options := options f;
     updateFocus := updateFocus f |}.

Definition put_matchAnywhere (v : bool) (f : Fields) : Fields :=
  {| filter := filter f; showAllOptions := showAllOptions f; caseSensitive := caseSensitive f;
     disableFilter := disableFilter f; matchAnywhere := v;
     shiftStartingItem := shiftStartingItem f; options := options f;
     updateFocus := updateFocus f |}.

Definition put_shiftStartingItem (v : elref) (f : Fields) : Fields :=
  {| filter := filter f; showAllOptions := showAllOptions f; caseSensitive := caseSensitive f;
     disableFilter := disableFilter f; matchAnywhere := matchAnywhere f;
     shiftStartingItem := v; options := options f;
     updateFocus := updateFocus f |}.

Definition put_options (v : list nat) (f : Fields) : Fields :=
  {| filter := filter f; showAllOptions := showAllOptions f; caseSensitive := caseSensitive f;
     disableFilter := disableFilter f; matchAnywhere := matchAnywhere f;
     shiftStartingItem := shiftStartingItem f; options := v;
     updateFocus := updateFocus f |}.

Definition put_updateFocus (v : bool) (f : Fields) : Fields :=
  {| filter := filter f; showAllOptions := showAllOptions f; caseSensitive := caseSensitive f;
     disableFilter := disableFilter f; matchAnywhere := matchAnywhere f;
     shiftStartingItem := shiftStartingItem f; options := options f;
     updateFocus := v |}.

(** *** Handlers as state transformers that may throw

    An exception leaves the writes made before it in place, so the state
    is returned on both outcomes. *)

Inductive exn : Type :=
| JsSyntaxError      (* [new RegExp] on a malformed pattern *)
| JsTypeError        (* a property read on [null] or [undefined] *)
| OutsideModel.      (* the pattern leaves the modelled fragment *)

Inductive outcome (A : Type) : Type :=
| Returns (a : A)
| Throws (e : exn).
Arguments Throws {A} e.

Definition M (A : Type) : Type := State -> outcome A * State.

Definition ret (A : Type) (a : A) : M A := fun s => (Returns a, s).

Definition bind (A B : Type) (m : M A) (f : A -> M B) : M B :=
  fun s => match m s with
           | (Returns a, s') => f a s'
           | (Throws e, s') => (Throws e, s')
           end.

Definition get : M State := fun s => (Returns s, s).
Definition modify (f : State -> State) : M unit := fun s => (Returns tt, f s).
Definition throw {A : Type} (e : exn) : M A := fun s => (Throws e, s).
Definition when (b : bool) (m : M unit) : M unit := if b then m else ret tt.

Declare Scope listbox_scope.
Delimit Scope listbox_scope with listbox.
Notation "x <- m ;; k" := (bind m (fun x => k))
  (at level 61, m at next level, right associativity) : listbox_scope.
Notation "m ;; k" := (bind m (fun _ => k))
  (at level 61, right associativity) : listbox_scope.
Local Open Scope listbox_scope.

(** [Array.prototype.forEach] with an effectful callback. *)
Fixpoint forEach (A : Type) (l : list A) (f : A -> M unit) : M unit :=
  match l with
  | [] => ret tt
  | x :: l' => f x ;; forEach l' f
  end.

(** [Array.prototype.filter] with a callback that may throw. *)
Fixpoint filter_by (A : Type) (l : list A) (p : A -> M bool) : M (list A) :=
  match l with
  | [] => ret []
  | x :: l' =>
      keep <- p x ;;
      rest <- filter_by l' p ;;
      ret (if keep then x :: rest else rest)
  end.

Definition new_RegExp (pattern flags : string) : M RegExp.regexp :=
  match RegExp.RegExp_new pattern flags with
  | RegExp.Compiled re => ret re
  | RegExp.SyntaxError => throw JsSyntaxError
  | RegExp.NotModelled => throw OutsideModel
  end.

(** *** Writes to option elements *)

Definition set_selected (o : nat) (b : bool) : M unit :=
  modify (with_dom (Dom.update o (Dom.with_selected b))).

Definition set_hidden_by_filter (o : nat) (b : bool) : M unit :=
  modify (with_dom (Dom.update o (Dom.with_hidden_by_filter b))).

Definition set_active_descendant (o : nat) (b : bool) : M unit :=
  modify (with_dom (Dom.update o (Dom.with_active_descendant b))).

(** *** The focus tracker, seen from the controller *)

(** Modelled from the spec: [focusOnItem] reassigns the active pointer and
    moves the input focus to the item; like every tracker operation it does
    nothing on an empty item list. *)
Definition focusOnItem (item : elref) : M unit :=
  s <- get ;;
  match RovingTabindex.items (tabindex s) with
  | [] => ret tt
  | _ :: _ =>
      modify (with_tabindex (RovingTabindex.updateActiveItem item)) ;;
      when (truthy item) (modify (with_activeElement item))
  end.

(** *** Getters *)

Definition disabled (s : State) : bool :=
  option_string_eqb (Internals.ariaDisabled (internals s)) (Some "true"%string).

Definition multiSelectable (s : State) : bool :=
  option_string_eqb (Internals.ariaMultiSelectable (internals s)) (Some "true"%string).

Definition orientation (s : State) : string :=
  match Internals.ariaOrientation (internals s) with
  | Some o => o
  | None => EmptyString
  end.

Definition activeItem (s : State) : elref :=
  let active :=
    match List.filter
            (fun o => option_string_eqb (Dom.id_attr (dom s o))
                        (Internals.ariaActivedescendant (internals s)))
            (options (this s)) with
    | [] => Undefined
    | a :: _ => El a
    end in
  or_else active (RovingTabindex.firstItem (tabindex s)).

Definition selectedOptions (s : State) : list nat :=
  List.filter (fun o => Dom.selected (dom s o)) (options (this s)).

(** The listbox value: the array of selected options when multiselectable,
    else the first selected option (or [undefined]). *)
Inductive ListboxValue : Type :=
| Selection (xs : list nat)
| Single (x : elref).

Definition value (s : State) : ListboxValue :=
  let firstItem := match selectedOptions s with [] => Undefined | o :: _ => El o end in
  if multiSelectable s then Selection (selectedOptions s) else Single firstItem.

(** [oldValue !== this.value].  Every read of [value] in multiselect mode
    evaluates [this.options.filter(...)], which allocates a new array, and
    two arrays are never [===] each other; single values compare by
    identity. *)
Definition strict_neq (oldValue newValue : ListboxValue) : bool :=
  match oldValue, newValue with
  | Single a, Single b => negb (elref_eqb a b)
  | _, _ => true
  end.

Definition fireChange : M unit := modify (dispatchEvent Change).
Definition fireInput : M unit := modify (dispatchEvent Input).

(** The callback of the filter in [visibleOptions]. *)
Definition option_matches (o : nat) : M bool :=
  s <- get ;;
  let search := if matchAnywhere (this s) then ""%string else "^"%string in
  let text := Dom.textContent (dom s o) in
  regex <- new_RegExp (search ++ filter (this s))
                      (if caseSensitive (this s) then "" else "i") ;;
  ret (String.eqb (filter (this s)) "" || RegExp.test regex text).

(** The callback of the [forEach] in [visibleOptions]. *)
Definition mark_hidden (matchedOptions : list nat) (option : nat) : M unit :=
  if includes matchedOptions option
  then set_hidden_by_filter option false
  else
    s <- get ;;
    when (elref_eqb (activeElement s) (El option))
         (modify (with_this (put_updateFocus true))) ;;
    set_hidden_by_filter option true.

Definition visibleOptions : M (list nat) :=
  s <- get ;;
  matched <-
    (if negb (disableFilter (this s) || String.eqb (filter (this s)) "*"
              || showAllOptions (this s))
     then filter_by (options (this s)) option_matches
     else ret []) ;;
  let matchedOptions :=
    if List.length matched <? 1 then options (this s) else matched in
  forEach (options (this s)) (mark_hidden matchedOptions) ;;
  ret matchedOptions.

(** *** Filter changes *)

Definition onFilterChange : M unit :=
  s <- get ;;
  if disabled s then ret tt
  else
    let oldValue := value s in
    (if updateFocus (this s)
     then
       visible <- visibleOptions ;;
       modify (with_tabindex (RovingTabindex.updateItems visible)) ;;
       modify (with_this (put_updateFocus false))
     else
       visible <- visibleOptions ;;
       modify (with_tabindex (RovingTabindex.initItems visible))) ;;
    s' <- get ;;
    when (strict_neq oldValue (value s')) fireInput.

(** *** Setters *)

Definition set_filter (filterText : string) : M unit :=
  s <- get ;;
  when (negb (String.eqb (filter (this s)) filterText))
       (modify (with_this (put_filter filterText)) ;; onFilterChange).

Definition set_caseSensitive (b : bool) : M unit :=
  s <- get ;;
  when (negb (Bool.eqb (caseSensitive (this s)) b))
       (modify (with_this (put_caseSensitive b)) ;; onFilterChange).

Definition set_disableFilter (b : bool) : M unit :=
  s <- get ;;
  when (negb (Bool.eqb (disableFilter (this s)) b))
       (modify (with_this (put_disableFilter b)) ;; onFilterChange).

Definition set_matchAnywhere (b : bool) : M unit :=
  s <- get ;;
  when (negb (Bool.eqb (matchAnywhere (this s)) b))
       (modify (with_this (put_matchAnywhere b)) ;; onFilterChange).

Definition set_disabled (b : bool) : M unit :=
  modify (with_internals
            (Internals.with_ariaDisabled (Some (if b then "true" else "false")%string))).

Definition set_multiSelectable (b : bool) : M unit :=
  modify (with_internals
            (Internals.with_ariaMultiSelectable (Some (if b then "true" else "false")%string))).

Definition set_orientation (o : string) : M unit :=
  modify (with_internals (Internals.with_ariaOrientation (Some o))).

(** [options.every((element, index) => element === this.#options[index])] *)
Fixpoint every_same (new old : list nat) : bool :=
  match new with
  | [] => true
  | x :: new' =>
      match old with
      | y :: old' => Nat.eqb x y && every_same new' old'
      | [] => false
      end
  end.

Fixpoint number_from (pos size : nat) (l : list nat) : M unit :=
  match l with
  | [] => ret tt
  | o :: l' =>
      modify (with_dom (Dom.update o (Dom.with_position pos size))) ;;
      number_from (S pos) size l'
  end.

Definition set_options (opts : list nat) : M unit :=
  s <- get ;;
  let setSize := List.length opts in
  when (negb (setSize =? List.length (options (this s)))
        || negb (every_same opts (options (this s))))
       (number_from 0 setSize opts ;;
        modify (with_this (put_options opts)) ;;
        visible <- visibleOptions ;;
        modify (with_tabindex (RovingTabindex.initItems visible))).

(** What a caller may assign to [value]: an array or anything else. *)
Inductive ValueArg : Type :=
| Many (l : list jsval)
| One (v : jsval).

Definition set_value (optionsList : ValueArg) : M unit :=
  s <- get ;;
  let oldValue := value s in
  let firstItem :=
    match optionsList with
    | Many l => match l with [] => VUndefined | v :: _ => v end
    | One v => v
    end in
  forEach (options (this s)) (fun option =>
    s' <- get ;;
    let selected :=
      match optionsList with
      | Many l =>
          if multiSelectable s'
          then existsb (strict_eqb (Dom.value (dom s' option))) l
          else strict_eqb firstItem (VEl option)
      | One _ => strict_eqb firstItem (VEl option)
      end in
    set_selected option selected) ;;
  s'' <- get ;;
  when (strict_neq oldValue (value s'')) fireInput.

Definition isValid (s : State) (val : option string) : bool :=
  let vals := match val with Some v => split_comma v | None => [] end in
  let options := map (fun option => Dom.textContent (dom s option)) (options (this s)) in
  forallb (fun v => existsb (String.eqb v) options) vals.

Definition focus : M unit :=
  s <- get ;;
  focusOnItem (RovingTabindex.activeItem (tabindex s)).

(** *** Active descendant and selection *)

(** The callback of the [forEach] in [updateActiveDescendant]. *)
Definition mark_active (option : nat) : M unit :=
  s1 <- get ;;
  isActive <-
    (if elref_eqb (El option) (RovingTabindex.activeItem (tabindex s1))
     then visible <- visibleOptions ;; ret (includes visible option)
     else ret false) ;;
  s2 <- get ;;
  if isActive
  then
    modify (with_internals
              (Internals.with_ariaActivedescendant (Some (Dom.id (dom s2 option))))) ;;
    set_active_descendant option true
  else
    when (option_string_eqb (Internals.ariaActivedescendant (internals s2))
                            (Some (Dom.id (dom s2 option))))
         (modify (with_internals (Internals.with_ariaActivedescendant None))) ;;
    set_active_descendant option false.

Definition updateActiveDescendant : M unit :=
  s <- get ;;
  forEach (options (this s)) mark_active.

(** The callback of the [forEach] in [updateSingleselect]. *)
Definition select_if_active (option : nat) : M unit :=
  s <- get ;;
  set_selected option
    (option_string_eqb (Some (Dom.id (dom s option)))
                       (Internals.ariaActivedescendant (internals s))).

Definition updateSingleselect : M unit :=
  s <- get ;;
  when (negb (multiSelectable s))
       (forEach (options (this s)) select_if_active ;;
        fireChange).

(** [referenceItem.selected]; the read throws on [null] and [undefined]. *)
Definition read_selected (x : elref) : M bool :=
  match x with
  | El r => s <- get ;; ret (Dom.selected (dom s r))
  | _ => throw JsTypeError
  end.

Definition updateMultiselect (currentItem referenceItem : elref) (ctrlKey : bool) : M unit :=
  s <- get ;;
  when (multiSelectable s)
       (let sorted := sort [indexOf (options (this s)) referenceItem;
                            indexOf (options (this s)) currentItem] in
        let start := nth 0 sorted 0%Z in
        let end_ := nth 1 sorted 0%Z in
        let range := slice (options (this s)) start (end_ + 1) in
        let allSelected :=
          ctrlKey &&
          (List.length (List.filter (fun option => negb (Dom.selected (dom s option))) range)
           =? 0) in
        toggle <-
          (if ctrlKey && allSelected then ret false
           else if ctrlKey then ret true
           else read_selected referenceItem) ;;
        forEach range (fun option => set_selected option toggle) ;;
        modify (with_this (put_shiftStartingItem currentItem))).

(** *** Events *)

Record KeyboardEvent : Type := {
  key : string;
  altKey : bool;
  metaKey : bool;
  ctrlKey : bool;
  shiftKey : bool;
  target : elref
}.

Record MouseEvent : Type := {
  mouse_shiftKey : bool;
  mouse_target : elref
}.

Definition onOptionFocus (target : elref) : M unit :=
  s <- get ;;
  when (negb (elref_eqb target (RovingTabindex.activeItem (tabindex s))))
       (modify (with_tabindex (RovingTabindex.updateActiveItem target))) ;;
  updateActiveDescendant.

(** [target.selected = !target.selected] *)
Definition toggle_selected (target : elref) : M unit :=
  match target with
  | El r => s <- get ;; set_selected r (negb (Dom.selected (dom s r)))
  | _ => throw JsTypeError
  end.

(** The end of the click handler: the move of the focus and the [change]
    notification. *)
Definition click_end (oldValue : ListboxValue) (target : elref) : M unit :=
  s1 <- get ;;
  when (negb (elref_eqb target (RovingTabindex.activeItem (tabindex s1))))
       (focusOnItem target ;; updateActiveDescendant) ;;
  s2 <- get ;;
  when (strict_neq oldValue (value s2)) fireChange.

Definition onOptionClick (event : MouseEvent) : M unit :=
  s <- get ;;
  let target := mouse_target event in
  let oldValue := value s in
  (if multiSelectable s
   then
     if negb (mouse_shiftKey event)
     then toggle_selected target
     else
       when (truthy (shiftStartingItem (this s)) && truthy target)
            (updateMultiselect target (shiftStartingItem (this s)) false ;;
             fireChange)
   else
     forEach (options (this s)) (fun option =>
       set_selected option (elref_eqb (El option) target))) ;;
  click_end oldValue target.

Definition onOptionKeyup (event : KeyboardEvent) : M unit :=
  s <- get ;;
  let target := target event in
  when (shiftKey event && multiSelectable s)
       (when (truthy (shiftStartingItem (this s)) && truthy target)
             (updateMultiselect target (shiftStartingItem (this s)) false ;;
              fireChange) ;;
        when (String.eqb (key event) "Shift")
             (modify (with_this (put_shiftStartingItem Null)))).

(** [key.match(/^[aA]$/)] *)
Definition is_a_key (k : string) : bool := String.eqb k "a" || String.eqb k "A".

(** [key.match(/^[\w]$/)]: one character, a letter, a digit or [_]. *)
Definition is_word_key (k : string) : bool :=
  match k with
  | String c EmptyString => RegExp.is_word c
  | _ => false
  end.

Definition nextMatchingItem (key : string) : M elref :=
  items <- visibleOptions ;;
  s <- get ;;
  let index := if negb (truthy (activeItem s)) then indexOf items (activeItem s) else (-1)%Z in
  let sequence := slice_from items index ++ slice items 0 index in
  regex <- new_RegExp ("^" ++ key) (if caseSensitive (this s) then "" else "i") ;;
  let first :=
    find (fun option =>
            negb (Dom.disabled_attr (dom s option)) && negb (Dom.hidden (dom s option))
            && RegExp.test regex (Dom.textContent (dom s option)))
         sequence in
  ret (match first with Some option => El option | None => Undefined end).

(** The end of the key handler: the [change] notification and the move of
    the focus.  What it returns says whether the event was stopped
    ([stopPropagation] and [preventDefault]). *)
Definition keydown_end (oldValue : ListboxValue) (stopEvent : bool) (focusEvent : elref)
  : M bool :=
  s <- get ;;
  when (strict_neq oldValue (value s)) fireChange ;;
  when (truthy focusEvent) (focusOnItem focusEvent) ;;
  ret stopEvent.

(** The branches of the key handler after the opening bookkeeping. *)
Definition keydown_branches (event : KeyboardEvent) : M bool :=
  s <- get ;;
  let target := target event in
  let oldValue := value s in
  if altKey event || metaKey event then ret false
  else if ctrlKey event then
    if is_a_key (key event) && truthy (RovingTabindex.firstItem (tabindex s))
    then
      updateMultiselect (RovingTabindex.firstItem (tabindex s))
                        (RovingTabindex.lastItem (tabindex s)) true ;;
      keydown_end oldValue true Undefined
    else ret false
  else if is_word_key (key event) then
    focusEvent <- nextMatchingItem (key event) ;;
    keydown_end oldValue true focusEvent
  else if String.eqb (key event) "Enter" || String.eqb (key event) " " then
    if truthy target
    then
      (if multiSelectable s
       then
         if shiftKey event
         then updateMultiselect target (activeItem s) false
         else toggle_selected target
       else updateSingleselect) ;;
      keydown_end oldValue true Undefined
    else keydown_end oldValue false Undefined
  else keydown_end oldValue false Undefined.

Definition onOptionKeydown (event : KeyboardEvent) : M bool :=
  modify (with_this (put_showAllOptions false)) ;;
  s0 <- get ;;
  when (String.eqb (key event) "Shift" && multiSelectable s0)
       (modify (with_this (put_shiftStartingItem (activeItem s0)))) ;;
  keydown_branches event.

(** *** Construction and event sequences *)

Record ListboxConfigOptions : Type := {
  config_caseSensitive : bool;
  config_disableFilter : bool
}.

Definition constructor (d : Dom.store) (config : ListboxConfigOptions) : State :=
  let s :=
    {| this := {| filter := ""; showAllOptions := false;
                  caseSensitive := config_caseSensitive config;
                  disableFilter := false; matchAnywhere := false;
                  shiftStartingItem := Null; options := []; updateFocus := false |};
       internals := Internals.initial;
       tabindex := RovingTabindex.initial;
       dom := d;
       activeElement := Null;
       dispatched := [] |} in
  snd (set_disableFilter (config_disableFilter config) s).

Inductive Event : Type :=
| Keydown (e : KeyboardEvent)
| Keyup (e : KeyboardEvent)
| OptionFocus (target : elref)
| Click (e : MouseEvent).

(** One listener call; an exception it throws is reported by the event
    loop and the next event finds the state as the listener left it. *)
Definition handle (e : Event) (s : State) : State :=
  match e with
  | Keydown k => snd (onOptionKeydown k s)
  | Keyup k => snd (onOptionKeyup k s)
  | OptionFocus t => snd (onOptionFocus t s)
  | Click c => snd (onOptionClick c s)
  end.

Definition run (events : list Event) (s : State) : State :=
  fold_left (fun s e => handle e s) events s.

End Listbox.

(** ** What the specification says, in its own words

    Definitions that follow the specification's wording; the theorems below
    compare the controller with them. *)

Module Spec.

Import JS Listbox.

(** The letters below 256 that come in two cases stand 32 apart: a to z,
    and the accented letters from U+00E0 to U+00FE but for the division
    sign, are the lower-case forms. *)
Definition lower_case_letter (c : ascii) : bool :=
  let n := nat_of_ascii c in
  (97 <=? n) && (n <=? 122) || (224 <=? n) && (n <=? 254) && negb (n =? 247).

(** [a] is the lower-case form of the letter [b]. *)
Definition lower_case_of (a b : ascii) : bool :=
  lower_case_letter a && (nat_of_ascii b + 32 =? nat_of_ascii a).

(** "case-insensitive": two characters agree when they are the same
    character or the two cases of one letter; with [ic] unset they agree
    when they are the same character. *)
Definition same_char (ic : bool) (a b : ascii) : bool :=
  Ascii.eqb a b || ic && (lower_case_of a b || lower_case_of b a).

(** The rest of [text] after the leading [prefix], when it starts with it. *)
Fixpoint strip_prefix (ic : bool) (prefix text : list ascii) : option (list ascii) :=
  match prefix with
  | [] => Some text
  | p :: prefix' =>
      match text with
      | x :: text' => if same_char ic x p then strip_prefix ic prefix' text' else None
      | [] => None
      end
  end.

Definition starts_with_chars (ic : bool) (prefix text : list ascii) : bool :=
  match strip_prefix ic prefix text with Some _ => true | None => false end.

Fixpoint contains_chars (ic : bool) (needle text : list ascii) : bool :=
  starts_with_chars ic needle text ||
  match text with
  | [] => false
  | _ :: text' => contains_chars ic needle text'
  end.

(** "anchored at the start of the option's text unless match-anywhere is
    enabled (then unanchored, substring search)", "case-insensitive by
    default". *)
Definition text_matches (s : State) (text : string) : bool :=
  let ic := negb (caseSensitive (this s)) in
  let needle := list_ascii_of_string (filter (this s)) in
  if matchAnywhere (this s)
  then contains_chars ic needle (list_ascii_of_string text)
  else starts_with_chars ic needle (list_ascii_of_string text).

(** The options of the full list whose text matches, in the list's order. *)
Definition matching_options (s : State) : list nat :=
  List.filter (fun o => text_matches s (Dom.textContent (dom s o))) (options (this s)).

(** The pattern that matches the characters of [w] one after the other. *)
Definition literal (w : list ascii) : RegExp.regex :=
  fold_right (fun c r => RegExp.Seq (RegExp.Chars (RegExp.Lit c)) r) RegExp.Eps w.

(** The parser's frame after it has read the plain characters [w]. *)
Definition push_literals (w : list ascii) (f : RegExp.frame) : RegExp.frame :=
  fold_left (fun f c => RegExp.push_term f (RegExp.Chars (RegExp.Lit c), RegExp.Atom)) w f.

(** A filter text that is plain text for [RegExp]: no syntax character. *)
Definition plain_text (text : string) : bool :=
  forallb (fun c => negb (RegExp.is_syntax_character c)) (list_ascii_of_string text).

(** "the next visible, non-disabled option whose text starts with that
    character ... searching circularly starting just after the current
    active item": the visible options after the active one, then those up
    to and including it. *)
Fixpoint rotate_after (active : nat) (before items : list nat) : list nat :=
  match items with
  | [] => rev before
  | x :: items' =>
      if Nat.eqb x active then items' ++ rev (x :: before)
      else rotate_after active (x :: before) items'
  end.

Definition typeahead_target (key : ascii) (visible : list nat) (s : State) : elref :=
  let order :=
    match activeItem s with
    | El a => rotate_after a [] visible
    | _ => visible
    end in
  let ic := negb (caseSensitive (this s)) in
  match find (fun o => negb (Dom.disabled_attr (dom s o))
                       && starts_with_chars ic [key]
                            (list_ascii_of_string (Dom.textContent (dom s o))))
             order with
  | Some o => El o
  | None => Undefined
  end.

(** "the contiguous index range between them inclusive in the full option
    list ... the smaller index is the range start". *)
Definition index_range (s : State) (reference target : nat) : list nat :=
  let i := indexOf (options (this s)) (El reference) in
  let j := indexOf (options (this s)) (El target) in
  slice (options (this s)) (Z.min i j) (Z.max i j + 1).

(** "with Ctrl held, the whole range is deselected if every option in it was
    already selected and selected otherwise; without Ctrl, every option in
    the range is set to the reference option's own selected state". *)
Definition range_state (s : State) (range : list nat) (reference : nat) (ctrl : bool) : bool :=
  if ctrl
  then negb (forallb (fun o => Dom.selected (dom s o)) range)
  else Dom.selected (dom s reference).

(** "at most one option has selected = true" *)
Definition at_most_one_selected (s : State) : Prop :=
  forall a b, In a (selectedOptions s) -> In b (selectedOptions s) -> a = b.

(** "and it always equals the current active-descendant" *)
Definition selected_is_active (s : State) : Prop :=
  forall a, In a (selectedOptions s) -> activeItem s = El a.

(** Every option carries an [id] attribute and no two options share one,
    as [pf-select-option] arranges when it connects. *)
Definition unique_ids (s : State) : Prop :=
  (forall a, In a (options (this s)) -> Dom.id_attr (dom s a) <> None) /\
  (forall a b, In a (options (this s)) -> In b (options (this s)) ->
               Dom.id_attr (dom s a) = Dom.id_attr (dom s b) -> a = b).

(** The pieces of a comma-separated text, joined again. *)
Fixpoint join_comma (tokens : list string) : string :=
  match tokens with
  | [] => EmptyString
  | [t] => t
  | t :: rest => (t ++ "," ++ join_comma rest)%string
  end.

Fixpoint has_comma (text : string) : bool :=
  match text with
  | EmptyString => false
  | String c rest => Ascii.eqb c ","%char || has_comma rest
  end.

Definition chars_have_comma (s : list ascii) : bool :=
  existsb (fun c => Ascii.eqb c ","%char) s.

End Spec.

(** ** Frame conditions *)

Module Frame.

Import JS Listbox.

(** [m] relates every state it starts in to the state it leaves, whether it
    returns or throws. *)
Definition preserves (R : State -> State -> Prop) (A : Type) (m : M A) : Prop :=
  forall s, R s (snd (m s)).

(** What the bookkeeping around a selection leaves alone: the option list,
    every option's [selected] flag and [id], the anchor, the mode and the
    items of the focus tracker. *)
Definition same_selection (s s' : State) : Prop :=
  options (this s') = options (this s) /\
  shiftStartingItem (this s') = shiftStartingItem (this s) /\
  Internals.ariaMultiSelectable (internals s') = Internals.ariaMultiSelectable (internals s) /\
  RovingTabindex.items (tabindex s') = RovingTabindex.items (tabindex s) /\
  (forall q, Dom.selected (dom s' q) = Dom.selected (dom s q)) /\
  (forall q, Dom.id_attr (dom s' q) = Dom.id_attr (dom s q)).

(** A single-select listbox in good order. *)
Definition single_select (s : State) : Prop :=
  multiSelectable s = false /\ Spec.unique_ids s /\ Spec.at_most_one_selected s.

Definition keeps (J : State -> Prop) (s s' : State) : Prop := J s -> J s'.

(** The [selected] flags after a loop that assigns [g option] to every
    option of [l]. *)
Definition selected_by (g : nat -> bool) (l : list nat) (s s' : State) : Prop :=
  forall q, Dom.selected (dom s' q)
            = if includes l q then g q else Dom.selected (dom s q).

(** Nothing but the list of dispatched events may differ. *)
Definition same_but_events (s s' : State) : Prop :=
  this s' = this s /\ internals s' = internals s /\ tabindex s' = tabindex s /\
  dom s' = dom s /\ activeElement s' = activeElement s.

(** Only [selected] flags may differ. *)
Definition same_but_selected (s s' : State) : Prop :=
  this s' = this s /\ internals s' = internals s /\ tabindex s' = tabindex s /\
  (forall q, Dom.id_attr (dom s' q) = Dom.id_attr (dom s q)).

(** The show-all override stays clear. *)
Definition override_clear (s s' : State) : Prop :=
  showAllOptions (this s) = false -> showAllOptions (this s') = false.

(** A property of the shift anchor that a step does not lose. *)
Definition anchor_keeps (P : elref -> Prop) (s s' : State) : Prop :=
  P (shiftStartingItem (this s)) -> P (shiftStartingItem (this s')).

(** The options that [updateMultiselect] writes: the slice between the two
    indices as [sort()] orders them. *)
Definition written_range (s : State) (currentItem referenceItem : elref) : list nat :=
  let sorted := sort [indexOf (options (this s)) referenceItem;
                      indexOf (options (this s)) currentItem] in
  slice (options (this s)) (nth 0 sorted 0%Z) (nth 1 sorted 0%Z + 1).

(** The target of a range gesture made while Shift is held: a Shift-click,
    or the release of a key other than Shift itself. *)
Definition range_gesture_target (e : Event) : option nat :=
  match e with
  | Click c =>
      match mouse_target c with
      | El t => if mouse_shiftKey c then Some t else None
      | _ => None
      end
  | Keyup k =>
      match target k with
      | El t => if shiftKey k && negb (String.eqb (key k) "Shift") then Some t else None
      | _ => None
      end
  | _ => None
  end.

End Frame.

(** ** Fixtures: the option lists of the test suite *)

Module Fixtures.

Import JS Listbox.
Local Open Scope string_scope.

Definition option_element (text : string) : Dom.Element :=
  {| Dom.id_attr := Some ("option-" ++ text); Dom.textContent := text;
     Dom.value := VStr text; Dom.selected := false; Dom.hidden := false;
     Dom.disabled_attr := false; Dom.hidden_by_filter := false;
     Dom.active_descendant := false; Dom.posInSet := None; Dom.setSize := None |}.

Definition colours : list string :=
  ["Blue"; "Green"; "Magenta"; "Orange"; "Purple"; "Pink"; "Red"; "Yellow"].

(** A document whose element at address [r] is the [r]-th of [texts]. *)
Definition document_of (texts : list string) : Dom.store :=
  fun r => option_element (nth r texts "").

Definition fresh (texts : list string) : State :=
  constructor (document_of texts) {| config_caseSensitive := false; config_disableFilter := false |}.

(** A listbox over [texts], created and given its options. *)
Definition listbox_of (texts : list string) : State :=
  snd (set_options (seq 0 (List.length texts)) (fresh texts)).

Definition eight_colours : State := listbox_of colours.

Definition texts_of (s : State) (l : list nat) : list string :=
  map (fun o => Dom.textContent (dom s o)) l.

Definition after (A : Type) (m : M A) (s : State) : State := snd (m s).

Definition key_press (k : string) (t : nat) : KeyboardEvent :=
  {| key := k; altKey := false; metaKey := false; ctrlKey := false;
     shiftKey := false; target := El t |}.

Definition ctrl_a (t : nat) : KeyboardEvent :=
  {| key := "a"; altKey := false; metaKey := false; ctrlKey := true;
     shiftKey := false; target := El t |}.

Definition click (t : nat) : MouseEvent :=
  {| mouse_shiftKey := false; mouse_target := El t |}.

Definition shift_click (t : nat) : MouseEvent :=
  {| mouse_shiftKey := true; mouse_target := El t |}.

(** Eleven options, so that two indices differ in their number of digits. *)
Definition eleven : list string :=
  ["o0"; "o1"; "o2"; "o3"; "o4"; "o5"; "o6"; "o7"; "o8"; "o9"; "o10"].

Definition eleven_multi : State :=
  after (set_selected 9 true) (after (set_multiSelectable true) (listbox_of eleven)).

Definition eight_multi : State := after (set_multiSelectable true) eight_colours.

(** The eight colours filtered by "r" anywhere in the text. *)
Definition eight_multi_filtered : State :=
  after (set_matchAnywhere true) (after (set_filter "r") eight_multi).

Definition two_options : State := listbox_of ["Blue"; "Green"].

(** The eight colours after the user has typed an opening parenthesis. *)
Definition eight_filtered_by_paren : State := after (set_filter "(") eight_colours.

(** Scenario C: filter "r", case-sensitive, anchored at the start. *)
Definition eight_case_sensitive_r : State :=
  after (set_caseSensitive true) (after (set_filter "r") eight_colours).

(** The eight colours with the focus on Purple. *)
Definition eight_on_purple : State := run [OptionFocus (El 4)] eight_colours.

(** An empty multiselect listbox. *)
Definition empty_multi : State := after (set_multiSelectable true) (fresh []).

Definition two_disabled : State := after (set_disabled true) two_options.

(** The eight colours, multiselectable, with Shift pressed while Blue is
    the active item. *)
Definition eight_shift_held : State := run [Keydown (key_press "Shift" 0)] eight_multi.

Definition shift_down (t : nat) : KeyboardEvent :=
  {| key := "Shift"; altKey := false; metaKey := false; ctrlKey := false;
     shiftKey := true; target := El t |}.

Definition shift_enter (t : nat) : KeyboardEvent :=
  {| key := "Enter"; altKey := false; metaKey := false; ctrlKey := false;
     shiftKey := true; target := El t |}.

(** The eight colours, multiselectable, with Shift held: a click on Blue,
    Shift pressed, a Shift-click on Orange, then the focus moved to Pink. *)
Definition eight_range_then_focus : State :=
  run [Click (click 0); Keydown (shift_down 0); Click (shift_click 3); OptionFocus (El 5)]
      eight_multi.

(** Scenario D: click Blue, click Green, then Shift and a click on Orange. *)
Definition scenario_d : list Event :=
  [Click (click 0); Click (click 1); Keydown (shift_down 1); Click (shift_click 3)].

(** The eight colours with the wildcard as the filter, the other settings
    turned against it. *)
Definition eight_wildcard : State :=
  after (set_caseSensitive true) (after (set_matchAnywhere true) (after (set_filter "*") eight_colours)).

(** The eight colours, multiselectable, with Green selected. *)
Definition eight_multi_green : State := after (set_selected 1 true) eight_multi.

(** Two options, the first starting with an upper-case E acute (code unit
    201), filtered by a lower-case e acute (code unit 233). *)
Definition two_accented : State :=
  after (set_filter (String (ascii_of_nat 233) EmptyString))
        (listbox_of [String (ascii_of_nat 201) "cole"; "Blue"]).

(** Scenario B: filter "r", matched anywhere in the text. *)
Definition eight_r_anywhere : State :=
  after (set_matchAnywhere true) (after (set_filter "r") eight_colours).

End Fixtures.

(** ** The public interface as calls *)

Module Api.

Import JS Listbox.
Local Open Scope string_scope.

(** An assignment to one of the seven settings of the controller. *)
Inductive Setting : Type :=
| Filter (filterText : string)
| CaseSensitive (b : bool)
| DisableFilter (b : bool)
| MatchAnywhere (b : bool)
| Disabled (b : bool)
| MultiSelectable (b : bool)
| Orientation (o : string).

Definition assign (c : Setting) : M unit :=
  match c with
  | Filter filterText => set_filter filterText
  | CaseSensitive b => set_caseSensitive b
  | DisableFilter b => set_disableFilter b
  | MatchAnywhere b => set_matchAnywhere b
  | Disabled b => set_disabled b
  | MultiSelectable b => set_multiSelectable b
  | Orientation o => set_orientation o
  end.

(** The four settings whose change starts a refresh of the filter. *)
Definition is_filter_setting (c : Setting) : bool :=
  match c with
  | Filter _ | CaseSensitive _ | DisableFilter _ | MatchAnywhere _ => true
  | Disabled _ | MultiSelectable _ | Orientation _ => false
  end.

(** What the seven getters answer. *)
Record Settings : Type := {
  filterText : string;
  isCaseSensitive : bool;
  filterDisabled : bool;
  matchesAnywhere : bool;
  isDisabled : bool;
  isMultiSelectable : bool;
  theOrientation : string
}.

Definition settings (s : State) : Settings :=
  {| filterText := filter (this s);
     isCaseSensitive := caseSensitive (this s);
     filterDisabled := disableFilter (this s);
     matchesAnywhere := matchAnywhere (this s);
     isDisabled := disabled s;
     isMultiSelectable := multiSelectable s;
     theOrientation := orientation s |}.

(** The settings with the one that [c] names replaced. *)
Definition assigned (c : Setting) (st : Settings) : Settings :=
  match c with
  | Filter text =>
      {| filterText := text; isCaseSensitive := isCaseSensitive st;
         filterDisabled := filterDisabled st; matchesAnywhere := matchesAnywhere st;
         isDisabled := isDisabled st; isMultiSelectable := isMultiSelectable st;
         theOrientation := theOrientation st |}
  | CaseSensitive b =>
      {| filterText := filterText st; isCaseSensitive := b;
         filterDisabled := filterDisabled st; matchesAnywhere := matchesAnywhere st;
         isDisabled := isDisabled st; isMultiSelectable := isMultiSelectable st;
         theOrientation := theOrientation st |}
  | DisableFilter b =>
      {| filterText := filterText st; isCaseSensitive := isCaseSensitive st;
         filterDisabled := b; matchesAnywhere := matchesAnywhere st;
         isDisabled := isDisabled st; isMultiSelectable := isMultiSelectable st;
         theOrientation := theOrientation st |}
  | MatchAnywhere b =>
      {| filterText := filterText st; isCaseSensitive := isCaseSensitive st;
         filterDisabled := filterDisabled st; matchesAnywhere := b;
         isDisabled := isDisabled st; isMultiSelectable := isMultiSelectable st;
         theOrientation := theOrientation st |}
  | Disabled b =>
      {| filterText := filterText st; isCaseSensitive := isCaseSensitive st;
         filterDisabled := filterDisabled st; matchesAnywhere := matchesAnywhere st;
         isDisabled := b; isMultiSelectable := isMultiSelectable st;
         theOrientation := theOrientation st |}
  | MultiSelectable b =>
      {| filterText := filterText st; isCaseSensitive := isCaseSensitive st;
         filterDisabled := filterDisabled st; matchesAnywhere := matchesAnywhere st;
         isDisabled := isDisabled st; isMultiSelectable := b;
         theOrientation := theOrientation st |}
  | Orientation o =>
      {| filterText := filterText st; isCaseSensitive := isCaseSensitive st;
         filterDisabled := filterDisabled st; matchesAnywhere := matchesAnywhere st;
         isDisabled := isDisabled st; isMultiSelectable := isMultiSelectable st;
         theOrientation := o |}
  end.

(** Whatever the host or the platform may do with a controller: deliver an
    event to one of its listeners, or use a setter or a method. *)
Inductive Action : Type :=
| Dispatch (e : Event)
| Assign (c : Setting)
| AssignOptions (opts : list nat)
| AssignValue (v : ValueArg)
| CallFocus.

Definition perform (a : Action) (s : State) : State :=
  match a with
  | Dispatch e => handle e s
  | Assign c => snd (assign c s)
  | AssignOptions opts => snd (set_options opts s)
  | AssignValue v => snd (set_value v s)
  | CallFocus => snd (focus s)
  end.

Definition perform_all (actions : list Action) (s : State) : State :=
  fold_left (fun s a => perform a s) actions s.

(** The first item of what is assigned to [value]: [undefined] for an
    empty array, the value itself when it is not an array. *)
Definition first_item (arg : ValueArg) : jsval :=
  match arg with
  | Many [] => VUndefined
  | Many (v :: _) => v
  | One v => v
  end.

(** The test the [value] setter makes for an option: with an array in
    multiselect mode, whether the array includes the option's [value];
    otherwise whether the first item is the option element itself. *)
Definition selects (s : State) (arg : ValueArg) (option : nat) : bool :=
  match arg with
  | Many l =>
      if multiSelectable s
      then existsb (strict_eqb (Dom.value (dom s option))) l
      else strict_eqb (first_item arg) (VEl option)
  | One _ => strict_eqb (first_item arg) (VEl option)
  end.

(** What the [value] getter answered, handed back to the [value] setter. *)
Definition as_argument (v : ListboxValue) : ValueArg :=
  match v with
  | Selection xs => Many (map VEl xs)
  | Single (El o) => One (VEl o)
  | Single Null => One VNull
  | Single Undefined => One VUndefined
  end.

End Api.

(** ** What a step leaves as it was *)

Module Invariants.

Import JS Listbox Frame.
Local Open Scope string_scope.

(** The readings [p] of a state are the same after a step. *)
Definition unchanged (I A : Type) (p : State -> I -> A) (s s' : State) : Prop :=
  forall i, p s' i = p s i.

(** What the host configures: the filter settings, the option list, the
    mode, and the items the focus tracker was given. *)
Definition configuration (s : State) :=
  (filter (this s), caseSensitive (this s), disableFilter (this s), matchAnywhere (this s),
   options (this s),
   Internals.ariaDisabled (internals s), Internals.ariaMultiSelectable (internals s),
   Internals.ariaOrientation (internals s),
   RovingTabindex.items (tabindex s)).

(** What the host puts in an option element. *)
Definition content (e : Dom.Element) :=
  (Dom.id_attr e, Dom.textContent e, Dom.value e, Dom.hidden e, Dom.disabled_attr e,
   Dom.posInSet e, Dom.setSize e).

(** What the visible-options derivation reads, the option texts apart. *)
Definition filter_inputs (s : State) :=
  (filter (this s), caseSensitive (this s), disableFilter (this s), matchAnywhere (this s),
   showAllOptions (this s), options (this s)).

(** Two states that differ at most in how their stores are written. *)
Definition equivalent (s s' : State) : Prop :=
  this s' = this s /\ internals s' = internals s /\ tabindex s' = tabindex s /\
  (forall q, dom s' q = dom s q) /\
  activeElement s' = activeElement s /\ dispatched s' = dispatched s.

(** Two states that differ at most in [selected] flags. *)
Definition only_selected (s s' : State) : Prop :=
  this s' = this s /\ internals s' = internals s /\ tabindex s' = tabindex s /\
  activeElement s' = activeElement s /\ dispatched s' = dispatched s /\
  forall q b, Dom.with_selected b (dom s' q) = Dom.with_selected b (dom s q).

(** The Enter key or the space bar, with no modifier but possibly Shift. *)
Definition is_commit_key (k : KeyboardEvent) : bool :=
  (String.eqb (key k) "Enter" || String.eqb (key k) " ")
  && negb (altKey k || metaKey k || ctrlKey k).

(** The target of a gesture that toggles one option in multiselect mode: a
    click without Shift, or Enter or Space without Shift on an option. *)
Definition toggle_target (e : Event) : option nat :=
  match e with
  | Click c =>
      match mouse_target c with
      | El t => if mouse_shiftKey c then None else Some t
      | _ => None
      end
  | Keydown k =>
      match target k with
      | El t => if is_commit_key k && negb (shiftKey k) then Some t else None
      | _ => None
      end
  | _ => None
  end.

(** Two indices that the default [sort()] puts in the wrong order: the
    decimal form of the larger one comes first, code unit by code unit. *)
Definition misordered (i j : Z) : bool :=
  String.ltb (number_toString (Z.max i j)) (number_toString (Z.min i j)).

(** What the loop that publishes the active descendant relies on: the
    tracker's active item is [t], the derivation returns [v], and the
    options and their ids are those of [s0]. *)
Definition focused_on (s0 : State) (t : nat) (v : list nat) (s : State) : Prop :=
  RovingTabindex.activeItem (tabindex s) = El t /\
  fst (visibleOptions s) = Returns v /\
  options (this s) = options (this s0) /\
  forall q, Dom.id_attr (dom s q) = Dom.id_attr (dom s0 q).

(** A list with its last item moved to the front. *)
Definition last_first (A : Type) (l : list A) : list A :=
  match rev l with
  | [] => []
  | x :: front => x :: rev front
  end.

(** The test of the typeahead for an option: not disabled, not hidden, and
    a text that starts with the character, letter case ignored unless the
    listbox is case-sensitive. *)
Definition typeahead_candidate (s : State) (c : ascii) (o : nat) : bool :=
  negb (Dom.disabled_attr (dom s o)) && negb (Dom.hidden (dom s o))
  && Spec.starts_with_chars (negb (caseSensitive (this s))) [c]
       (list_ascii_of_string (Dom.textContent (dom s o))).

(** A step dispatches [ev] on the host at most [k] times, and nothing
    else. *)
Definition emits (ev : HostEvent) (k : nat) (s s' : State) : Prop :=
  exists n, n <= k /\ dispatched s' = (repeat ev n ++ dispatched s)%list.

(** A step that dispatches nothing. *)
Definition quiet (A : Type) (m : M A) : Prop :=
  preserves (unchanged (fun s (_ : unit) => dispatched s)) m.

(** The focus tracker holds the visible options. *)
Definition tracker_follows (s : State) : Prop :=
  fst (visibleOptions s) = Returns (RovingTabindex.items (tabindex s)).

End Invariants.


(** ** The development server: waiting for the manifests *)

Module DevServer.

Section GetManifests.

(** [Manifest.getAll(rootDir)] reads the file system, so two calls may
    answer differently: [getAll n] is what the call numbered [n] answers. *)
Variable Manifest : Type.
Variable getAll : nat -> list Manifest.

(** The variables of [getManifests], with how many times the file system was
    read and how many 50 ms pauses were taken. *)
Record Polling : Type := {
  count : Z;
  manifests : list Manifest;
  reads : nat;
  pauses : nat
}.

(** [while (count < 1000 && manifests.length < 0) { await ...; count++;
    manifests = Manifest.getAll(config.rootDir); }], with [fuel] rounds at
    most: [None] when the rounds run out. *)
Fixpoint poll (fuel : nat) (p : Polling) : option Polling :=
  if (count p <? 1000)%Z && (Z.of_nat (List.length (manifests p)) <? 0)%Z
  then
    match fuel with
    | O => None
    | S fuel' =>
        poll fuel' {| count := count p + 1;
                      manifests := getAll (reads p);
                      reads := S (reads p);
                      pauses := S (pauses p) |}
    end
  else Some p.

Definition getManifests (fuel : nat) : option Polling :=
  poll fuel {| count := 0; manifests := getAll 0; reads := 1; pauses := 0 |}.

End GetManifests.

End DevServer.

(** ** The option element: position and set size

    [pf-select-option] keeps the position and the set size that the listbox
    controller assigns as ARIA properties, that is as strings. *)

Module SelectOption.

Local Open Scope string_scope.
Local Open Scope Z_scope.

(** What is assigned to [posInSet] or [setSize]: [null], a string, or a
    number.  The listbox controller assigns numbers, an index or a length;
    numbers are integers here. *)
Inductive Assigned : Type :=
| Null
| Str (s : string)
| Num (n : Z).

(** What [parseInt] and [Math.max] answer. *)
Inductive number : Type :=
| NaN
| Int (z : Z).

(** An integer up to 2^53 in magnitude is a double; beyond that a double
    rounds, and the functions below give no answer. *)
Definition exact (z : Z) : bool := Z.abs z <=? 2 ^ 53.

(** [x || '0']: [null], the empty string and the number 0 are falsy. *)
Definition or_zero (x : Assigned) : Assigned :=
  match x with
  | Null => Str "0"
  | Str EmptyString => Str "0"
  | Num 0 => Str "0"
  | _ => x
  end.

(** ToString, where the integer is exact. *)
Definition ToString (x : Assigned) : option string :=
  match x with
  | Null => Some "null"
  | Str s => Some s
  | Num n => if exact n then Some (JS.number_toString n) else None
  end.

(** The white space that [parseInt] skips, among the code units below 256:
    TAB, LF, VT, FF, CR, the space and the no-break space. *)
Definition is_white_space (c : ascii) : bool :=
  let n := Z.of_nat (nat_of_ascii c) in
  (9 <=? n) && (n <=? 13) || (n =? 32) || (n =? 160).

Fixpoint skip_white_space (s : string) : string :=
  match s with
  | String c rest => if is_white_space c then skip_white_space rest else s
  | EmptyString => s
  end.

(** The sign, and the string after it. *)
Definition strip_sign (s : string) : Z * string :=
  match s with
  | String "-" rest => (-1, rest)
  | String "+" rest => (1, rest)
  | _ => (1, s)
  end.

(** With no radix given, a leading [0x] or [0X] selects radix 16. *)
Definition strip_prefix (s : string) : Z * string :=
  match s with
  | String "0" (String "x" rest) => (16, rest)
  | String "0" (String "X" rest) => (16, rest)
  | _ => (10, s)
  end.

Definition digit_value (radix : Z) (c : ascii) : option Z :=
  let n := Z.of_nat (nat_of_ascii c) in
  let v := if (48 <=? n) && (n <=? 57) then Some (n - 48)
           else if (97 <=? n) && (n <=? 122) then Some (n - 87)
           else if (65 <=? n) && (n <=? 90) then Some (n - 55)
           else None in
  match v with
  | Some d => if d <? radix then Some d else None
  | None => None
  end.

(** The value of the longest prefix of digits, after [acc]. *)
Fixpoint digits (radix : Z) (s : string) (acc : Z) : Z :=
  match s with
  | String c rest =>
      match digit_value radix c with
      | Some d => digits radix rest (acc * radix + d)
      | None => acc
      end
  | EmptyString => acc
  end.

(** The integer the string starts with; [None] when it starts with no
    digit. *)
Definition leading_integer (radix : Z) (s : string) : option Z :=
  match s with
  | String c _ =>
      match digit_value radix c with
      | Some _ => Some (digits radix s 0)
      | None => None
      end
  | EmptyString => None
  end.

(** [parseInt(input)], with no radix. *)
Definition parseInt (input : string) : option number :=
  let (sign, s1) := strip_sign (skip_white_space input) in
  let (radix, s2) := strip_prefix s1 in
  match leading_integer radix s2 with
  | Some m => if exact (sign * m) then Some (Int (sign * m)) else None
  | None => Some NaN
  end.

(** [Math.max(0, x)] *)
Definition max_zero (x : number) : number :=
  match x with
  | NaN => NaN
  | Int z => Int (Z.max 0 z)
  end.

(** The template literal around the number. *)
Definition template (x : number) : string :=
  match x with
  | NaN => "NaN"
  | Int z => JS.number_toString z
  end.

(** [`${Math.max(0, parseInt(x || '0'))}`] *)
Definition count_of (x : Assigned) : option string :=
  match ToString (or_zero x) with
  | Some s =>
      match parseInt s with
      | Some n => Some (template (max_zero n))
      | None => None
      end
  | None => None
  end.

(** The two properties of the element's internals. *)
Record Fields : Type := {
  ariaPosInSet : option string;
  ariaSetSize : option string
}.

Definition set_posInSet (x : Assigned) (o : Fields) : option Fields :=
  match count_of x with
  | Some v => Some {| ariaPosInSet := Some v; ariaSetSize := ariaSetSize o |}
  | None => None
  end.

Definition posInSet (o : Fields) : option string := ariaPosInSet o.

Definition set_setSize (x : Assigned) (o : Fields) : option Fields :=
  match count_of x with
  | Some v => Some {| ariaPosInSet := ariaPosInSet o; ariaSetSize := Some v |}
  | None => None
  end.

Definition setSize (o : Fields) : option string := ariaSetSize o.

End SelectOption.
(** * Theorems *)

Import JS Listbox Spec Frame Fixtures.
Local Open Scope string_scope.
Local Open Scope listbox_scope.

(** ** The controller at the inputs where it departs from the specification *)

(** C1: the visible-options derivation builds a [RegExp] from the filter text
    as typed.  With the eight colours as options and the filter "(", the
    option list is not empty and filtering is enabled, yet the derivation
    returns no list at all: [new RegExp("^(", "i")] throws a SyntaxError
    before the fallback to the full list is reached. *)
Theorem visibleOptions_throws_on_malformed_filter :
  options (this eight_filtered_by_paren) <> [] /\
  filter (this eight_filtered_by_paren) = "(" /\
  disableFilter (this eight_filtered_by_paren) = false /\
  fst (visibleOptions eight_filtered_by_paren) = Throws JsSyntaxError.
Proof.
  repeat split; try (vm_compute; reflexivity).
  vm_compute. discriminate.
Qed.

(** C3: the two indices of a range are ordered by [sort()] with no
    comparator, that is as strings, so 10 comes before 9.  With eleven
    options, option 9 selected as the reference and option 10 as the target,
    the specified range is [9; 10] but the controller's range is empty:
    option 10 stays unselected.  With the endpoints swapped (reference 10,
    not selected) option 9 stays selected. *)
Theorem updateMultiselect_misorders_two_digit_indices :
  multiSelectable eleven_multi = true /\
  index_range eleven_multi 9 10 = [9; 10] /\
  selectedOptions eleven_multi = [9] /\
  fst (updateMultiselect (El 10) (El 9) false eleven_multi) = Returns tt /\
  selectedOptions (after (updateMultiselect (El 10) (El 9) false) eleven_multi) = [9] /\
  selectedOptions (after (updateMultiselect (El 9) (El 10) false) eleven_multi) = [9].
Proof. repeat split; vm_compute; reflexivity. Qed.

(** C4: Ctrl+A ranges from the first to the last item of the focus tracker,
    which holds the visible options only.  With the eight colours filtered by
    "r" anywhere and nothing selected, Ctrl+A selects Green to Red and leaves
    Blue and Yellow unselected. *)
Theorem ctrl_a_skips_options_outside_the_visible_range :
  multiSelectable eight_multi_filtered = true /\
  options (this eight_multi_filtered) = seq 0 8 /\
  selectedOptions eight_multi_filtered = [] /\
  texts_of eight_multi_filtered (RovingTabindex.items (tabindex eight_multi_filtered))
  = ["Green"; "Orange"; "Purple"; "Red"] /\
  texts_of eight_multi_filtered
    (selectedOptions (run [Keydown (ctrl_a 1)] eight_multi_filtered))
  = ["Green"; "Magenta"; "Orange"; "Purple"; "Pink"; "Red"].
Proof. repeat split; vm_compute; reflexivity. Qed.

(** C5: [nextMatchingItem] takes -1 as the rotation index whenever there is
    an active item, so the search always runs from the last visible option
    and then from the first.  With the focus on Purple and the key "p", the
    next option after Purple that starts with "p" is Pink, but the controller
    finds Purple again and the focus does not advance. *)
Theorem typeahead_does_not_search_after_the_active_item :
  activeItem eight_on_purple = El 4 /\
  fst (visibleOptions eight_on_purple) = Returns (seq 0 8) /\
  typeahead_target "p" (seq 0 8) eight_on_purple = El 5 /\
  fst (nextMatchingItem "p" eight_on_purple) = Returns (El 4) /\
  RovingTabindex.activeItem
    (tabindex (run [Keydown (key_press "p" 4)] eight_on_purple)) = El 4.
Proof. repeat split; vm_compute; reflexivity. Qed.

(** C7: in multiselect mode the value is a new array at every read, so
    [oldValue !== this.value] always holds.  On an empty multiselect listbox
    a filter change fires [input] although the value is empty before and
    after; on the eight colours a key that selects nothing fires [change]. *)
Theorem notification_fires_on_unchanged_value :
  options (this empty_multi) = [] /\
  value empty_multi = Selection [] /\
  value (after (set_filter "a") empty_multi) = Selection [] /\
  dispatched empty_multi = [] /\
  dispatched (after (set_filter "a") empty_multi) = [Input] /\
  value (run [Keydown (key_press "ArrowDown" 0)] eight_multi) = value eight_multi /\
  dispatched (run [Keydown (key_press "ArrowDown" 0)] eight_multi) = [Change].
Proof. repeat split; vm_compute; reflexivity. Qed.

(** C9: only the filter path checks [disabled].  On a disabled listbox a
    click still selects the clicked option and fires [change]. *)
Theorem click_selects_on_a_disabled_listbox :
  disabled two_disabled = true /\
  selectedOptions two_disabled = [] /\
  dispatched two_disabled = [] /\
  selectedOptions (run [Click (click 1)] two_disabled) = [1] /\
  dispatched (run [Click (click 1)] two_disabled) = [Change] /\
  selectedOptions (run [Keydown (key_press "Enter" 1)]
                       (after (set_multiSelectable true) two_disabled)) = [1].
Proof. repeat split; vm_compute; reflexivity. Qed.

(** ** Validation of a comma-separated text *)

Lemma split_comma_chars_nonempty (s : list ascii) : split_comma_chars s <> [].
Proof.
  destruct s as [|c s]; simpl.
  - discriminate.
  - destruct (Ascii.eqb c ","%char); [discriminate|].
    destruct (split_comma_chars s); discriminate.
Qed.

Lemma split_comma_chars_no_comma (s piece : list ascii) :
  In piece (split_comma_chars s) -> chars_have_comma piece = false.
Proof.
  revert piece. induction s as [|c s IH]; simpl; intros piece Hin.
  - destruct Hin as [<-|[]]. reflexivity.
  - destruct (Ascii.eqb c ","%char) eqn:Hc.
    + destruct Hin as [<-|Hin]; [reflexivity|auto].
    + destruct (split_comma_chars s) as [|p ps] eqn:Hs.
      * destruct Hin as [<-|[]]. unfold chars_have_comma. cbn [existsb].
        rewrite Hc. reflexivity.
      * destruct Hin as [<-|Hin].
        -- unfold chars_have_comma. cbn [existsb]. rewrite Hc.
           apply (IH p). left. reflexivity.
        -- apply IH. right. exact Hin.
Qed.

Lemma has_comma_chars (s : list ascii) :
  has_comma (string_of_list_ascii s) = chars_have_comma s.
Proof.
  induction s as [|c s IH]; [reflexivity|].
  cbn [string_of_list_ascii has_comma]. rewrite IH. reflexivity.
Qed.

Lemma join_comma_cons (t : string) (ts : list string) :
  ts <> [] -> join_comma (t :: ts) = (t ++ "," ++ join_comma ts)%string.
Proof. destruct ts; [congruence|reflexivity]. Qed.

Lemma join_comma_head (c : ascii) (t : string) (ts : list string) :
  join_comma (String c t :: ts) = String c (join_comma (t :: ts)).
Proof. destruct ts; reflexivity. Qed.

Lemma join_split_chars (s : list ascii) :
  join_comma (map string_of_list_ascii (split_comma_chars s)) = string_of_list_ascii s.
Proof.
  induction s as [|c s IH]; [reflexivity|].
  pose proof (split_comma_chars_nonempty s) as Hne.
  cbn [split_comma_chars].
  destruct (Ascii.eqb c ","%char) eqn:Hc.
  - apply Ascii.eqb_eq in Hc. subst c.
    cbn [map]. rewrite join_comma_cons.
    + rewrite IH. reflexivity.
    + destruct (split_comma_chars s); [congruence|discriminate].
  - destruct (split_comma_chars s) as [|p ps]; [congruence|].
    cbn [map string_of_list_ascii] in IH |- *.
    rewrite join_comma_head, IH. reflexivity.
Qed.

(** The pieces of [split_comma] are the comma-free texts that joined by commas
    give the input back. *)
Lemma split_comma_tokens (v : string) :
  join_comma (split_comma v) = v /\
  (forall token, In token (split_comma v) -> has_comma token = false).
Proof.
  unfold split_comma. split.
  - rewrite join_split_chars. apply string_of_list_ascii_of_string.
  - intros token Hin. apply in_map_iff in Hin. destruct Hin as [piece [<- Hin]].
    rewrite has_comma_chars. eapply split_comma_chars_no_comma. exact Hin.
Qed.

Lemma existsb_text (s : State) (token : string) :
  existsb (String.eqb token) (map (fun o => Dom.textContent (dom s o)) (options (this s))) = true
  <-> exists o, In o (options (this s)) /\ Dom.textContent (dom s o) = token.
Proof.
  rewrite existsb_exists. split.
  - intros [x [Hin Heq]]. apply in_map_iff in Hin. destruct Hin as [o [<- Hin]].
    apply String.eqb_eq in Heq. exists o. split; [exact Hin|symmetry; exact Heq].
  - intros [o [Hin <-]]. exists (Dom.textContent (dom s o)). split.
    + apply in_map_iff. exists o. split; [reflexivity|exact Hin].
    + apply String.eqb_refl.
Qed.

(** C8 (counterexample): on an absent input [isValid] answers [true], where
    the claim has it answer [false]. *)
Lemma isValid_accepts_an_absent_input : isValid eight_colours None = true.
Proof. reflexivity. Qed.

(** C8 (amended): [isValid] is a total function (nothing in it throws).  On a
    string it answers [true] exactly when every comma-separated token is the
    text of some option, the tokens being the comma-free pieces that joined
    by commas give the string back; so on the empty string, whose one token
    is empty, it answers [true] only if some option has an empty text.  On an
    absent input there is no token to check and it answers [true]. *)
Theorem isValid_checks_every_token (s : State) :
  (forall v, isValid s (Some v) = true <->
             forall token, In token (split_comma v) ->
                           exists o, In o (options (this s)) /\ Dom.textContent (dom s o) = token) /\
  (forall v, join_comma (split_comma v) = v /\
             forall token, In token (split_comma v) -> has_comma token = false) /\
  (isValid s (Some "") = true <->
   exists o, In o (options (this s)) /\ Dom.textContent (dom s o) = "") /\
  isValid s None = true.
Proof.
  split; [|split; [|split]].
  - intros v. unfold isValid. rewrite forallb_forall. split.
    + intros H token Hin. apply existsb_text. apply H. exact Hin.
    + intros H token Hin. apply existsb_text. apply H. exact Hin.
  - intros v. apply split_comma_tokens.
  - unfold isValid.
    change (split_comma "") with [""].
    cbn [forallb]. rewrite andb_true_r. apply existsb_text.
  - reflexivity.
Qed.

(** ** Plain filter texts as patterns *)

Section PlainPatterns.

Import RegExp.

Lemma not_syntax_character (c : ascii) :
  is_syntax_character c = false ->
  Ascii.eqb c "("%char = false /\ Ascii.eqb c ")"%char = false /\
  Ascii.eqb c "|"%char = false /\ is_quantifier c = false /\
  Ascii.eqb c "^"%char = false /\ Ascii.eqb c "$"%char = false /\
  Ascii.eqb c "."%char = false /\ Ascii.eqb c "\"%char = false /\
  outside_fragment c = false.
Proof.
  unfold is_syntax_character, is_quantifier, outside_fragment. cbn [existsb].
  intros H. repeat (apply orb_false_elim in H; destruct H as [? H]).
  repeat split; try assumption;
    repeat (apply orb_false_intro); assumption.
Qed.

Lemma scan_plain (w rest : list ascii) (cur : frame) (stack : list frame) :
  forallb (fun c => negb (is_syntax_character c)) w = true ->
  scan (w ++ rest)%list cur stack = scan rest (push_literals w cur) stack.
Proof.
  revert cur. induction w as [|c w IH]; intros cur Hw; [reflexivity|].
  cbn [forallb] in Hw. apply andb_true_iff in Hw. destruct Hw as [Hc Hw].
  apply negb_true_iff in Hc. apply not_syntax_character in Hc.
  destruct Hc as (H1 & H2 & H3 & H4 & H5 & H6 & H7 & H8 & H9).
  cbn [app scan]. rewrite H1, H2, H3, H4, H5, H6, H7, H8, H9.
  rewrite IH by exact Hw. reflexivity.
Qed.

Lemma scan_plain_whole (w : list ascii) (cur : frame) (stack : list frame) :
  forallb (fun c => negb (is_syntax_character c)) w = true ->
  scan w cur stack = scan [] (push_literals w cur) stack.
Proof.
  intros Hw. rewrite <- (scan_plain w [] cur stack Hw). rewrite app_nil_r. reflexivity.
Qed.

Lemma terms_push_literals (w : list ascii) (f : frame) :
  terms (push_literals w f)
  = (rev (map (fun c => (Chars (Lit c), Atom)) w) ++ terms f)%list /\
  alternatives (push_literals w f) = alternatives f.
Proof.
  revert f. induction w as [|c w IH]; intros f; [split; reflexivity|].
  cbn [push_literals fold_left]. fold (push_literals w (push_term f (Chars (Lit c), Atom))).
  destruct (IH (push_term f (Chars (Lit c), Atom))) as [Ht Ha].
  rewrite Ht, Ha. cbn [push_term terms alternatives map rev].
  rewrite <- app_assoc. split; reflexivity.
Qed.

Lemma seq_of_literals (w : list ascii) (base : list (regex * term_kind)) :
  seq_of (rev (map (fun c => (Chars (Lit c), Atom)) w) ++ base)%list
  = fold_left (fun acc t => Seq (fst t) acc) base (literal w).
Proof.
  unfold seq_of. rewrite fold_left_app. f_equal.
  rewrite <- fold_left_rev_right. rewrite rev_involutive.
  induction w as [|c w IH]; [reflexivity|].
  cbn [map fold_right literal fst]. rewrite IH. reflexivity.
Qed.

(** A plain text compiles, anchored or not, to its literal pattern. *)
Lemma RegExp_new_plain (text : string) (anchored caseSens : bool) :
  plain_text text = true ->
  RegExp_new ((if anchored then "^" else "") ++ text) (if caseSens then "" else "i")
  = Compiled {| source := if anchored
                          then Seq Bol (literal (list_ascii_of_string text))
                          else literal (list_ascii_of_string text);
                ignoreCase := negb caseSens |}.
Proof.
  unfold plain_text. intros Hp.
  assert (Hscan : scan (list_ascii_of_string ((if anchored then "^" else "") ++ text))
                       empty_frame []
                  = Parsed (if anchored
                            then Seq Bol (literal (list_ascii_of_string text))
                            else literal (list_ascii_of_string text))).
  { destruct anchored.
    - change (list_ascii_of_string ("^" ++ text))
        with ("^"%char :: list_ascii_of_string text).
      cbn [scan]. change (Ascii.eqb "^" "(") with false.
      change (Ascii.eqb "^" ")") with false. change (Ascii.eqb "^" "|") with false.
      change (is_quantifier "^") with false. change (Ascii.eqb "^" "^") with true.
      cbv iota.
      rewrite scan_plain_whole by exact Hp. cbn [scan]. f_equal.
      unfold close_frame.
      destruct (terms_push_literals (list_ascii_of_string text)
                  (push_term empty_frame (Bol, Assertion))) as [Ht Ha].
      rewrite Ht, Ha. cbn [push_term empty_frame terms alternatives fold_left].
      rewrite seq_of_literals. reflexivity.
    - change (list_ascii_of_string ("" ++ text)) with (list_ascii_of_string text).
      rewrite scan_plain_whole by exact Hp. cbn [scan]. f_equal.
      unfold close_frame.
      destruct (terms_push_literals (list_ascii_of_string text) empty_frame) as [Ht Ha].
      rewrite Ht, Ha. cbn [empty_frame terms alternatives fold_left].
      rewrite seq_of_literals. reflexivity. }
  unfold RegExp_new. destruct caseSens; cbn [String.eqb Ascii.eqb Bool.eqb];
    rewrite Hscan; reflexivity.
Qed.

(** A property of characters that holds at each of the 256 code units
    holds at every character. *)
Lemma every_character (P : ascii -> bool) :
  forallb P (map ascii_of_nat (seq 0 256)) = true -> forall c, P c = true.
Proof.
  intros H c. rewrite forallb_forall in H. apply H.
  rewrite <- (ascii_nat_embedding c). apply in_map. apply in_seq.
  pose proof (nat_ascii_bounded c). lia.
Qed.

(** The [i] flag compares two characters as "case-insensitive" says: their
    canonical forms are the same exactly when they are the same character or
    the two cases of one letter. *)
Lemma canonicalize_same_char (x c : ascii) :
  N.eqb (canonicalize x) (canonicalize c) = same_char true x c.
Proof.
  apply eqb_true_iff.
  revert c. apply (every_character
                     (fun c => Bool.eqb (N.eqb (canonicalize x) (canonicalize c))
                                        (same_char true x c))).
  revert x. apply (every_character
                     (fun x => forallb
                                 (fun c => Bool.eqb (N.eqb (canonicalize x) (canonicalize c))
                                                    (same_char true x c))
                                 (map ascii_of_nat (seq 0 256)))).
  vm_compute. reflexivity.
Qed.

Lemma char_matches_literal (ic : bool) (c x : ascii) :
  char_matches ic (Lit c) x = same_char ic x c.
Proof.
  destruct ic; cbn [char_matches].
  - apply canonicalize_same_char.
  - unfold same_char. cbn [andb]. rewrite orb_false_r. reflexivity.
Qed.

Lemma matcher_literal (ic : bool) (n : nat) (w : list ascii)
      (k : list ascii -> bool) (s : list ascii) :
  matcher ic n (literal w) k s
  = match strip_prefix ic w s with Some s' => k s' | None => false end.
Proof.
  revert s. induction w as [|c w IH]; intros s; [reflexivity|].
  cbn [literal fold_right matcher strip_prefix]. fold (literal w).
  destruct s as [|x s]; [reflexivity|].
  rewrite char_matches_literal.
  destruct (same_char ic x c); [apply IH|reflexivity].
Qed.

Lemma search_literal (ic : bool) (n : nat) (w s : list ascii) :
  search ic n (literal w) s = contains_chars ic w s.
Proof.
  induction s as [|x s IH]; cbn [search contains_chars];
    rewrite matcher_literal; unfold starts_with_chars.
  - destruct (strip_prefix ic w []); reflexivity.
  - rewrite IH. destruct (strip_prefix ic w (x :: s)); reflexivity.
Qed.

Lemma search_anchored_later (ic : bool) (n : nat) (r : regex) (s : list ascii) :
  List.length s < n -> search ic n (Seq Bol r) s = false.
Proof.
  induction s as [|x s IH]; intros Hlen; cbn [search matcher].
  - replace (Nat.eqb (List.length (@nil ascii)) n) with false; [reflexivity|].
    symmetry. apply Nat.eqb_neq. lia.
  - replace (Nat.eqb (List.length (x :: s)) n) with false.
    + cbn [andb orb]. apply IH. cbn [List.length] in Hlen. lia.
    + symmetry. apply Nat.eqb_neq. lia.
Qed.

Lemma search_anchored_literal (ic : bool) (w s : list ascii) :
  search ic (List.length s) (Seq Bol (literal w)) s = starts_with_chars ic w s.
Proof.
  destruct s as [|x s]; cbn [search matcher]; rewrite Nat.eqb_refl; cbn [andb];
    rewrite matcher_literal; unfold starts_with_chars.
  - destruct (strip_prefix ic w []); reflexivity.
  - rewrite search_anchored_later by (cbn [List.length]; lia).
    rewrite orb_false_r. destruct (strip_prefix ic w (x :: s)); reflexivity.
Qed.

End PlainPatterns.

(** ** Reasoning about handlers *)

Lemma bind_fst_snd (A B : Type) (m : M A) (f : A -> M B) (s : State) :
  bind m f s = match fst (m s) with
               | Returns a => f a (snd (m s))
               | Throws e => (Throws e, snd (m s))
               end.
Proof. unfold bind. destruct (m s) as [[a|e] s']; reflexivity. Qed.

Lemma forEach_returns (A : Type) (l : list A) (f : A -> M unit) :
  (forall x s, fst (f x s) = Returns tt) ->
  forall s, fst (forEach l f s) = Returns tt.
Proof.
  intros Hf. induction l as [|x l IH]; intros s; [reflexivity|].
  cbn [forEach]. rewrite bind_fst_snd, Hf. apply IH.
Qed.

Section Preservation.

Variable R : State -> State -> Prop.
Hypothesis R_refl : forall s, R s s.
Hypothesis R_trans : forall a b c, R a b -> R b c -> R a c.

Lemma preserves_ret (A : Type) (a : A) : preserves R (ret a).
Proof. intros s. apply R_refl. Qed.

Lemma preserves_throw (A : Type) (e : exn) : preserves R (@throw A e).
Proof. intros s. apply R_refl. Qed.

Lemma preserves_get : preserves R get.
Proof. intros s. apply R_refl. Qed.

Lemma preserves_modify (f : State -> State) :
  (forall s, R s (f s)) -> preserves R (modify f).
Proof. intros H s. apply H. Qed.

Lemma preserves_bind (A B : Type) (m : M A) (f : A -> M B) :
  preserves R m -> (forall a, preserves R (f a)) -> preserves R (bind m f).
Proof.
  intros Hm Hf s. rewrite bind_fst_snd.
  destruct (fst (m s)) as [a|e].
  - eapply R_trans; [apply Hm|apply Hf].
  - apply Hm.
Qed.

Lemma preserves_get_bind (B : Type) (k : State -> M B) :
  (forall s, R s (snd (k s s))) -> preserves R (bind get k).
Proof. intros H s. apply H. Qed.

Lemma preserves_when (b : bool) (m : M unit) :
  preserves R m -> preserves R (when b m).
Proof. intros H. destruct b; [exact H|apply preserves_ret]. Qed.

Lemma preserves_forEach (A : Type) (l : list A) (f : A -> M unit) :
  (forall x, preserves R (f x)) -> preserves R (forEach l f).
Proof.
  intros Hf. induction l as [|x l IH]; cbn [forEach].
  - apply preserves_ret.
  - apply preserves_bind; [apply Hf|intros _; exact IH].
Qed.

Lemma preserves_filter_by (A : Type) (l : list A) (p : A -> M bool) :
  (forall x, preserves R (p x)) -> preserves R (filter_by l p).
Proof.
  intros Hp. induction l as [|x l IH]; cbn [filter_by].
  - apply preserves_ret.
  - apply preserves_bind; [apply Hp|intros keep].
    apply preserves_bind; [exact IH|intros rest]. apply preserves_ret.
Qed.

(** The state after a bind is related to the state after its first part
    when the rest preserves the relation. *)
Lemma bind_rest (A B : Type) (m : M A) (f : A -> M B) (s : State) :
  (forall a, preserves R (f a)) -> R (snd (m s)) (snd (bind m f s)).
Proof.
  intros Hf. rewrite bind_fst_snd. destruct (fst (m s)) as [a|e].
  - apply Hf.
  - apply R_refl.
Qed.

End Preservation.

Lemma same_selection_refl (s : State) : same_selection s s.
Proof. unfold same_selection. repeat split; reflexivity. Qed.

Lemma same_selection_trans (a b c : State) :
  same_selection a b -> same_selection b c -> same_selection a c.
Proof.
  unfold same_selection.
  intros (H1 & H2 & H3 & H4 & H5 & H6) (K1 & K2 & K3 & K4 & K5 & K6).
  repeat split; try congruence;
    intros q; first [rewrite K5; apply H5 | rewrite K6; apply H6].
Qed.

Lemma keeps_refl (J : State -> Prop) (s : State) : keeps J s s.
Proof. intros H. exact H. Qed.

Lemma keeps_trans (J : State -> Prop) (a b c : State) :
  keeps J a b -> keeps J b c -> keeps J a c.
Proof. unfold keeps. auto. Qed.

Create HintDb frame.

#[local] Hint Resolve same_selection_refl same_selection_trans keeps_refl keeps_trans : frame.

Ltac frame_step :=
  first
    [ apply preserves_ret; auto with frame
    | apply preserves_throw; auto with frame
    | apply preserves_get; auto with frame
    | apply preserves_when; [auto with frame | ]
    | apply preserves_bind; [auto with frame | eauto with frame | | intro ]
    | apply preserves_forEach; [auto with frame | eauto with frame | intro ]
    | apply preserves_filter_by; [auto with frame | eauto with frame | intro ] ].

(** A write that touches neither [selected] nor [id] nor the controller's
    selection fields. *)
Ltac frame_write :=
  apply preserves_modify; intros ?s; unfold same_selection;
  cbn [with_dom with_this with_internals with_tabindex with_activeElement dispatchEvent
       this internals tabindex dom options shiftStartingItem
       put_updateFocus put_showAllOptions
       Internals.ariaMultiSelectable Internals.with_ariaActivedescendant
       RovingTabindex.items];
  repeat split; intros; try reflexivity;
  unfold Dom.update; destruct (Nat.eqb _ _); reflexivity.

Lemma set_hidden_by_filter_frame (o : nat) (b : bool) :
  preserves same_selection (set_hidden_by_filter o b).
Proof. unfold set_hidden_by_filter. frame_write. Qed.

Lemma set_active_descendant_frame (o : nat) (b : bool) :
  preserves same_selection (set_active_descendant o b).
Proof. unfold set_active_descendant. frame_write. Qed.

Lemma fireChange_frame : preserves same_selection fireChange.
Proof. unfold fireChange. frame_write. Qed.

Lemma fireInput_frame : preserves same_selection fireInput.
Proof. unfold fireInput. frame_write. Qed.

Lemma put_updateFocus_frame (b : bool) :
  preserves same_selection (modify (with_this (put_updateFocus b))).
Proof. frame_write. Qed.

Lemma put_showAllOptions_frame (b : bool) :
  preserves same_selection (modify (with_this (put_showAllOptions b))).
Proof. frame_write. Qed.

Lemma put_ariaActivedescendant_frame (v : option string) :
  preserves same_selection (modify (with_internals (Internals.with_ariaActivedescendant v))).
Proof. frame_write. Qed.

Lemma with_activeElement_frame (x : elref) :
  preserves same_selection (modify (with_activeElement x)).
Proof. frame_write. Qed.

Lemma updateActiveItem_frame (x : elref) :
  preserves same_selection (modify (with_tabindex (RovingTabindex.updateActiveItem x))).
Proof.
  apply preserves_modify. intros s. unfold same_selection, RovingTabindex.updateActiveItem.
  cbn [with_tabindex this internals tabindex dom].
  destruct (RovingTabindex.items (tabindex s)) eqn:Hitems;
    cbn [RovingTabindex.items]; repeat split; try reflexivity; congruence.
Qed.

#[local] Hint Resolve set_hidden_by_filter_frame set_active_descendant_frame
  fireChange_frame fireInput_frame put_updateFocus_frame put_showAllOptions_frame
  put_ariaActivedescendant_frame with_activeElement_frame updateActiveItem_frame : frame.

(** Decomposes a handler along its binds, loops and branches; what remains
    are the primitive steps, looked up among the hints. *)
Ltac frame_with refl trans :=
  repeat
    (intros;
     lazymatch goal with
     | |- preserves _ (ret _) => apply preserves_ret; exact refl
     | |- preserves _ (throw _) => apply preserves_throw; exact refl
     | |- preserves _ get => apply preserves_get; exact refl
     | |- preserves _ (when _ _) => apply preserves_when; [exact refl|]
     | |- preserves _ (bind _ _) => apply preserves_bind; [exact trans| |]
     | |- preserves _ (forEach _ _) => apply preserves_forEach; [exact refl|exact trans|]
     | |- preserves _ (filter_by _ _) => apply preserves_filter_by; [exact refl|exact trans|]
     | |- preserves _ (if ?b then _ else _) => destruct b
     | |- preserves _ (match ?x with _ => _ end) => destruct x
     | |- preserves _ (let _ := _ in _) => cbv zeta
     | |- preserves _ _ => solve [eauto with frame]
     end).

Ltac frame := frame_with same_selection_refl same_selection_trans.

Lemma new_RegExp_frame (pattern flags : string) :
  preserves same_selection (new_RegExp pattern flags).
Proof. unfold new_RegExp. frame. Qed.

#[local] Hint Resolve new_RegExp_frame : frame.

Lemma option_matches_frame (o : nat) : preserves same_selection (option_matches o).
Proof. unfold option_matches. frame. Qed.

Lemma mark_hidden_frame (matched : list nat) (o : nat) :
  preserves same_selection (mark_hidden matched o).
Proof. unfold mark_hidden. frame. Qed.

#[local] Hint Resolve option_matches_frame mark_hidden_frame : frame.

Lemma visibleOptions_frame : preserves same_selection visibleOptions.
Proof. unfold visibleOptions. frame. Qed.

#[local] Hint Resolve visibleOptions_frame : frame.

Lemma mark_active_frame (o : nat) : preserves same_selection (mark_active o).
Proof. unfold mark_active. frame. Qed.

#[local] Hint Resolve mark_active_frame : frame.

Lemma updateActiveDescendant_frame : preserves same_selection updateActiveDescendant.
Proof. unfold updateActiveDescendant. frame. Qed.

Lemma focusOnItem_frame (item : elref) : preserves same_selection (focusOnItem item).
Proof. unfold focusOnItem. frame. Qed.

#[local] Hint Resolve updateActiveDescendant_frame focusOnItem_frame : frame.

Lemma nextMatchingItem_frame (k : string) : preserves same_selection (nextMatchingItem k).
Proof. unfold nextMatchingItem. frame. Qed.

Lemma keydown_end_frame (oldValue : ListboxValue) (stop : bool) (focusEvent : elref) :
  preserves same_selection (keydown_end oldValue stop focusEvent).
Proof. unfold keydown_end. frame. Qed.

Lemma click_end_frame (oldValue : ListboxValue) (target : elref) :
  preserves same_selection (click_end oldValue target).
Proof. unfold click_end. frame. Qed.

Lemma onOptionFocus_frame (target : elref) :
  preserves same_selection (onOptionFocus target).
Proof. unfold onOptionFocus. frame. Qed.

#[local] Hint Resolve nextMatchingItem_frame keydown_end_frame click_end_frame
  onOptionFocus_frame : frame.

(** ** The visible options *)

Lemma option_matches_run (s : State) (re : RegExp.regexp) (o : nat) :
  RegExp.RegExp_new ((if matchAnywhere (this s) then "" else "^") ++ filter (this s))
                    (if caseSensitive (this s) then "" else "i") = RegExp.Compiled re ->
  option_matches o s
  = (Returns (String.eqb (filter (this s)) ""
              || RegExp.test re (Dom.textContent (dom s o))), s).
Proof.
  intros Hre. unfold option_matches, new_RegExp, bind, get. rewrite Hre. reflexivity.
Qed.

Lemma filter_by_option_matches (s : State) (re : RegExp.regexp) (l : list nat) :
  RegExp.RegExp_new ((if matchAnywhere (this s) then "" else "^") ++ filter (this s))
                    (if caseSensitive (this s) then "" else "i") = RegExp.Compiled re ->
  filter_by l option_matches s
  = (Returns (List.filter
                (fun o => String.eqb (filter (this s)) ""
                          || RegExp.test re (Dom.textContent (dom s o))) l), s).
Proof.
  intros Hre. induction l as [|o l IH]; [reflexivity|].
  cbn [filter_by List.filter]. unfold bind at 1.
  rewrite (option_matches_run s o Hre). unfold bind at 1. rewrite IH. reflexivity.
Qed.

Lemma mark_hidden_returns (matched : list nat) (o : nat) (s : State) :
  fst (mark_hidden matched o s) = Returns tt.
Proof.
  unfold mark_hidden, set_hidden_by_filter, bind, get, when, modify, ret.
  destruct (includes matched o); [reflexivity|].
  destruct (elref_eqb (activeElement s) (El o)); reflexivity.
Qed.

(** With the filter in force and a pattern that compiles, the derivation
    returns the matching options, or all of them when none matches. *)
Lemma visibleOptions_filtered (s : State) (re : RegExp.regexp) :
  disableFilter (this s) = false ->
  String.eqb (filter (this s)) "*" = false ->
  showAllOptions (this s) = false ->
  RegExp.RegExp_new ((if matchAnywhere (this s) then "" else "^") ++ filter (this s))
                    (if caseSensitive (this s) then "" else "i") = RegExp.Compiled re ->
  fst (visibleOptions s)
  = Returns (match List.filter
                     (fun o => String.eqb (filter (this s)) ""
                               || RegExp.test re (Dom.textContent (dom s o)))
                     (options (this s)) with
             | [] => options (this s)
             | o :: matched => o :: matched
             end).
Proof.
  intros Hd Hstar Hall Hre. unfold visibleOptions.
  rewrite bind_fst_snd. cbn [get fst snd].
  rewrite Hd, Hstar, Hall. cbn [orb negb].
  rewrite bind_fst_snd, (filter_by_option_matches s (options (this s)) Hre). cbn [fst snd].
  rewrite bind_fst_snd, forEach_returns by apply mark_hidden_returns.
  destruct (List.filter _ (options (this s))); reflexivity.
Qed.

(** With the filter out of force the derivation returns every option. *)
Lemma visibleOptions_unfiltered (s : State) :
  disableFilter (this s) || String.eqb (filter (this s)) "*" || showAllOptions (this s) = true ->
  fst (visibleOptions s) = Returns (options (this s)).
Proof.
  intros Hoff. unfold visibleOptions.
  rewrite bind_fst_snd. cbn [get fst snd].
  rewrite Hoff. cbn [negb].
  rewrite bind_fst_snd. cbn [ret fst snd].
  rewrite bind_fst_snd, forEach_returns by apply mark_hidden_returns.
  reflexivity.
Qed.

(** Whenever the derivation returns a list, the list is not empty unless the
    full option list is. *)
Lemma visibleOptions_nonempty (s : State) (visible : list nat) :
  fst (visibleOptions s) = Returns visible ->
  options (this s) <> [] -> visible <> [].
Proof.
  unfold visibleOptions. rewrite bind_fst_snd. cbn [get fst snd].
  rewrite bind_fst_snd.
  match goal with
  | |- context [match fst ?x with _ => _ end] => destruct (fst x) as [matched|e]
  end; [|discriminate].
  rewrite bind_fst_snd, forEach_returns by apply mark_hidden_returns.
  cbn [ret fst]. intros Hv Hne. injection Hv as <-.
  destruct matched as [|o matched]; cbn [List.length Nat.ltb Nat.leb].
  - exact Hne.
  - discriminate.
Qed.

Lemma test_plain (s : State) (text : string) :
  plain_text (filter (this s)) = true ->
  exists re,
    RegExp.RegExp_new ((if matchAnywhere (this s) then "" else "^") ++ filter (this s))
                      (if caseSensitive (this s) then "" else "i") = RegExp.Compiled re /\
    forall text, RegExp.test re text = text_matches s text.
Proof.
  intros Hp. unfold text_matches.
  destruct (matchAnywhere (this s)).
  - eexists. split.
    + exact (RegExp_new_plain (filter (this s)) false (caseSensitive (this s)) Hp).
    + intros t. unfold RegExp.test. cbn [RegExp.source RegExp.ignoreCase].
      apply search_literal.
  - eexists. split.
    + exact (RegExp_new_plain (filter (this s)) true (caseSensitive (this s)) Hp).
    + intros t. unfold RegExp.test. cbn [RegExp.source RegExp.ignoreCase].
      apply search_anchored_literal.
Qed.

Lemma empty_filter_matches (s : State) (text : string) :
  String.eqb (filter (this s)) "" = true -> text_matches s text = true.
Proof.
  intros He. apply String.eqb_eq in He. unfold text_matches. rewrite He.
  destruct (matchAnywhere (this s)); [|reflexivity].
  destruct (list_ascii_of_string text); reflexivity.
Qed.

(** C6 (counterexample): scenario C.  The filter "r", case-sensitive and
    anchored, is a non-empty filter other than the wildcard and filtering is
    enabled; no colour starts with a lower-case "r", yet the visible list is
    the full list of eight, not the (empty) list of matching options. *)
Lemma visible_options_are_not_the_matches_when_none_matches :
  ~ (forall s, filter (this s) <> "" -> filter (this s) <> "*" ->
               disableFilter (this s) = false ->
               fst (visibleOptions s) = Returns (matching_options s)).
Proof.
  intros H. specialize (H eight_case_sensitive_r).
  assert (Hv : fst (visibleOptions eight_case_sensitive_r) = Returns (seq 0 8))
    by (vm_compute; reflexivity).
  assert (Hm : matching_options eight_case_sensitive_r = []) by (vm_compute; reflexivity).
  rewrite Hv, Hm in H.
  assert (Returns (seq 0 8) = Returns (@nil nat)) as Habs.
  { apply H.
    - vm_compute. intros Heq. discriminate Heq.
    - vm_compute. intros Heq. discriminate Heq.
    - vm_compute. reflexivity. }
  discriminate Habs.
Qed.

(** C6 (amended): for every filter text without regular-expression syntax
    characters, with filtering enabled, the visible options are the options
    of the full list, in the list's order, whose text starts with the filter
    (or contains it, when matchAnywhere is set), letter case ignored unless
    caseSensitive is set, provided at least one option matches; when none
    matches, the visible options are the full list.  For the eight colours
    and "r" matched anywhere they are Green, Orange, Purple and Red. *)
Theorem visible_options_are_the_matches_or_all :
  (forall s,
     plain_text (filter (this s)) = true ->
     disableFilter (this s) = false ->
     showAllOptions (this s) = false ->
     fst (visibleOptions s)
     = Returns (match matching_options s with
                | [] => options (this s)
                | o :: matched => o :: matched
                end)) /\
  filter (this eight_r_anywhere) = "r" /\
  matchAnywhere (this eight_r_anywhere) = true /\
  texts_of eight_r_anywhere (options (this eight_r_anywhere)) = colours /\
  exists visible,
    fst (visibleOptions eight_r_anywhere) = Returns visible /\
    texts_of eight_r_anywhere visible = ["Green"; "Orange"; "Purple"; "Red"].
Proof.
  split; [|split; [|split; [|split]]].
  - intros s Hp Hd Hall.
    destruct (test_plain s "" Hp) as [re [Hre Htest]].
    assert (Hstar : String.eqb (filter (this s)) "*" = false).
    { destruct (String.eqb (filter (this s)) "*") eqn:E; [|reflexivity].
      apply String.eqb_eq in E. rewrite E in Hp. discriminate Hp. }
    rewrite (visibleOptions_filtered s Hd Hstar Hall Hre).
    replace (List.filter _ (options (this s))) with (matching_options s); [reflexivity|].
    unfold matching_options. apply filter_ext. intros o.
    rewrite Htest.
    destruct (String.eqb (filter (this s)) "") eqn:E; [|reflexivity].
    rewrite empty_filter_matches by exact E. reflexivity.
  - vm_compute. reflexivity.
  - vm_compute. reflexivity.
  - vm_compute. reflexivity.
  - exists [1; 3; 4; 6]. split; vm_compute; reflexivity.
Qed.

(** The theorem at scenario A: "r" anchored at the start shows Red alone;
    and at an accented letter: a lower-case e acute shows the option that
    starts with the upper-case one alone. *)
Lemma visible_options_are_the_matches_or_all_witness :
  plain_text (filter (this (after (set_filter "r") eight_colours))) = true /\
  fst (visibleOptions (after (set_filter "r") eight_colours)) = Returns [6] /\
  plain_text (filter (this two_accented)) = true /\
  fst (visibleOptions two_accented) = Returns [0].
Proof.
  split; [vm_compute; reflexivity|]. split.
  - rewrite (proj1 visible_options_are_the_matches_or_all
               (after (set_filter "r") eight_colours)); vm_compute; reflexivity.
  - split; [vm_compute; reflexivity|].
    rewrite (proj1 visible_options_are_the_matches_or_all two_accented);
      vm_compute; reflexivity.
Defined.

(** ** Loops that assign [selected] *)

Lemma same_but_selected_refl (s : State) : same_but_selected s s.
Proof. unfold same_but_selected. repeat split; reflexivity. Qed.

Lemma same_but_selected_trans (a b c : State) :
  same_but_selected a b -> same_but_selected b c -> same_but_selected a c.
Proof.
  unfold same_but_selected. intros (H1 & H2 & H3 & H4) (K1 & K2 & K3 & K4).
  repeat split; try congruence; intros q; rewrite K4; apply H4.
Qed.

Lemma set_selected_same_but_selected (o : nat) (b : bool) :
  preserves same_but_selected (set_selected o b).
Proof.
  unfold set_selected. apply preserves_modify. intros s. unfold same_but_selected.
  cbn [with_dom this internals tabindex dom]. repeat split.
  intros q. unfold Dom.update. destruct (Nat.eqb q o); reflexivity.
Qed.

(** A loop over [l] whose callback assigns [h s option], where [h] reads
    only what the assignments leave alone, sets the flag of every option of
    [l] to [h] of the state before the loop and changes nothing else. *)
Lemma forEach_assign (h : State -> nat -> bool) (l : list nat) :
  (forall s s' o, same_but_selected s s' -> h s' o = h s o) ->
  forall s,
    fst (forEach l (fun o => s1 <- get ;; set_selected o (h s1 o)) s) = Returns tt /\
    same_but_selected s (snd (forEach l (fun o => s1 <- get ;; set_selected o (h s1 o)) s)) /\
    selected_by (h s) l s (snd (forEach l (fun o => s1 <- get ;; set_selected o (h s1 o)) s)).
Proof.
  intros Hh. induction l as [|o l IH]; intros s.
  - split; [reflexivity|]. split; [apply same_but_selected_refl|].
    intros q. reflexivity.
  - set (f := fun o => s1 <- get ;; set_selected o (h s1 o)) in *.
    set (s1 := with_dom (Dom.update o (Dom.with_selected (h s o))) s).
    assert (Hstep : forEach (o :: l) f s = forEach l f s1) by reflexivity.
    rewrite Hstep.
    assert (Hs1 : same_but_selected s s1).
    { apply (set_selected_same_but_selected o (h s o) s). }
    destruct (IH s1) as (Hret & Hsame & Hsel).
    split; [exact Hret|]. split.
    + eapply same_but_selected_trans; [exact Hs1|exact Hsame].
    + intros q. rewrite (Hsel q). cbn [includes existsb].
      fold (includes l q).
      destruct (includes l q) eqn:Hin.
      * rewrite orb_true_r. apply Hh. exact Hs1.
      * rewrite orb_false_r. unfold s1. cbn [with_dom dom]. unfold Dom.update.
        destruct (Nat.eqb q o) eqn:Hq; [|reflexivity].
        apply Nat.eqb_eq in Hq. subst q. reflexivity.
Qed.

(** The same for a callback that assigns [g option] without reading the
    state. *)
Lemma forEach_assign_const (g : nat -> bool) (l : list nat) (s : State) :
  fst (forEach l (fun o => set_selected o (g o)) s) = Returns tt /\
  same_but_selected s (snd (forEach l (fun o => set_selected o (g o)) s)) /\
  selected_by g l s (snd (forEach l (fun o => set_selected o (g o)) s)).
Proof.
  exact (forEach_assign (fun _ => g) l (fun _ _ _ _ => eq_refl) s).
Qed.

Lemma includes_In (l : list nat) (q : nat) : includes l q = true <-> In q l.
Proof.
  unfold includes. rewrite existsb_exists. split.
  - intros [x [Hin Hx]]. apply Nat.eqb_eq in Hx. subst x. exact Hin.
  - intros Hin. exists q. split; [exact Hin|apply Nat.eqb_refl].
Qed.

Lemma selectedOptions_In (s : State) (a : nat) :
  In a (selectedOptions s) <-> In a (options (this s)) /\ Dom.selected (dom s a) = true.
Proof. unfold selectedOptions. apply filter_In. Qed.

(** ** Single selection *)

Lemma bind_get (B : Type) (k : State -> M B) (s : State) : bind get k s = k s s.
Proof. reflexivity. Qed.

Lemma same_selection_selectedOptions (s s' : State) :
  same_selection s s' -> selectedOptions s' = selectedOptions s.
Proof.
  intros (Ho & _ & _ & _ & Hsel & _). unfold selectedOptions. rewrite Ho.
  apply filter_ext. intros o. apply Hsel.
Qed.

Lemma same_selection_multiSelectable (s s' : State) :
  same_selection s s' -> multiSelectable s' = multiSelectable s.
Proof. intros (_ & _ & Hm & _). unfold multiSelectable. rewrite Hm. reflexivity. Qed.

Lemma same_selection_unique_ids (s s' : State) :
  same_selection s s' -> unique_ids s -> unique_ids s'.
Proof.
  intros (Ho & _ & _ & _ & _ & Hid) [Hsome Hinj]. unfold unique_ids. rewrite Ho. split.
  - intros a Ha. rewrite Hid. apply Hsome. exact Ha.
  - intros a b Ha Hb. rewrite !Hid. apply Hinj; assumption.
Qed.

Lemma same_selection_single (s s' : State) :
  same_selection s s' -> keeps single_select s s'.
Proof.
  intros Hss (Hm & Hid & Hone). unfold single_select. split; [|split].
  - rewrite (same_selection_multiSelectable Hss). exact Hm.
  - apply (same_selection_unique_ids Hss Hid).
  - unfold at_most_one_selected. rewrite (same_selection_selectedOptions Hss). exact Hone.
Qed.

Lemma same_but_events_same_selection (s s' : State) :
  same_but_events s s' -> same_selection s s'.
Proof.
  intros (Ht & Hi & Htab & Hd & _). unfold same_selection.
  rewrite Ht, Hi, Htab, Hd. repeat split; reflexivity.
Qed.

(** After a loop that assigns [g] to every option, at most one option is
    selected when [g] holds of at most one option. *)
Lemma assigned_single (g : nat -> bool) (s s1 : State) :
  multiSelectable s = false ->
  unique_ids s ->
  same_but_selected s s1 ->
  selected_by g (options (this s)) s s1 ->
  (forall a b, In a (options (this s)) -> In b (options (this s)) ->
               g a = true -> g b = true -> a = b) ->
  single_select s1.
Proof.
  intros Hm [Hsome Hinj] (Ht & Hi & _ & Hid) Hsel Hg. unfold single_select. split; [|split].
  - unfold multiSelectable. rewrite Hi. exact Hm.
  - unfold unique_ids. rewrite Ht. split.
    + intros a Ha. rewrite Hid. apply Hsome. exact Ha.
    + intros a b Ha Hb. rewrite !Hid. apply Hinj; assumption.
  - intros a b Ha Hb. apply selectedOptions_In in Ha, Hb.
    rewrite Ht in Ha, Hb. destruct Ha as [Ha Hsa], Hb as [Hb Hsb].
    rewrite (Hsel a) in Hsa. rewrite (Hsel b) in Hsb.
    rewrite (proj2 (includes_In _ _) Ha) in Hsa.
    rewrite (proj2 (includes_In _ _) Hb) in Hsb.
    apply Hg; assumption.
Qed.

Lemma click_single (c : MouseEvent) (s : State) :
  multiSelectable s = false ->
  exists s1,
    same_but_selected s s1 /\
    selected_by (fun o => elref_eqb (El o) (mouse_target c)) (options (this s)) s s1 /\
    same_selection s1 (snd (onOptionClick c s)).
Proof.
  intros Hm. unfold onOptionClick. rewrite bind_get. cbv zeta. rewrite Hm.
  set (g := fun o => elref_eqb (El o) (mouse_target c)).
  destruct (forEach_assign_const g (options (this s)) s) as (_ & Hsame & Hsel).
  exists (snd (forEach (options (this s)) (fun o => set_selected o (g o)) s)).
  split; [exact Hsame|]. split; [exact Hsel|].
  apply (bind_rest same_selection_refl). intros _. apply click_end_frame.
Qed.

(** What [updateSingleselect] assigns to an option. *)
Lemma select_if_active_stable (s s' : State) (o : nat) :
  same_but_selected s s' ->
  option_string_eqb (Some (Dom.id (dom s' o))) (Internals.ariaActivedescendant (internals s'))
  = option_string_eqb (Some (Dom.id (dom s o))) (Internals.ariaActivedescendant (internals s)).
Proof.
  intros (_ & Hi & _ & Hid). unfold Dom.id. rewrite Hi, Hid. reflexivity.
Qed.

Lemma fireChange_same_but_events : preserves same_but_events fireChange.
Proof.
  unfold fireChange. apply preserves_modify. intros s.
  unfold same_but_events. repeat split; reflexivity.
Qed.

Lemma same_but_events_refl (s : State) : same_but_events s s.
Proof. unfold same_but_events. repeat split; reflexivity. Qed.

Lemma same_but_events_trans (a b c : State) :
  same_but_events a b -> same_but_events b c -> same_but_events a c.
Proof.
  unfold same_but_events.
  intros (H1 & H2 & H3 & H4 & H5) (K1 & K2 & K3 & K4 & K5).
  repeat split; congruence.
Qed.

Lemma updateSingleselect_single (s : State) :
  multiSelectable s = false ->
  exists s1,
    same_but_selected s s1 /\
    selected_by (fun o => option_string_eqb (Some (Dom.id (dom s o)))
                            (Internals.ariaActivedescendant (internals s)))
                (options (this s)) s s1 /\
    same_but_events s1 (snd (updateSingleselect s)).
Proof.
  intros Hm. unfold updateSingleselect. rewrite bind_get. rewrite Hm. cbn [negb when].
  destruct (forEach_assign
              (fun s o => option_string_eqb (Some (Dom.id (dom s o)))
                            (Internals.ariaActivedescendant (internals s)))
              (options (this s)) select_if_active_stable s) as (_ & Hsame & Hsel).
  exists (snd (forEach (options (this s)) select_if_active s)).
  split; [exact Hsame|]. split; [exact Hsel|].
  apply (bind_rest same_but_events_refl). intros _. apply fireChange_same_but_events.
Qed.

Lemma keydown_end_same_but_events (oldValue : ListboxValue) (stop : bool) :
  preserves same_but_events (keydown_end oldValue stop Undefined).
Proof.
  unfold keydown_end. cbn [truthy when].
  frame_with same_but_events_refl same_but_events_trans.
  apply fireChange_same_but_events.
Qed.

Lemma click_target_unique (t : elref) (a b : nat) :
  elref_eqb (El a) t = true -> elref_eqb (El b) t = true -> a = b.
Proof.
  destruct t as [| |r]; cbn [elref_eqb]; try discriminate.
  intros Ha Hb. apply Nat.eqb_eq in Ha, Hb. congruence.
Qed.

Lemma active_id_unique (s : State) (a b : nat) :
  unique_ids s ->
  In a (options (this s)) -> In b (options (this s)) ->
  option_string_eqb (Some (Dom.id (dom s a))) (Internals.ariaActivedescendant (internals s)) = true ->
  option_string_eqb (Some (Dom.id (dom s b))) (Internals.ariaActivedescendant (internals s)) = true ->
  a = b.
Proof.
  intros [Hsome Hinj] Ha Hb Hia Hib.
  apply Hinj; try assumption.
  pose proof (Hsome a Ha) as Hna. pose proof (Hsome b Hb) as Hnb.
  unfold Dom.id in Hia, Hib.
  destruct (Dom.id_attr (dom s a)) as [ia|]; [|congruence].
  destruct (Dom.id_attr (dom s b)) as [ib|]; [|congruence].
  destruct (Internals.ariaActivedescendant (internals s)) as [d|];
    cbn [option_string_eqb] in Hia, Hib; [|discriminate].
  apply String.eqb_eq in Hia, Hib. congruence.
Qed.

Lemma keydown_branches_single (k : KeyboardEvent) (s : State) :
  keeps single_select s (snd (keydown_branches k s)).
Proof.
  intros Hsingle. pose proof Hsingle as (Hm & Hid & Hone).
  unfold keydown_branches. rewrite bind_get. cbv zeta. rewrite Hm.
  destruct (altKey k || metaKey k); [exact Hsingle|].
  destruct (ctrlKey k).
  { destruct (is_a_key (key k) && truthy (RovingTabindex.firstItem (tabindex s)));
      [|exact Hsingle].
    apply (same_selection_single
             (s := snd (updateMultiselect (RovingTabindex.firstItem (tabindex s))
                                          (RovingTabindex.lastItem (tabindex s)) true s))).
    - apply (bind_rest same_selection_refl). intros _. apply keydown_end_frame.
    - unfold updateMultiselect. rewrite bind_get, Hm. exact Hsingle. }
  destruct (is_word_key (key k)).
  { apply (same_selection_single (s := s)); [|exact Hsingle].
    apply (preserves_bind same_selection_trans).
    - apply nextMatchingItem_frame.
    - intros focusEvent. apply keydown_end_frame. }
  destruct (String.eqb (key k) "Enter" || String.eqb (key k) " ").
  - destruct (truthy (target k)).
    + destruct (updateSingleselect_single s Hm) as (s1 & Hsame & Hsel & Hev).
      assert (Hs1 : single_select s1).
      { apply (assigned_single Hm Hid Hsame Hsel).
        intros a b Ha Hb Hga Hgb. eapply active_id_unique; eassumption. }
      apply (same_selection_single (s := s1)); [|exact Hs1].
      eapply same_selection_trans.
      * apply same_but_events_same_selection. exact Hev.
      * apply (bind_rest same_selection_refl). intros _. apply keydown_end_frame.
    + apply (same_selection_single (s := s)); [|exact Hsingle]. apply keydown_end_frame.
  - apply (same_selection_single (s := s)); [|exact Hsingle]. apply keydown_end_frame.
Qed.

Lemma handle_single (e : Event) (s : State) : keeps single_select s (handle e s).
Proof.
  intros Hsingle. pose proof Hsingle as (Hm & Hid & Hone).
  destruct e as [k|k|t|c]; cbn [handle].
  - (* keydown *)
    unfold onOptionKeydown.
    set (s0 := with_this (put_showAllOptions false) s).
    assert (Hs0 : same_selection s s0) by apply (put_showAllOptions_frame false s).
    assert (Hsingle0 : single_select s0) by apply (same_selection_single Hs0 Hsingle).
    assert (Hrun : forall B (rest : M B),
               bind (modify (with_this (put_showAllOptions false)))
                    (fun _ => s1 <- get ;;
                              when (String.eqb (key k) "Shift" && multiSelectable s1)
                                   (modify (with_this (put_shiftStartingItem (activeItem s1)))) ;;
                              rest) s
               = rest s0).
    { intros B rest. unfold bind at 1. cbn [modify]. fold s0. rewrite bind_get.
      destruct Hsingle0 as (Hm0 & _). rewrite Hm0, andb_false_r. reflexivity. }
    rewrite Hrun. apply keydown_branches_single. exact Hsingle0.
  - (* keyup *)
    unfold onOptionKeyup. rewrite bind_get. cbv zeta. rewrite Hm, andb_false_r.
    exact Hsingle.
  - (* option focus *)
    apply (same_selection_single (s := s)); [|exact Hsingle]. apply onOptionFocus_frame.
  - (* click *)
    destruct (click_single c s Hm) as (s1 & Hsame & Hsel & Hrest).
    apply (same_selection_single Hrest).
    apply (assigned_single Hm Hid Hsame Hsel).
    intros a b _ _ Ha Hb. eapply click_target_unique; eassumption.
Qed.

Lemma run_single (events : list Event) (s : State) : keeps single_select s (run events s).
Proof.
  revert s. induction events as [|e events IH]; intros s Hsingle; [exact Hsingle|].
  cbn [run fold_left]. apply IH. apply handle_single. exact Hsingle.
Qed.

Lemma onOptionKeydown_single (k : KeyboardEvent) (s : State) :
  multiSelectable s = false ->
  onOptionKeydown k s = keydown_branches k (with_this (put_showAllOptions false) s).
Proof.
  intros Hm. unfold onOptionKeydown. unfold bind at 1. cbn [modify]. rewrite bind_get.
  change (multiSelectable (with_this (put_showAllOptions false) s)) with (multiSelectable s).
  rewrite Hm, andb_false_r. reflexivity.
Qed.

Lemma option_string_eqb_eq (x y : option string) :
  option_string_eqb x y = true -> x = y.
Proof.
  destruct x, y; cbn [option_string_eqb]; try discriminate; [|reflexivity].
  intros H. apply String.eqb_eq in H. congruence.
Qed.

(** With distinct ids, the option whose id is the active descendant is the
    active item. *)
Lemma activeItem_of_id (s : State) (a : nat) :
  unique_ids s ->
  In a (options (this s)) ->
  option_string_eqb (Some (Dom.id (dom s a))) (Internals.ariaActivedescendant (internals s)) = true ->
  activeItem s = El a.
Proof.
  intros [Hsome Hinj] Ha Hia. unfold activeItem.
  pose proof (Hsome a Ha) as Hna. unfold Dom.id in Hia.
  destruct (Dom.id_attr (dom s a)) as [ia|] eqn:Hida; [|congruence].
  apply option_string_eqb_eq in Hia.
  set (p := fun o => option_string_eqb (Dom.id_attr (dom s o))
                       (Internals.ariaActivedescendant (internals s))).
  assert (Hin : In a (List.filter p (options (this s)))).
  { apply filter_In. split; [exact Ha|]. unfold p. rewrite Hida, <- Hia.
    cbn [option_string_eqb]. apply String.eqb_refl. }
  assert (Hall : forall x, In x (List.filter p (options (this s))) -> x = a).
  { intros x Hx. apply filter_In in Hx. destruct Hx as [Hx Hpx].
    unfold p in Hpx. apply option_string_eqb_eq in Hpx.
    apply Hinj; [exact Hx|exact Ha|congruence]. }
  destruct (List.filter p (options (this s))) as [|x rest]; [destruct Hin|].
  rewrite (Hall x (or_introl eq_refl)). reflexivity.
Qed.

Lemma enter_selects_the_active_item (k : KeyboardEvent) (s : State) :
  single_select s ->
  key k = "Enter" \/ key k = " " ->
  altKey k = false -> metaKey k = false -> ctrlKey k = false ->
  truthy (target k) = true ->
  selected_is_active (handle (Keydown k) s).
Proof.
  intros Hsingle Hkey Halt Hmeta Hctrl Htarget.
  pose proof Hsingle as (Hm & _).
  cbn [handle]. rewrite (onOptionKeydown_single k s Hm).
  set (s0 := with_this (put_showAllOptions false) s).
  assert (Hsingle0 : single_select s0).
  { apply (same_selection_single (s := s)); [|exact Hsingle].
    apply (put_showAllOptions_frame false s). }
  destruct Hsingle0 as (Hm0 & Hid0 & _).
  unfold keydown_branches. rewrite bind_get. cbv zeta.
  rewrite Halt, Hmeta, Hctrl, Htarget, Hm0. cbn [orb].
  assert (Hword : is_word_key (key k) = false) by (destruct Hkey as [-> | ->]; reflexivity).
  assert (Henter : String.eqb (key k) "Enter" || String.eqb (key k) " " = true)
    by (destruct Hkey as [-> | ->]; reflexivity).
  rewrite Hword, Henter.
  destruct (updateSingleselect_single s0 Hm0) as (s1 & Hsame & Hsel & Hev).
  assert (Hfinal : same_but_events s1
                     (snd ((updateSingleselect ;;
                            keydown_end (value s0) true Undefined) s0))).
  { eapply same_but_events_trans; [exact Hev|].
    apply (bind_rest same_but_events_refl). intros _. apply keydown_end_same_but_events. }
  set (final := snd ((updateSingleselect ;; keydown_end (value s0) true Undefined) s0)) in *.
  destruct Hfinal as (Ft & Fi & Ftab & Fd & _).
  destruct Hsame as (St & Si & Stab & Sid).
  intros a Ha. apply selectedOptions_In in Ha. destruct Ha as [Ha Hsa].
  rewrite Ft, St in Ha. rewrite Fd, (Hsel a), (proj2 (includes_In _ _) Ha) in Hsa.
  assert (Hactive : activeItem final = activeItem s0).
  { unfold activeItem. rewrite Ft, St, Fi, Si, Ftab, Stab, Fd.
    rewrite (filter_ext
               (fun o => option_string_eqb (Dom.id_attr (dom s1 o))
                           (Internals.ariaActivedescendant (internals s0)))
               (fun o => option_string_eqb (Dom.id_attr (dom s0 o))
                           (Internals.ariaActivedescendant (internals s0))));
      [reflexivity|].
    intros o. rewrite Sid. reflexivity. }
  rewrite Hactive. apply activeItem_of_id; assumption.
Qed.

Lemma two_options_unique_ids : unique_ids two_options.
Proof.
  assert (Hopts : options (this two_options) = [0; 1]) by (vm_compute; reflexivity).
  unfold unique_ids. rewrite Hopts. split.
  - intros a [<-|[<-|[]]]; vm_compute; intros Heq; discriminate Heq.
  - intros a b [<-|[<-|[]]] [<-|[<-|[]]]; try reflexivity;
      vm_compute; intros Heq; discriminate Heq.
Qed.

Lemma two_options_nothing_selected : selectedOptions two_options = [].
Proof. vm_compute. reflexivity. Qed.

(** C2: in single-select mode a focus event does not select.  On the eight
    colours with nothing selected, a focus event on the third option makes
    it the active descendant and leaves nothing selected: the value is
    [undefined] and not the third option, which a click on it would give.
    On two options, after a click on the first, a focus event on the second
    leaves the first selected while the second is the active descendant. *)
Theorem focus_does_not_select_in_single_select_mode :
  multiSelectable eight_colours = false /\
  selectedOptions eight_colours = [] /\
  activeItem (handle (OptionFocus (El 2)) eight_colours) = El 2 /\
  selectedOptions (handle (OptionFocus (El 2)) eight_colours) = [] /\
  value (handle (OptionFocus (El 2)) eight_colours) = Single Undefined /\
  value (handle (Click (click 2)) eight_colours) = Single (El 2) /\
  multiSelectable two_options = false /\
  selectedOptions (run [Click (click 0); OptionFocus (El 1)] two_options) = [0] /\
  activeItem (run [Click (click 0); OptionFocus (El 1)] two_options) = El 1.
Proof. repeat split; vm_compute; reflexivity. Qed.

(** So the selected option is not always the active descendant: the two
    options, a click on the first and a focus event on the second. *)
Lemma focus_moves_the_active_item_without_selecting :
  ~ (forall s events,
       multiSelectable s = false -> unique_ids s ->
       at_most_one_selected s /\ selected_is_active s ->
       at_most_one_selected (run events s) /\ selected_is_active (run events s)).
Proof.
  intros H.
  specialize (H two_options [Click (click 0); OptionFocus (El 1)]).
  assert (Hsel : selectedOptions (run [Click (click 0); OptionFocus (El 1)] two_options) = [0])
    by (vm_compute; reflexivity).
  assert (Hact : activeItem (run [Click (click 0); OptionFocus (El 1)] two_options) = El 1)
    by (vm_compute; reflexivity).
  assert (Hstart : at_most_one_selected two_options /\ selected_is_active two_options).
  { unfold at_most_one_selected, selected_is_active.
    rewrite two_options_nothing_selected. split; [intros a b []|intros a []]. }
  assert (Hsingle : multiSelectable two_options = false) by (vm_compute; reflexivity).
  destruct (H Hsingle two_options_unique_ids Hstart) as [_ Hactive].
  specialize (Hactive 0). rewrite Hsel, Hact in Hactive.
  assert (El 1 = El 0) as Habs by (apply Hactive; left; reflexivity).
  discriminate Habs.
Qed.

(** X30 (at most one option selected in single-select mode): with options
    that carry distinct ids and at most one option selected at the start,
    after every sequence of click, option-focus and key events the listbox
    is still in single-select mode and at most one option of the full list
    is selected.  Right after Enter or Space on an element, with no Alt,
    Meta or Ctrl, every selected option is the controller's active item.  A
    focus event changes no selected flag. *)
Theorem single_select_keeps_at_most_one_selected (s : State) (events : list Event) :
  multiSelectable s = false ->
  unique_ids s ->
  at_most_one_selected s ->
  multiSelectable (run events s) = false /\
  at_most_one_selected (run events s) /\
  (forall k,
     key k = "Enter" \/ key k = " " ->
     altKey k = false -> metaKey k = false -> ctrlKey k = false ->
     truthy (target k) = true ->
     selected_is_active (handle (Keydown k) (run events s))) /\
  (forall t q,
     Dom.selected (dom (handle (OptionFocus t) (run events s)) q)
     = Dom.selected (dom (run events s) q)).
Proof.
  intros Hm Hid Hone.
  assert (Hsingle : single_select (run events s)).
  { apply run_single. unfold single_select. auto. }
  split; [exact (proj1 Hsingle)|]. split; [exact (proj2 (proj2 Hsingle))|]. split.
  - intros k Hkey Halt Hmeta Hctrl Htarget.
    apply enter_selects_the_active_item; assumption.
  - intros t q. cbn [handle].
    destruct (onOptionFocus_frame t (run events s)) as (_ & _ & _ & _ & Hsel & _).
    apply Hsel.
Qed.

(** The theorem at the two options, after a click on the first and a focus
    event on the second. *)
Lemma single_select_keeps_at_most_one_selected_witness :
  multiSelectable two_options = false /\
  at_most_one_selected (run [Click (click 0); OptionFocus (El 1)] two_options).
Proof.
  split; [vm_compute; reflexivity|].
  apply (@single_select_keeps_at_most_one_selected
           two_options [Click (click 0); OptionFocus (El 1)]).
  - vm_compute. reflexivity.
  - exact two_options_unique_ids.
  - unfold at_most_one_selected. rewrite two_options_nothing_selected. intros a b [].
Defined.

(** ** The range operation and the shift anchor *)

Lemma bind_returns (A B : Type) (m : M A) (f : A -> M B) (s s' : State) (a : A) :
  m s = (Returns a, s') -> bind m f s = f a s'.
Proof. intros H. unfold bind. rewrite H. reflexivity. Qed.

(** In multiselect mode, with an element as the reference, the range
    operation returns; it writes [selected] flags and then the anchor. *)
Lemma updateMultiselect_run (s : State) (cur : elref) (r : nat) (ctrl : bool) :
  multiSelectable s = true ->
  fst (updateMultiselect cur (El r) ctrl s) = Returns tt /\
  exists s1,
    same_but_selected s s1 /\
    snd (updateMultiselect cur (El r) ctrl s) = with_this (put_shiftStartingItem cur) s1.
Proof.
  intros Hm. unfold updateMultiselect. rewrite bind_get, Hm. cbn [when]. cbv zeta.
  match goal with
  | |- context [bind ?m ?f s] =>
      assert (Htoggle : exists b, m s = (Returns b, s))
  end.
  { destruct (ctrl && _); [eexists; reflexivity|].
    destruct ctrl; eexists; reflexivity. }
  destruct Htoggle as [b Htoggle].
  erewrite bind_returns; [|exact Htoggle].
  match goal with
  | |- context [forEach ?range _] =>
      destruct (forEach_assign_const (fun _ => b) range s) as (Hret & Hsame & _)
  end.
  rewrite bind_fst_snd, Hret. cbn [modify fst snd].
  split; [reflexivity|]. eexists. split; [exact Hsame|reflexivity].
Qed.

Lemma same_but_selected_same_mode (s s1 : State) (x : elref) :
  same_but_selected s s1 ->
  multiSelectable (with_this (put_shiftStartingItem x) s1) = multiSelectable s.
Proof. intros (_ & Hi & _). unfold multiSelectable. cbn [with_this internals]. rewrite Hi. reflexivity. Qed.

(** A range gesture runs the range operation from the stored anchor to the
    gesture's target; the rest of the handler leaves the selection and the
    anchor as the operation left them. *)
Lemma range_gesture_runs_the_range_operation (s : State) (e : Event) (a t : nat) :
  multiSelectable s = true ->
  shiftStartingItem (this s) = El a ->
  range_gesture_target e = Some t ->
  same_selection (snd (updateMultiselect (El t) (El a) false s)) (handle e s).
Proof.
  intros Hm Hanchor Hgesture.
  destruct e as [k|k|x|c]; cbn [range_gesture_target] in Hgesture; try discriminate.
  - (* a key released while Shift is held *)
    destruct (target k) as [| |t'] eqn:Htarget; try discriminate.
    destruct (shiftKey k) eqn:Hshift; cbn [andb] in Hgesture; [|discriminate].
    destruct (String.eqb (key k) "Shift") eqn:Hkey; cbn [negb] in Hgesture; [discriminate|].
    injection Hgesture as Heq. subst t'.
    cbn [handle]. unfold onOptionKeyup. rewrite bind_get. cbv zeta.
    rewrite Hshift, Hm, Hanchor, Htarget, Hkey. cbn [andb truthy when].
    apply (same_selection_trans
             (b := snd ((updateMultiselect (El t) (El a) false ;; fireChange) s))).
    + apply (bind_rest same_selection_refl). intros u. apply fireChange_frame.
    + apply (bind_rest same_selection_refl). intros u. apply preserves_ret.
      exact same_selection_refl.
  - (* a click with Shift held *)
    destruct (mouse_target c) as [| |t'] eqn:Htarget; try discriminate.
    destruct (mouse_shiftKey c) eqn:Hshift; [|discriminate].
    injection Hgesture as Heq. subst t'.
    cbn [handle]. unfold onOptionClick. rewrite bind_get. cbv zeta.
    rewrite Hshift, Hm, Hanchor, Htarget. cbn [negb andb truthy when].
    apply (same_selection_trans
             (b := snd ((updateMultiselect (El t) (El a) false ;; fireChange) s))).
    + apply (bind_rest same_selection_refl). intros u. apply fireChange_frame.
    + apply (bind_rest same_selection_refl). intros u. apply click_end_frame.
Qed.

Section AnchorKept.

Variable P : elref -> Prop.
Hypothesis P_element : forall r, P (El r).

Lemma anchor_keeps_refl (s : State) : anchor_keeps P s s.
Proof. intros H. exact H. Qed.

Lemma anchor_keeps_trans (a b c : State) :
  anchor_keeps P a b -> anchor_keeps P b c -> anchor_keeps P a c.
Proof. unfold anchor_keeps. auto. Qed.

Lemma anchor_kept_by_frame (A : Type) (m : M A) :
  preserves same_selection m -> preserves (anchor_keeps P) m.
Proof.
  intros Hm s HP. destruct (Hm s) as (_ & Ha & _). rewrite Ha. exact HP.
Qed.

Lemma anchor_kept_by_selection (A : Type) (m : M A) :
  preserves same_but_selected m -> preserves (anchor_keeps P) m.
Proof.
  intros Hm s HP. destruct (Hm s) as (Ht & _). rewrite Ht. exact HP.
Qed.

Lemma anchor_kept_by_put (x : elref) :
  P x -> preserves (anchor_keeps P) (modify (with_this (put_shiftStartingItem x))).
Proof. intros Hx s _. exact Hx. Qed.

Lemma anchor_kept_by_read (x : elref) : preserves (anchor_keeps P) (read_selected x).
Proof.
  unfold read_selected. destruct x; frame_with anchor_keeps_refl anchor_keeps_trans.
Qed.

Lemma anchor_kept_by_toggle (x : elref) : preserves (anchor_keeps P) (toggle_selected x).
Proof.
  unfold toggle_selected. destruct x; frame_with anchor_keeps_refl anchor_keeps_trans.
  intros. apply anchor_kept_by_selection. apply set_selected_same_but_selected.
Qed.

Lemma anchor_kept_by_range (cur ref : elref) (ctrl : bool) :
  P cur -> preserves (anchor_keeps P) (updateMultiselect cur ref ctrl).
Proof.
  intros Hcur. unfold updateMultiselect.
  frame_with anchor_keeps_refl anchor_keeps_trans; intros;
    first [ apply anchor_kept_by_read
          | apply anchor_kept_by_selection; apply set_selected_same_but_selected
          | apply anchor_kept_by_put; exact Hcur ].
Qed.

Lemma anchor_kept_by_single : preserves (anchor_keeps P) updateSingleselect.
Proof.
  unfold updateSingleselect, select_if_active.
  frame_with anchor_keeps_refl anchor_keeps_trans; intros;
    first [ apply anchor_kept_by_selection; apply set_selected_same_but_selected
          | apply anchor_kept_by_frame; apply fireChange_frame ].
Qed.

Lemma anchor_kept_by_click (c : MouseEvent) : preserves (anchor_keeps P) (onOptionClick c).
Proof.
  unfold onOptionClick. apply (preserves_bind anchor_keeps_trans).
  { apply preserves_get. exact anchor_keeps_refl. }
  intros s0. cbv zeta. apply (preserves_bind anchor_keeps_trans).
  2:{ intros _. apply anchor_kept_by_frame. apply click_end_frame. }
  destruct (multiSelectable s0).
  - destruct (negb (mouse_shiftKey c)); [apply anchor_kept_by_toggle|].
    destruct (mouse_target c) as [| |t].
    + rewrite andb_false_r. apply preserves_ret. exact anchor_keeps_refl.
    + rewrite andb_false_r. apply preserves_ret. exact anchor_keeps_refl.
    + apply (preserves_when anchor_keeps_refl).
      apply (preserves_bind anchor_keeps_trans).
      * apply anchor_kept_by_range. apply P_element.
      * intros _. apply anchor_kept_by_frame. apply fireChange_frame.
  - apply (preserves_forEach anchor_keeps_refl anchor_keeps_trans). intros o.
    apply anchor_kept_by_selection. apply set_selected_same_but_selected.
Qed.

Lemma anchor_kept_by_keyup (k : KeyboardEvent) :
  String.eqb (key k) "Shift" = false -> preserves (anchor_keeps P) (onOptionKeyup k).
Proof.
  intros Hkey. unfold onOptionKeyup. apply (preserves_bind anchor_keeps_trans).
  { apply preserves_get. exact anchor_keeps_refl. }
  intros s0. cbv zeta. rewrite Hkey. apply (preserves_when anchor_keeps_refl).
  apply (preserves_bind anchor_keeps_trans).
  2:{ intros _. apply preserves_ret. exact anchor_keeps_refl. }
  destruct (target k) as [| |t].
  - rewrite andb_false_r. apply preserves_ret. exact anchor_keeps_refl.
  - rewrite andb_false_r. apply preserves_ret. exact anchor_keeps_refl.
  - apply (preserves_when anchor_keeps_refl).
    apply (preserves_bind anchor_keeps_trans).
    + apply anchor_kept_by_range. apply P_element.
    + intros _. apply anchor_kept_by_frame. apply fireChange_frame.
Qed.

Lemma anchor_kept_by_keydown_branches (k : KeyboardEvent) :
  preserves (anchor_keeps P) (keydown_branches k).
Proof.
  unfold keydown_branches. apply (preserves_bind anchor_keeps_trans).
  { apply preserves_get. exact anchor_keeps_refl. }
  intros s0. cbv zeta.
  destruct (altKey k || metaKey k); [apply preserves_ret; exact anchor_keeps_refl|].
  destruct (ctrlKey k).
  { destruct (RovingTabindex.firstItem (tabindex s0)) as [| |x];
      cbn [truthy]; rewrite ?andb_false_r;
      try (apply preserves_ret; exact anchor_keeps_refl).
    destruct (is_a_key (key k) && true); [|apply preserves_ret; exact anchor_keeps_refl].
    apply (preserves_bind anchor_keeps_trans).
    - apply anchor_kept_by_range. apply P_element.
    - intros _. apply anchor_kept_by_frame. apply keydown_end_frame. }
  destruct (is_word_key (key k)).
  { apply anchor_kept_by_frame. apply (preserves_bind same_selection_trans).
    - apply nextMatchingItem_frame.
    - intros f. apply keydown_end_frame. }
  destruct (String.eqb (key k) "Enter" || String.eqb (key k) " ");
    [|apply anchor_kept_by_frame; apply keydown_end_frame].
  destruct (target k) as [| |t]; cbn [truthy];
    try (apply anchor_kept_by_frame; apply keydown_end_frame).
  apply (preserves_bind anchor_keeps_trans).
  2:{ intros _. apply anchor_kept_by_frame. apply keydown_end_frame. }
  destruct (multiSelectable s0); [|apply anchor_kept_by_single].
  destruct (shiftKey k); [|apply anchor_kept_by_toggle].
  apply anchor_kept_by_range. apply P_element.
Qed.

(** No handler loses the property, except the one for the release of the
    Shift key; the press of Shift stores the active item. *)
Lemma anchor_kept (e : Event) (s : State) :
  P (activeItem s) ->
  (forall k, e = Keyup k -> String.eqb (key k) "Shift" = false) ->
  anchor_keeps P s (handle e s).
Proof.
  intros Hactive Hkeyup. destruct e as [k|k|x|c]; cbn [handle].
  - assert (Hrun : onOptionKeydown k s
                   = (when (String.eqb (key k) "Shift" && multiSelectable s)
                           (modify (with_this (put_shiftStartingItem (activeItem s)))) ;;
                      keydown_branches k)
                       (with_this (put_showAllOptions false) s)) by reflexivity.
    rewrite Hrun. intros HP.
    refine (preserves_bind anchor_keeps_trans _ _ _ (with_this (put_showAllOptions false) s) HP).
    + apply (preserves_when anchor_keeps_refl). apply anchor_kept_by_put. exact Hactive.
    + intros u. apply anchor_kept_by_keydown_branches.
  - apply anchor_kept_by_keyup. apply Hkeyup. reflexivity.
  - apply anchor_kept_by_frame. apply onOptionFocus_frame.
  - apply anchor_kept_by_click.
Qed.

End AnchorKept.

Lemma activeItem_not_null (s : State) : activeItem s <> Null.
Proof.
  unfold activeItem, or_else, RovingTabindex.firstItem.
  destruct (List.filter _ (options (this s))); cbn [truthy];
    [destruct (RovingTabindex.items (tabindex s))|]; discriminate.
Qed.

Lemma activeItem_truthy (s : State) :
  RovingTabindex.items (tabindex s) <> [] -> truthy (activeItem s) = true.
Proof.
  intros Hitems. unfold activeItem, or_else, RovingTabindex.firstItem.
  destruct (List.filter _ (options (this s))); cbn [truthy]; [|reflexivity].
  destruct (RovingTabindex.items (tabindex s)); [congruence|reflexivity].
Qed.

Lemma shift_keyup_or_not (e : Event) :
  (exists k, e = Keyup k /\ key k = "Shift") \/
  (forall k, e = Keyup k -> String.eqb (key k) "Shift" = false).
Proof.
  destruct e as [k|k|x|c]; try (right; intros k' Heq; discriminate Heq).
  destruct (String.eqb (key k) "Shift") eqn:Hkey.
  - left. exists k. split; [reflexivity|]. apply String.eqb_eq. exact Hkey.
  - right. intros k' Heq. injection Heq as <-. exact Hkey.
Qed.

(** The gestures that read the anchor.  In multiselect mode the range
    operation, whenever it runs with an element as its reference, returns
    and leaves its target as the shift anchor.  So of two Shift-clicks or key
    releases made in a row while Shift is held, starting from an anchor [a],
    the first leaves its target [t1] as the anchor and the second selects
    exactly as the range operation from [t1] to its own target [t2] does,
    [a] playing no part, and leaves [t2] as the anchor.  No handler sets the
    anchor to
    [null] but the one for the release of the Shift key; and while the focus
    tracker holds an item, no other handler leaves the anchor without an
    element. *)
Theorem shift_anchor_follows_the_last_target
        (s : State) (a t1 t2 : nat) (e1 e2 : Event) :
  multiSelectable s = true ->
  shiftStartingItem (this s) = El a ->
  range_gesture_target e1 = Some t1 ->
  range_gesture_target e2 = Some t2 ->
  (forall cur r ctrl,
     fst (updateMultiselect cur (El r) ctrl s) = Returns tt /\
     shiftStartingItem (this (after (updateMultiselect cur (El r) ctrl) s)) = cur) /\
  shiftStartingItem (this (handle e1 s)) = El t1 /\
  (forall q,
     Dom.selected (dom (handle e2 (handle e1 s)) q)
     = Dom.selected (dom (after (updateMultiselect (El t2) (El t1) false) (handle e1 s)) q)) /\
  shiftStartingItem (this (handle e2 (handle e1 s))) = El t2 /\
  (forall e, shiftStartingItem (this (handle e s)) = Null ->
             exists k, e = Keyup k /\ key k = "Shift") /\
  (forall e, RovingTabindex.items (tabindex s) <> [] ->
             truthy (shiftStartingItem (this (handle e s))) = false ->
             exists k, e = Keyup k /\ key k = "Shift").
Proof.
  intros Hm Hanchor Hg1 Hg2.
  assert (Hop : forall s0 cur r ctrl,
             multiSelectable s0 = true ->
             fst (updateMultiselect cur (El r) ctrl s0) = Returns tt /\
             shiftStartingItem (this (after (updateMultiselect cur (El r) ctrl) s0)) = cur /\
             multiSelectable (after (updateMultiselect cur (El r) ctrl) s0) = true).
  { intros s0 cur r ctrl Hm0.
    destruct (updateMultiselect_run s0 cur r ctrl Hm0) as (Hret & s1 & Hsame & Hsnd).
    unfold after. rewrite Hsnd. split; [exact Hret|]. split; [reflexivity|].
    rewrite (same_but_selected_same_mode cur Hsame). exact Hm0. }
  (* the first gesture *)
  pose proof (range_gesture_runs_the_range_operation s e1 Hm Hanchor Hg1) as Hfirst.
  destruct (Hop s (El t1) a false Hm) as (_ & Hanchor1 & Hm1).
  unfold after in Hanchor1, Hm1.
  assert (Ha1 : shiftStartingItem (this (handle e1 s)) = El t1).
  { destruct Hfirst as (_ & Ha & _). rewrite Ha. exact Hanchor1. }
  assert (Hmode1 : multiSelectable (handle e1 s) = true).
  { rewrite (same_selection_multiSelectable Hfirst). exact Hm1. }
  (* the second gesture *)
  pose proof (range_gesture_runs_the_range_operation (handle e1 s) e2 Hmode1 Ha1 Hg2)
    as Hsecond.
  destruct (Hop (handle e1 s) (El t2) t1 false Hmode1) as (_ & Hanchor2 & _).
  unfold after in Hanchor2.
  split; [|split; [|split; [|split; [|split]]]].
  - intros cur r ctrl. destruct (Hop s cur r ctrl Hm) as (Hret & Hcur & _). split; assumption.
  - exact Ha1.
  - intros q. destruct Hsecond as (_ & _ & _ & _ & Hsel & _). apply Hsel.
  - destruct Hsecond as (_ & Ha & _). rewrite Ha. exact Hanchor2.
  - intros e Hnull. destruct (shift_keyup_or_not e) as [Hshift|Hother]; [exact Hshift|].
    exfalso.
    assert (Hkept : shiftStartingItem (this (handle e s)) <> Null).
    { apply (@anchor_kept (fun x => x <> Null)) with (e := e) (s := s).
      - discriminate.
      - apply activeItem_not_null.
      - exact Hother.
      - rewrite Hanchor. discriminate. }
    congruence.
  - intros e Hitems Hfalsy. destruct (shift_keyup_or_not e) as [Hshift|Hother]; [exact Hshift|].
    exfalso.
    assert (Hkept : truthy (shiftStartingItem (this (handle e s))) = true).
    { apply (@anchor_kept (fun x => truthy x = true)) with (e := e) (s := s).
      - reflexivity.
      - apply activeItem_truthy. exact Hitems.
      - exact Hother.
      - rewrite Hanchor. reflexivity. }
    congruence.
Qed.

(** At the eight colours with Shift held on Blue: a Shift-click on Orange,
    then one on Pink. *)
Lemma shift_anchor_follows_the_last_target_witness :
  shiftStartingItem (this eight_shift_held) = El 0 /\
  shiftStartingItem (this (handle (Click (shift_click 3)) eight_shift_held)) = El 3 /\
  shiftStartingItem
    (this (handle (Click (shift_click 5)) (handle (Click (shift_click 3)) eight_shift_held)))
  = El 5.
Proof.
  assert (H1 : multiSelectable eight_shift_held = true) by (vm_compute; reflexivity).
  assert (H2 : shiftStartingItem (this eight_shift_held) = El 0) by (vm_compute; reflexivity).
  assert (H3 : range_gesture_target (Click (shift_click 3)) = Some 3) by reflexivity.
  assert (H4 : range_gesture_target (Click (shift_click 5)) = Some 5) by reflexivity.
  pose proof (shift_anchor_follows_the_last_target
                eight_shift_held (Click (shift_click 3)) (Click (shift_click 5))
                H1 H2 H3 H4) as (_ & Hfirst & _ & Hsecond & _).
  split; [exact H2|]. split; [exact Hfirst|exact Hsecond].
Defined.

(** The release of the Shift key clears the anchor in multiselect mode when
    the event reports Shift as held; when it does not, the handler does
    nothing. *)
Lemma shift_keyup_clears_the_anchor (s : State) (k : KeyboardEvent) :
  key k = "Shift" ->
  (multiSelectable s = true -> shiftKey k = true ->
   fst (onOptionKeyup k s) = Returns tt /\
   shiftStartingItem (this (handle (Keyup k) s)) = Null) /\
  (shiftKey k = false -> handle (Keyup k) s = s).
Proof.
  intros Hkey. split.
  - intros Hm Hshift. cbn [handle]. unfold onOptionKeyup.
    rewrite bind_get, Hshift, Hm, Hkey. cbn [andb when String.eqb Ascii.eqb Bool.eqb].
    assert (Hrange : exists s1,
               when (truthy (shiftStartingItem (this s)) && truthy (target k))
                    (updateMultiselect (target k) (shiftStartingItem (this s)) false ;;
                     fireChange) s = (Returns tt, s1)).
    { destruct (shiftStartingItem (this s)) as [| |a] eqn:Ha; cbn [truthy andb when];
        try (eexists; reflexivity).
      destruct (truthy (target k)); cbn [when]; [|eexists; reflexivity].
      destruct (updateMultiselect_run s (target k) a false Hm) as (Hret & s1 & _ & Hsnd).
      eexists. rewrite bind_fst_snd, Hret. reflexivity. }
    destruct Hrange as [s1 Hrange].
    rewrite bind_fst_snd, Hrange. cbn [fst snd modify]. split; reflexivity.
  - intros Hshift. cbn [handle]. unfold onOptionKeyup.
    rewrite bind_get, Hshift. reflexivity.
Qed.

(** C10: a range gesture on the keyboard does not start from the anchor.  On
    the eight colours in multiselect mode, after a click on Blue, Shift
    pressed and a Shift-click on Orange, the anchor is Orange, the target of
    that gesture, and Blue to Orange are selected; the focus then moves to
    Pink.  With Shift still held, Shift+Enter on Red (or on Pink) selects
    nothing more, where the range operation from the anchor would select up
    to Red (or Pink), as a Shift-click on Red does in the same state: the key
    handler passes no reference and the range starts at the active item,
    Pink.  The release of Shift then clears the anchor. *)
Theorem shift_enter_does_not_range_from_the_anchor :
  multiSelectable eight_range_then_focus = true /\
  shiftStartingItem (this eight_range_then_focus) = El 3 /\
  activeItem eight_range_then_focus = El 5 /\
  selectedOptions eight_range_then_focus = [0; 1; 2; 3] /\
  selectedOptions (handle (Keydown (shift_enter 6)) eight_range_then_focus) = [0; 1; 2; 3] /\
  selectedOptions (after (updateMultiselect (El 6) (El 3) false) eight_range_then_focus)
  = [0; 1; 2; 3; 4; 5; 6] /\
  selectedOptions (handle (Click (shift_click 6)) eight_range_then_focus)
  = [0; 1; 2; 3; 4; 5; 6] /\
  selectedOptions (handle (Keydown (shift_enter 5)) eight_range_then_focus) = [0; 1; 2; 3] /\
  selectedOptions (after (updateMultiselect (El 5) (El 3) false) eight_range_then_focus)
  = [0; 1; 2; 3; 4; 5] /\
  shiftStartingItem (this (handle (Keydown (shift_enter 6)) eight_range_then_focus)) = El 6 /\
  shiftStartingItem
    (this (handle (Keyup (shift_down 6))
                  (handle (Keydown (shift_enter 6)) eight_range_then_focus))) = Null.
Proof. repeat split; vm_compute; reflexivity. Qed.

(** ** What the range operation writes *)

Lemma none_unselected (s : State) (l : list nat) :
  (List.length (List.filter (fun o => negb (Dom.selected (dom s o))) l) =? 0)%nat
  = forallb (fun o => Dom.selected (dom s o)) l.
Proof.
  induction l as [|o l IH]; [reflexivity|].
  cbn [List.filter forallb]. destruct (Dom.selected (dom s o)); cbn [negb andb].
  - exact IH.
  - reflexivity.
Qed.

(** In multiselect mode, with an element as the reference, the range
    operation gives every option of the written range the range state and
    leaves the other options as they were. *)
Lemma updateMultiselect_effect (s : State) (cur : elref) (r : nat) (ctrl : bool) :
  multiSelectable s = true ->
  exists s1,
    same_but_selected s s1 /\
    selected_by (fun _ => range_state s (written_range s cur (El r)) r ctrl)
                (written_range s cur (El r)) s s1 /\
    snd (updateMultiselect cur (El r) ctrl s) = with_this (put_shiftStartingItem cur) s1.
Proof.
  intros Hm. unfold updateMultiselect. rewrite bind_get, Hm. cbn [when]. cbv zeta.
  fold (written_range s cur (El r)).
  set (range := written_range s cur (El r)).
  match goal with
  | |- context [bind ?m ?f s] =>
      assert (Htoggle : m s = (Returns (range_state s range r ctrl), s))
  end.
  { unfold range_state. rewrite none_unselected.
    destruct ctrl; cbn [andb]; [|reflexivity].
    destruct (forallb _ range); reflexivity. }
  erewrite bind_returns; [|exact Htoggle].
  destruct (forEach_assign_const (fun _ => range_state s range r ctrl) range s)
    as (Hret & Hsame & Hsel).
  rewrite bind_fst_snd, Hret. cbn [modify snd].
  eexists. split; [exact Hsame|]. split; [exact Hsel|reflexivity].
Qed.

Lemma indexOf_from_bounds (l : list nat) (r : nat) (i : Z) :
  In r l -> (i <= indexOf_from l (El r) i < i + Z.of_nat (List.length l))%Z.
Proof.
  revert i. induction l as [|y l IH]; intros i Hin; [destruct Hin|].
  cbn [indexOf_from elref_eqb List.length]. destruct (Nat.eqb y r) eqn:Hy.
  - lia.
  - destruct Hin as [Heq|Hin]; [apply Nat.eqb_neq in Hy; congruence|].
    specialize (IH (i + 1)%Z Hin). lia.
Qed.

Lemma indexOf_bounds (l : list nat) (r : nat) :
  In r l -> (0 <= indexOf l (El r) < Z.of_nat (List.length l))%Z.
Proof. intros Hin. pose proof (indexOf_from_bounds l r 0 Hin). unfold indexOf. lia. Qed.

(** Two one-digit indices are ordered by [sort()] as numbers are. *)
Lemma sort_one_digit (i j : Z) :
  (0 <= i < 10)%Z -> (0 <= j < 10)%Z -> sort [i; j] = [Z.min i j; Z.max i j].
Proof.
  intros Hi Hj.
  assert (Hcases : forall k, (0 <= k < 10)%Z ->
                             In k [0; 1; 2; 3; 4; 5; 6; 7; 8; 9]%Z).
  { intros k Hk. cbn [In]. lia. }
  pose proof (Hcases i Hi) as Hi'. pose proof (Hcases j Hj) as Hj'.
  cbn [In] in Hi', Hj'.
  repeat (destruct Hi' as [<-|Hi']; [
    repeat (destruct Hj' as [<-|Hj']; [reflexivity|]); destruct Hj' |]).
  destruct Hi'.
Qed.

(** ** Further properties of the controller *)

Lemma filter_none (A : Type) (p : A -> bool) (l : list A) :
  (forall x, In x l -> p x = false) -> List.filter p l = [].
Proof.
  induction l as [|x l IH]; intros Hp; [reflexivity|].
  cbn [List.filter]. rewrite (Hp x (or_introl eq_refl)).
  apply IH. intros y Hy. apply Hp. right. exact Hy.
Qed.

(** X1 (wildcard override): when the filter text is the wildcard "*", or
    filtering is disabled, the visible options are the full option list,
    whatever the case-sensitivity and match-anywhere settings. *)
Theorem wildcard_shows_every_option (s : State) :
  filter (this s) = "*" \/ disableFilter (this s) = true ->
  fst (visibleOptions s) = Returns (options (this s)).
Proof.
  intros Hoff. apply visibleOptions_unfiltered.
  destruct Hoff as [Hstar|Hdisabled].
  - rewrite Hstar. cbn [String.eqb Ascii.eqb Bool.eqb]. rewrite orb_true_r. reflexivity.
  - rewrite Hdisabled. reflexivity.
Qed.

Lemma wildcard_shows_every_option_witness :
  filter (this eight_wildcard) = "*" /\
  caseSensitive (this eight_wildcard) = true /\
  matchAnywhere (this eight_wildcard) = true /\
  fst (visibleOptions eight_wildcard) = Returns (options (this eight_wildcard)).
Proof.
  split; [vm_compute; reflexivity|]. split; [vm_compute; reflexivity|].
  split; [vm_compute; reflexivity|].
  apply (wildcard_shows_every_option eight_wildcard).
  left. vm_compute. reflexivity.
Defined.

(** X2 (visible-set non-emptiness, where the derivation returns): for a
    non-empty option list, the derivation never returns an empty list.  It
    returns a non-empty list, the full option list, whenever the filter is
    out of force: filtering disabled, the wildcard as the filter text, or
    the show-all override set; no pattern is built then.  It returns a
    non-empty list whenever the pattern built from the filter text
    compiles; when that pattern matches no option, the list is the full
    option list. *)
Theorem visible_options_are_never_empty (s : State) :
  options (this s) <> [] ->
  (forall visible, fst (visibleOptions s) = Returns visible -> visible <> []) /\
  (disableFilter (this s) = true \/ filter (this s) = "*" \/ showAllOptions (this s) = true ->
   exists visible,
     fst (visibleOptions s) = Returns visible /\ visible <> [] /\
     visible = options (this s)) /\
  (forall re,
     RegExp.RegExp_new ((if matchAnywhere (this s) then "" else "^") ++ filter (this s))
                       (if caseSensitive (this s) then "" else "i") = RegExp.Compiled re ->
     exists visible,
       fst (visibleOptions s) = Returns visible /\ visible <> [] /\
       ((forall o, In o (options (this s)) ->
                   RegExp.test re (Dom.textContent (dom s o)) = false) ->
        filter (this s) <> "" ->
        visible = options (this s))).
Proof.
  intros Hne. split; [|split].
  - intros visible Hv. exact (visibleOptions_nonempty s Hv Hne).
  - intros Hoff. exists (options (this s)).
    split; [|split; [exact Hne|reflexivity]].
    apply visibleOptions_unfiltered.
    destruct Hoff as [Hd|[Hstar|Hall]].
    + rewrite Hd. reflexivity.
    + rewrite Hstar. cbn [String.eqb Ascii.eqb Bool.eqb]. rewrite orb_true_r. reflexivity.
    + rewrite Hall. apply orb_true_r.
  - intros re Hre.
    destruct (disableFilter (this s) || String.eqb (filter (this s)) "*"
              || showAllOptions (this s)) eqn:Hoff.
    + exists (options (this s)). split; [apply visibleOptions_unfiltered; exact Hoff|].
      split; [exact Hne|reflexivity].
    + apply orb_false_elim in Hoff. destruct Hoff as [Hoff Hall].
      apply orb_false_elim in Hoff. destruct Hoff as [Hd Hstar].
      pose proof (visibleOptions_filtered s Hd Hstar Hall Hre) as Hv.
      eexists. split; [exact Hv|]. split.
      * destruct (List.filter _ (options (this s))); [exact Hne|discriminate].
      * intros Hnone Hfilter.
        assert (Hempty : String.eqb (filter (this s)) "" = false)
          by (apply String.eqb_neq; exact Hfilter).
        rewrite Hempty. cbn [orb].
        rewrite filter_none; [reflexivity|].
        intros o Ho. exact (Hnone o Ho).
Qed.

(** The theorem at scenario C, where nothing matches, and at the wildcard,
    whose pattern does not compile. *)
Lemma visible_options_are_never_empty_witness :
  options (this eight_case_sensitive_r) <> [] /\
  (forall visible,
     fst (visibleOptions eight_case_sensitive_r) = Returns visible -> visible <> []) /\
  filter (this eight_wildcard) = "*" /\
  RegExp.RegExp_new "*" "" = RegExp.SyntaxError /\
  fst (visibleOptions eight_wildcard) = Returns (seq 0 8).
Proof.
  assert (Hne : options (this eight_case_sensitive_r) <> [])
    by (vm_compute; intros Heq; discriminate Heq).
  assert (Hne' : options (this eight_wildcard) <> [])
    by (vm_compute; intros Heq; discriminate Heq).
  assert (Hstar : filter (this eight_wildcard) = "*") by (vm_compute; reflexivity).
  split; [exact Hne|]. split.
  - exact (proj1 (visible_options_are_never_empty eight_case_sensitive_r Hne)).
  - split; [exact Hstar|]. split; [vm_compute; reflexivity|].
    destruct (proj1 (proj2 (visible_options_are_never_empty eight_wildcard Hne'))
                (or_intror (or_introl Hstar))) as (visible & Hv & _ & Hall).
    rewrite Hv, Hall. vm_compute. reflexivity.
Defined.

Lemma index_range_swap (s : State) (r t : nat) : index_range s r t = index_range s t r.
Proof. unfold index_range. rewrite Z.min_comm, Z.max_comm. reflexivity. Qed.

Lemma written_range_short (s : State) (r t : nat) :
  (List.length (options (this s)) <= 10)%nat ->
  In r (options (this s)) -> In t (options (this s)) ->
  written_range s (El t) (El r) = index_range s r t.
Proof.
  intros Hlen Hr Ht. unfold written_range, index_range.
  pose proof (indexOf_bounds _ _ Hr) as Hi. pose proof (indexOf_bounds _ _ Ht) as Hj.
  rewrite sort_one_digit by lia. reflexivity.
Qed.

(** X3 (range operation, lists of at most ten options): in multiselect mode,
    for a reference option r and a target option t of the full list, the
    range operation returns and writes exactly the options of the contiguous
    inclusive index range between r and t, the same range whichever of the
    two is the reference; with Ctrl it deselects them if all were selected
    and selects them otherwise, without Ctrl it gives them r's selected
    state; every other option keeps its state, and t becomes the anchor. *)
Theorem range_operation_on_short_lists (s : State) (r t : nat) (ctrl : bool) :
  multiSelectable s = true ->
  (List.length (options (this s)) <= 10)%nat ->
  In r (options (this s)) -> In t (options (this s)) ->
  fst (updateMultiselect (El t) (El r) ctrl s) = Returns tt /\
  (forall q,
     Dom.selected (dom (after (updateMultiselect (El t) (El r) ctrl) s) q)
     = if includes (index_range s r t) q
       then range_state s (index_range s r t) r ctrl
       else Dom.selected (dom s q)) /\
  index_range s r t = index_range s t r /\
  shiftStartingItem (this (after (updateMultiselect (El t) (El r) ctrl) s)) = El t.
Proof.
  intros Hm Hlen Hr Ht.
  destruct (updateMultiselect_run s (El t) r ctrl Hm) as (Hret & _).
  destruct (updateMultiselect_effect s (El t) r ctrl Hm) as (s1 & Hsame & Hsel & Hsnd).
  rewrite (written_range_short s r t Hlen Hr Ht) in Hsel.
  unfold after. rewrite Hsnd.
  split; [exact Hret|]. split; [|split; [apply index_range_swap|reflexivity]].
  intros q. exact (Hsel q).
Qed.

Lemma range_operation_on_short_lists_witness :
  fst (updateMultiselect (El 3) (El 1) false eight_multi_green) = Returns tt /\
  shiftStartingItem (this (after (updateMultiselect (El 3) (El 1) false) eight_multi_green))
  = El 3.
Proof.
  assert (Hm : multiSelectable eight_multi_green = true) by (vm_compute; reflexivity).
  assert (Hlen : (List.length (options (this eight_multi_green)) <= 10)%nat)
    by (vm_compute; lia).
  assert (Hr : In 1 (options (this eight_multi_green))) by (vm_compute; auto).
  assert (Ht : In 3 (options (this eight_multi_green))) by (vm_compute; auto 6).
  destruct (@range_operation_on_short_lists eight_multi_green 1 3 false Hm Hlen Hr Ht)
    as (Hret & _ & _ & Hanchor).
  split; [exact Hret|exact Hanchor].
Defined.

(** X5 (filter changes on a disabled listbox): while the listbox is
    disabled, a change of the filter text stores the text and does nothing
    else: it returns, the filter text is the text assigned and no other
    private field changes, no element, no tracker item and no accessibility
    property changes, and no event is dispatched. *)
Theorem filter_change_is_ignored_while_disabled (s : State) (text : string) :
  disabled s = true ->
  fst (set_filter text s) = Returns tt /\
  filter (this (after (set_filter text) s)) = text /\
  this (after (set_filter text) s) = put_filter text (this s) /\
  dom (after (set_filter text) s) = dom s /\
  tabindex (after (set_filter text) s) = tabindex s /\
  internals (after (set_filter text) s) = internals s /\
  activeElement (after (set_filter text) s) = activeElement s /\
  dispatched (after (set_filter text) s) = dispatched s /\
  selectedOptions (after (set_filter text) s) = selectedOptions s.
Proof.
  intros Hd.
  assert (Hrun : (modify (with_this (put_filter text)) ;; onFilterChange) s
                 = (Returns tt, with_this (put_filter text) s)).
  { unfold bind at 1. cbn [modify]. unfold onFilterChange. rewrite bind_get.
    change (disabled (with_this (put_filter text) s)) with (disabled s).
    rewrite Hd. reflexivity. }
  unfold after, set_filter. rewrite bind_get.
  destruct (String.eqb (filter (this s)) text) eqn:Hsame; cbn [negb when].
  - apply String.eqb_eq in Hsame. cbn [ret fst snd].
    assert (Hput : this s = put_filter text (this s)).
    { rewrite <- Hsame. destruct (this s). reflexivity. }
    split; [reflexivity|]. split; [exact Hsame|]. split; [exact Hput|].
    repeat split; reflexivity.
  - rewrite Hrun. repeat split; reflexivity.
Qed.

(** The theorem at two options of a disabled listbox and the text "G". *)
Lemma filter_change_is_ignored_while_disabled_witness :
  disabled two_disabled = true /\
  filter (this two_disabled) = EmptyString /\
  filter (this (after (set_filter "G") two_disabled)) = "G" /\
  dispatched (after (set_filter "G") two_disabled) = dispatched two_disabled.
Proof.
  assert (Hd : disabled two_disabled = true) by (vm_compute; reflexivity).
  split; [exact Hd|]. split; [vm_compute; reflexivity|].
  destruct (filter_change_is_ignored_while_disabled two_disabled "G" Hd)
    as (_ & Hfilter & _ & _ & _ & _ & _ & Hquiet & _).
  split; [exact Hfilter|exact Hquiet].
Defined.

(** X6 (scenarios D and E): on the eight colours in multiselect mode, a click
    on Blue, a click on Green, then Shift and a click on Orange select Blue,
    Green, Magenta and Orange; with all eight selected, Ctrl+A leaves none
    selected. *)
Theorem scenarios_d_and_e :
  texts_of eight_multi (selectedOptions (run scenario_d eight_multi))
  = ["Blue"; "Green"; "Magenta"; "Orange"] /\
  texts_of eight_multi (selectedOptions (run [Keydown (ctrl_a 0)] eight_multi)) = colours /\
  selectedOptions (run [Keydown (ctrl_a 0); Keydown (ctrl_a 0)] eight_multi) = [].
Proof. split; [|split]; vm_compute; reflexivity. Qed.

(** ** Select-all *)

Lemma nzhead_not_D0 (d u : Decimal.uint) : Decimal.nzhead d <> Decimal.D0 u.
Proof. induction d; cbn [Decimal.nzhead]; try discriminate. exact IHd. Qed.

Lemma to_uint_unorm (p : positive) : Pos.to_uint p = Decimal.unorm (Pos.to_uint p).
Proof.
  pose proof (DecimalPos.Unsigned.to_of (Pos.to_uint p)) as H.
  rewrite DecimalPos.Unsigned.of_to in H. exact H.
Qed.

(** The string form of a positive index starts with a digit from 1 to 9 and
    so comes after "0". *)
Lemma zero_sorts_first (m : Z) : (0 < m)%Z -> String.ltb "0" (number_toString m) = true.
Proof.
  intros Hm. destruct m as [|p|p]; try lia.
  unfold number_toString. cbn [Z.to_int NilZero.string_of_int].
  pose proof (to_uint_unorm p) as Hn. unfold Decimal.unorm in Hn.
  pose proof (DecimalPos.Unsigned.to_uint_nonzero p) as Hz.
  pose proof (@nzhead_not_D0 (Pos.to_uint p)) as Hh.
  destruct (Decimal.nzhead (Pos.to_uint p)) as [|u|u|u|u|u|u|u|u|u|u] eqn:E;
    [congruence|exfalso; apply (Hh u); reflexivity|..];
    rewrite Hn; reflexivity.
Qed.

Lemma sort_with_zero (m : Z) : (0 <= m)%Z -> sort [m; 0%Z] = [0%Z; m].
Proof.
  intros Hm. cbn [sort fold_right sort_insert]. unfold sortCompare_le.
  destruct (Z.eq_dec m 0) as [->|Hne]; [reflexivity|].
  change (number_toString 0) with "0".
  rewrite zero_sorts_first by lia. reflexivity.
Qed.

Lemma indexOf_from_absent (l : list nat) (r : nat) (i : Z) :
  ~ In r l -> indexOf_from l (El r) i = (-1)%Z.
Proof.
  revert i. induction l as [|y l IH]; intros i Hnot; [reflexivity|].
  cbn [indexOf_from elref_eqb]. destruct (Nat.eqb y r) eqn:Hy.
  - apply Nat.eqb_eq in Hy. exfalso. apply Hnot. left. exact Hy.
  - apply IH. intros Hin. apply Hnot. right. exact Hin.
Qed.

Lemma indexOf_from_last (l : list nat) (r : nat) (i : Z) :
  ~ In r l -> indexOf_from (l ++ [r]) (El r) i = (i + Z.of_nat (List.length l))%Z.
Proof.
  revert i. induction l as [|y l IH]; intros i Hnot.
  - cbn [app indexOf_from elref_eqb List.length]. rewrite Nat.eqb_refl. lia.
  - cbn [app indexOf_from elref_eqb List.length]. destruct (Nat.eqb y r) eqn:Hy.
    + apply Nat.eqb_eq in Hy. exfalso. apply Hnot. left. exact Hy.
    + rewrite IH by (intros Hin; apply Hnot; right; exact Hin). lia.
Qed.

(** In a list without repetition the last item stands at the last index. *)
Lemma lastItem_index (t0 : RovingTabindex.t) :
  NoDup (RovingTabindex.items t0) -> RovingTabindex.items t0 <> [] ->
  exists r,
    RovingTabindex.lastItem t0 = El r /\
    indexOf (RovingTabindex.items t0) (El r)
    = (Z.of_nat (List.length (RovingTabindex.items t0)) - 1)%Z.
Proof.
  intros Hnodup Hne. unfold RovingTabindex.lastItem.
  destruct (rev (RovingTabindex.items t0)) as [|r front] eqn:Hrev.
  - exfalso. apply Hne. rewrite <- (rev_involutive (RovingTabindex.items t0)), Hrev.
    reflexivity.
  - exists r. split; [reflexivity|].
    assert (Hitems : RovingTabindex.items t0 = (rev front ++ [r])%list).
    { rewrite <- (rev_involutive (RovingTabindex.items t0)), Hrev. reflexivity. }
    rewrite Hitems in Hnodup |- *.
    assert (Hnot : ~ In r (rev front)).
    { apply NoDup_remove_2 in Hnodup. rewrite app_nil_r in Hnodup. exact Hnodup. }
    unfold indexOf. rewrite indexOf_from_last by exact Hnot.
    rewrite length_app. cbn [List.length]. lia.
Qed.

Lemma slice_whole (A : Type) (l : list A) :
  slice l 0 (Z.of_nat (List.length l) - 1 + 1) = l.
Proof.
  unfold slice, relative_index.
  replace (Z.of_nat (List.length l) - 1 + 1)%Z with (Z.of_nat (List.length l)) by lia.
  cbn [Z.ltb Z.compare].
  destruct (Z.of_nat (List.length l) <? 0)%Z eqn:Hneg; [apply Z.ltb_lt in Hneg; lia|].
  rewrite Z.min_id. rewrite Z.min_l by lia. rewrite Z.sub_0_r, Nat2Z.id.
  cbn [Z.to_nat skipn]. apply firstn_all.
Qed.

(** Without a filter hiding options, Ctrl+A writes the whole option list. *)
Lemma written_range_select_all (s : State) :
  RovingTabindex.items (tabindex s) = options (this s) ->
  options (this s) <> [] ->
  NoDup (options (this s)) ->
  exists r,
    RovingTabindex.lastItem (tabindex s) = El r /\
    truthy (RovingTabindex.firstItem (tabindex s)) = true /\
    written_range s (RovingTabindex.firstItem (tabindex s)) (El r) = options (this s).
Proof.
  intros Hitems Hne Hnodup.
  destruct (lastItem_index (tabindex s)) as (r & Hlast & Hindex).
  { rewrite Hitems. exact Hnodup. }
  { rewrite Hitems. exact Hne. }
  exists r. split; [exact Hlast|].
  unfold RovingTabindex.firstItem. rewrite Hitems in Hindex |- *.
  destruct (options (this s)) as [|x rest] eqn:Hopts; [congruence|].
  split; [reflexivity|].
  unfold written_range. rewrite Hopts, Hindex.
  assert (Hfirst : indexOf (x :: rest) (El x) = 0%Z).
  { unfold indexOf. cbn [indexOf_from elref_eqb]. rewrite Nat.eqb_refl. reflexivity. }
  rewrite Hfirst. rewrite sort_with_zero by (cbn [List.length]; lia).
  cbn [nth]. apply slice_whole.
Qed.

Lemma onOptionKeydown_other_key (k : KeyboardEvent) (s : State) :
  String.eqb (key k) "Shift" = false ->
  onOptionKeydown k s = keydown_branches k (with_this (put_showAllOptions false) s).
Proof.
  intros Hkey. unfold onOptionKeydown. unfold bind at 1. cbn [modify]. rewrite bind_get.
  rewrite Hkey. reflexivity.
Qed.

Lemma ctrl_a_effect (s : State) (k : KeyboardEvent) :
  multiSelectable s = true ->
  RovingTabindex.items (tabindex s) = options (this s) ->
  options (this s) <> [] ->
  NoDup (options (this s)) ->
  ctrlKey k = true -> altKey k = false -> metaKey k = false ->
  is_a_key (key k) = true ->
  (forall q,
     Dom.selected (dom (handle (Keydown k) s) q)
     = if includes (options (this s)) q
       then negb (forallb (fun o => Dom.selected (dom s o)) (options (this s)))
       else Dom.selected (dom s q)) /\
  options (this (handle (Keydown k) s)) = options (this s) /\
  RovingTabindex.items (tabindex (handle (Keydown k) s)) = RovingTabindex.items (tabindex s) /\
  multiSelectable (handle (Keydown k) s) = true.
Proof.
  intros Hm Hitems Hne Hnodup Hctrl Halt Hmeta Ha.
  assert (Hkey : String.eqb (key k) "Shift" = false).
  { unfold is_a_key in Ha. apply orb_true_iff in Ha.
    destruct Ha as [Ha|Ha]; apply String.eqb_eq in Ha; rewrite Ha; reflexivity. }
  cbn [handle]. rewrite (onOptionKeydown_other_key k s Hkey).
  set (s0 := with_this (put_showAllOptions false) s).
  destruct (written_range_select_all s0 Hitems Hne Hnodup) as (r & Hlast & Hfirst & Hrange).
  unfold keydown_branches. rewrite bind_get. cbv zeta.
  rewrite Halt, Hmeta, Hctrl, Ha, Hfirst, Hlast. cbn [orb andb].
  destruct (updateMultiselect_effect s0 (RovingTabindex.firstItem (tabindex s0)) r true Hm)
    as (s1 & Hsame & Hsel & Hsnd).
  rewrite Hrange in Hsel.
  set (final := snd ((updateMultiselect (RovingTabindex.firstItem (tabindex s0)) (El r) true ;;
                      keydown_end (value s0) true Undefined) s0)).
  assert (Hfinal : same_but_events
                     (with_this (put_shiftStartingItem (RovingTabindex.firstItem (tabindex s0))) s1)
                     final).
  { rewrite <- Hsnd. apply (bind_rest same_but_events_refl).
    intros u. apply keydown_end_same_but_events. }
  destruct Hfinal as (Ft & Fi & Ftab & Fd & _).
  destruct Hsame as (St & Si & Stab & _).
  split; [|split; [|split]].
  - intros q. rewrite Fd. cbn [with_this dom]. exact (Hsel q).
  - rewrite Ft. cbn [with_this this put_shiftStartingItem options]. rewrite St. reflexivity.
  - rewrite Ftab. cbn [with_this tabindex]. rewrite Stab. reflexivity.
  - unfold multiSelectable. rewrite Fi. cbn [with_this internals]. rewrite Si. exact Hm.
Qed.

(** X4 (select-all and deselect-all): in multiselect mode, when no filter
    hides an option (the focus tracker holds the full list) and the options
    are distinct, Ctrl+A selects every option of the full list unless every
    option is already selected, in which case it deselects every option; the
    other elements are untouched.  So, starting with no option selected, two
    presses of Ctrl+A in a row leave no option selected again. *)
Theorem ctrl_a_selects_or_deselects_every_option (s : State) (k : KeyboardEvent) :
  multiSelectable s = true ->
  RovingTabindex.items (tabindex s) = options (this s) ->
  options (this s) <> [] ->
  NoDup (options (this s)) ->
  ctrlKey k = true -> altKey k = false -> metaKey k = false ->
  is_a_key (key k) = true ->
  (forall q,
     Dom.selected (dom (handle (Keydown k) s) q)
     = if includes (options (this s)) q
       then negb (forallb (fun o => Dom.selected (dom s o)) (options (this s)))
       else Dom.selected (dom s q)) /\
  ((forall o, In o (options (this s)) -> Dom.selected (dom s o) = false) ->
   (forall o, In o (options (this s)) ->
              Dom.selected (dom (handle (Keydown k) s) o) = true) /\
   (forall o, In o (options (this s)) ->
              Dom.selected (dom (handle (Keydown k) (handle (Keydown k) s)) o) = false)).
Proof.
  intros Hm Hitems Hne Hnodup Hctrl Halt Hmeta Ha.
  destruct (ctrl_a_effect s k Hm Hitems Hne Hnodup Hctrl Halt Hmeta Ha)
    as (Hsel & Hopts & Htab & Hm1).
  split; [exact Hsel|].
  intros Hnone.
  assert (Hfirst : forall o, In o (options (this s)) ->
                             Dom.selected (dom (handle (Keydown k) s) o) = true).
  { intros o Ho. rewrite (Hsel o), (proj2 (includes_In _ _) Ho).
    destruct (options (this s)) as [|x rest]; [congruence|].
    cbn [forallb]. rewrite (Hnone x (or_introl eq_refl)). reflexivity. }
  split; [exact Hfirst|].
  intros o Ho.
  destruct (ctrl_a_effect (handle (Keydown k) s) k Hm1) as (Hsel2 & _);
    try assumption.
  - rewrite Htab, Hopts. exact Hitems.
  - rewrite Hopts. exact Hne.
  - rewrite Hopts. exact Hnodup.
  - rewrite (Hsel2 o), Hopts, (proj2 (includes_In _ _) Ho).
    replace (forallb _ (options (this s))) with true; [reflexivity|].
    symmetry. apply forallb_forall. exact Hfirst.
Qed.

Lemma ctrl_a_selects_or_deselects_every_option_witness :
  NoDup (options (this eight_multi)) /\
  Dom.selected (dom (handle (Keydown (ctrl_a 0)) eight_multi) 3)
  = if includes (options (this eight_multi)) 3
    then negb (forallb (fun o => Dom.selected (dom eight_multi o))
                       (options (this eight_multi)))
    else Dom.selected (dom eight_multi 3).
Proof.
  assert (Hopts : options (this eight_multi) = seq 0 8) by (vm_compute; reflexivity).
  assert (Hm : multiSelectable eight_multi = true) by (vm_compute; reflexivity).
  assert (Hitems : RovingTabindex.items (tabindex eight_multi) = options (this eight_multi))
    by (vm_compute; reflexivity).
  assert (Hne : options (this eight_multi) <> []) by (rewrite Hopts; discriminate).
  assert (Hnodup : NoDup (options (this eight_multi))) by (rewrite Hopts; apply seq_NoDup).
  split; [exact Hnodup|].
  exact (proj1 (@ctrl_a_selects_or_deselects_every_option
                  eight_multi (ctrl_a 0) Hm Hitems Hne Hnodup
                  eq_refl eq_refl eq_refl eq_refl) 3).
Defined.

(** ** The show-all override

    No operation of the controller sets the override: it is clear after
    construction and stays clear, so the filter is in force whenever
    filtering is enabled and the filter text is not the wildcard. *)

Lemma override_clear_refl (s : State) : override_clear s s.
Proof. intros H. exact H. Qed.

Lemma override_clear_trans (a b c : State) :
  override_clear a b -> override_clear b c -> override_clear a c.
Proof. unfold override_clear. auto. Qed.

Ltac override_write :=
  intros; apply preserves_modify; intros ?s ?H;
  first [ exact H | reflexivity
        | unfold RovingTabindex.updateActiveItem;
          destruct (RovingTabindex.items _); exact H ].

Ltac override :=
  frame_with override_clear_refl override_clear_trans; try override_write.

Lemma number_from_override (pos size : nat) (l : list nat) :
  preserves override_clear (number_from pos size l).
Proof.
  revert pos. induction l as [|o l IH]; intros pos; cbn [number_from].
  - apply preserves_ret. exact override_clear_refl.
  - apply (preserves_bind override_clear_trans); [override_write|intros u; apply IH].
Qed.

Lemma visibleOptions_override : preserves override_clear visibleOptions.
Proof.
  unfold visibleOptions, option_matches, new_RegExp, mark_hidden, set_hidden_by_filter.
  override.
Qed.

#[local] Hint Resolve number_from_override visibleOptions_override : frame.

Lemma updateActiveDescendant_override : preserves override_clear updateActiveDescendant.
Proof. unfold updateActiveDescendant, mark_active, set_active_descendant. override. Qed.

Lemma focusOnItem_override (item : elref) : preserves override_clear (focusOnItem item).
Proof. unfold focusOnItem. override. Qed.

Lemma updateMultiselect_override (cur ref : elref) (ctrl : bool) :
  preserves override_clear (updateMultiselect cur ref ctrl).
Proof. unfold updateMultiselect, read_selected, set_selected. override. Qed.

Lemma updateSingleselect_override : preserves override_clear updateSingleselect.
Proof. unfold updateSingleselect, select_if_active, set_selected, fireChange. override. Qed.

Lemma toggle_selected_override (x : elref) : preserves override_clear (toggle_selected x).
Proof. unfold toggle_selected, set_selected. override. Qed.

#[local] Hint Resolve updateActiveDescendant_override focusOnItem_override
  updateMultiselect_override updateSingleselect_override toggle_selected_override : frame.

Lemma onFilterChange_override : preserves override_clear onFilterChange.
Proof. unfold onFilterChange, fireInput. override. Qed.

#[local] Hint Resolve onFilterChange_override : frame.

Lemma handle_override (e : Event) (s : State) : override_clear s (handle e s).
Proof.
  destruct e as [k|k|x|c]; cbn [handle].
  - apply (preserves_bind override_clear_trans).
    + apply preserves_modify. intros s0 _. reflexivity.
    + intros u. unfold keydown_branches, keydown_end, nextMatchingItem, new_RegExp, fireChange.
      override.
  - revert s. change (preserves override_clear (onOptionKeyup k)).
    unfold onOptionKeyup, fireChange. override.
  - revert s. change (preserves override_clear (onOptionFocus x)).
    unfold onOptionFocus. override.
  - revert s. change (preserves override_clear (onOptionClick c)).
    unfold onOptionClick, click_end, set_selected, fireChange. override.
Qed.

Lemma setters_override (text : string) (b : bool) (opts : list nat) (v : ValueArg) :
  preserves override_clear (set_filter text) /\
  preserves override_clear (set_caseSensitive b) /\
  preserves override_clear (set_disableFilter b) /\
  preserves override_clear (set_matchAnywhere b) /\
  preserves override_clear (set_options opts) /\
  preserves override_clear (set_value v).
Proof.
  repeat split.
  - unfold set_filter. override.
  - unfold set_caseSensitive. override.
  - unfold set_disableFilter. override.
  - unfold set_matchAnywhere. override.
  - unfold set_options. override.
  - unfold set_value, set_selected, fireInput. override.
Qed.

(** The override is clear in every state reached from a new controller by
    events. *)
Lemma showAllOptions_stays_clear (d : Dom.store) (config : ListboxConfigOptions)
      (events : list Event) :
  showAllOptions (this (run events (constructor d config))) = false.
Proof.
  assert (Hstart : showAllOptions (this (constructor d config)) = false).
  { unfold constructor.
    destruct (setters_override "" (config_disableFilter config) [] (One VUndefined))
      as (_ & _ & Hset & _).
    apply Hset. reflexivity. }
  revert Hstart. generalize (constructor d config). intros s.
  revert s. induction events as [|e events IH]; intros s Hs; [exact Hs|].
  cbn [run fold_left]. apply IH. apply handle_override. exact Hs.
Qed.

(** * More of the controller *)

Import Api Invariants.

(** ** Readings that a step leaves alone *)

Lemma unchanged_refl (I A : Type) (p : State -> I -> A) (s : State) : unchanged p s s.
Proof. intros i. reflexivity. Qed.

Lemma unchanged_trans (I A : Type) (p : State -> I -> A) (a b c : State) :
  unchanged p a b -> unchanged p b c -> unchanged p a c.
Proof. intros H K i. rewrite K. apply H. Qed.

(** A write that the reading does not see. *)
Ltac unseen_write :=
  let s := fresh "s" in
  let i := fresh "i" in
  intros; apply preserves_modify; intros s i; cbv beta;
  first
    [ reflexivity
    | cbn [with_dom with_this with_internals with_tabindex with_activeElement dispatchEvent
           this internals tabindex dom activeElement dispatched];
      unfold Dom.update;
      match goal with |- context [Nat.eqb ?a ?b] => destruct (Nat.eqb a b) end;
      reflexivity
    | destruct s as [? ? [[|? ?] ?] ? ? ?]; reflexivity ].

Ltac unseen :=
  lazymatch goal with
  | |- preserves (unchanged ?p) _ =>
      frame_with (@unchanged_refl _ _ p) (@unchanged_trans _ _ p); try unseen_write
  end.

(** The controller's operations, opened down to their reads and writes. *)
Ltac open_controller :=
  unfold assign, set_filter, set_caseSensitive, set_disableFilter, set_matchAnywhere,
    set_disabled, set_multiSelectable, set_orientation, set_value, focus,
    onFilterChange, onOptionKeydown, keydown_branches, keydown_end, nextMatchingItem,
    onOptionKeyup, onOptionFocus, onOptionClick, click_end, toggle_selected,
    updateMultiselect, read_selected, updateSingleselect, select_if_active,
    updateActiveDescendant, mark_active, focusOnItem, visibleOptions, option_matches,
    mark_hidden, new_RegExp, set_selected, set_hidden_by_filter, set_active_descendant,
    fireChange, fireInput.

Lemma handlers_leave_the_configuration (e : Event) (s : State) :
  unchanged (fun s (_ : unit) => configuration s) s (handle e s).
Proof.
  destruct e as [k|k|x|c]; cbn [handle]; revert s.
  - change (preserves (unchanged (fun s (_ : unit) => configuration s)) (onOptionKeydown k)).
    open_controller. unseen.
  - change (preserves (unchanged (fun s (_ : unit) => configuration s)) (onOptionKeyup k)).
    open_controller. unseen.
  - change (preserves (unchanged (fun s (_ : unit) => configuration s)) (onOptionFocus x)).
    open_controller. unseen.
  - change (preserves (unchanged (fun s (_ : unit) => configuration s)) (onOptionClick c)).
    open_controller. unseen.
Qed.

Lemma handlers_leave_the_content (e : Event) (s : State) :
  unchanged (fun s q => content (dom s q)) s (handle e s).
Proof.
  destruct e as [k|k|x|c]; cbn [handle]; revert s.
  - change (preserves (unchanged (fun s q => content (dom s q))) (onOptionKeydown k)).
    open_controller. unseen.
  - change (preserves (unchanged (fun s q => content (dom s q))) (onOptionKeyup k)).
    open_controller. unseen.
  - change (preserves (unchanged (fun s q => content (dom s q))) (onOptionFocus x)).
    open_controller. unseen.
  - change (preserves (unchanged (fun s q => content (dom s q))) (onOptionClick c)).
    open_controller. unseen.
Qed.

(** X7 (what events never change): however many key, click and focus events
    the listeners handle, and whether or not they throw, the filter
    settings, the option list, the mode, the disabled flag, the orientation
    and the items of the focus tracker are as before, and so are the id, the
    text, the value, the disabled and hidden flags, the position and the set
    size of every element. *)
Theorem events_leave_the_configuration_alone (events : list Event) (s : State) :
  configuration (run events s) = configuration s /\
  forall q, content (dom (run events s) q) = content (dom s q).
Proof.
  revert s. induction events as [|e events IH]; intros s; [split; reflexivity|].
  cbn [run fold_left]. fold (run events (handle e s)).
  destruct (IH (handle e s)) as [Hc Hq]. split.
  - rewrite Hc. exact (handlers_leave_the_configuration e s tt).
  - intros q. rewrite Hq. exact (handlers_leave_the_content e s q).
Qed.

(** ** Settings *)

Lemma number_from_unseen (I A : Type) (p : State -> I -> A) (pos size : nat) (l : list nat) :
  (forall o pos s i, p (with_dom (Dom.update o (Dom.with_position pos size)) s) i = p s i) ->
  preserves (unchanged p) (number_from pos size l).
Proof.
  intros Hp. revert pos. induction l as [|o l IH]; intros pos; cbn [number_from].
  - apply preserves_ret. apply unchanged_refl.
  - apply preserves_bind; [apply unchanged_trans| |intros u; apply IH].
    apply preserves_modify. intros s i. apply Hp.
Qed.

Lemma onFilterChange_settings :
  preserves (unchanged (fun s (_ : unit) => settings s)) onFilterChange.
Proof. open_controller. unseen. Qed.

Lemma onFilterChange_options :
  preserves (unchanged (fun s (_ : unit) => options (this s))) onFilterChange.
Proof. open_controller. unseen. Qed.

Lemma onFilterChange_selected :
  preserves (unchanged (fun s q => Dom.selected (dom s q))) onFilterChange.
Proof. open_controller. unseen. Qed.

Lemma onFilterChange_content :
  preserves (unchanged (fun s q => content (dom s q))) onFilterChange.
Proof. open_controller. unseen. Qed.

Lemma bool_eqb_eq (a b : bool) : Bool.eqb a b = true -> a = b.
Proof. destruct a, b; cbn; congruence. Qed.

(** X8 (settings read back): after an assignment to any of the seven
    settings the getter of that setting answers the value assigned and the
    other six answer as before, whether the refresh that a filter setting
    starts returns or throws.  The assignment leaves the option list, every
    selected flag and the content of every element as they were. *)
Theorem settings_read_back (c : Setting) (s : State) :
  settings (after (assign c) s) = assigned c (settings s) /\
  options (this (after (assign c) s)) = options (this s) /\
  (forall q, Dom.selected (dom (after (assign c) s) q) = Dom.selected (dom s q)) /\
  (forall q, content (dom (after (assign c) s) q) = content (dom s q)).
Proof.
  unfold after.
  destruct c as [text|b|b|b|b|b|o]; cbn [assign].
  - unfold set_filter. rewrite bind_get.
    destruct (String.eqb (filter (this s)) text) eqn:E; cbn [negb when ret snd].
    + apply String.eqb_eq in E. unfold assigned, settings. cbn [filterText isCaseSensitive
        filterDisabled matchesAnywhere isDisabled isMultiSelectable theOrientation].
      rewrite E. repeat split; reflexivity.
    + unfold bind at 1. cbn [modify].
      repeat split; intros;
        first [ exact (onFilterChange_settings (with_this (put_filter text) s) tt)
              | exact (onFilterChange_options (with_this (put_filter text) s) tt)
              | apply (onFilterChange_selected (with_this (put_filter text) s))
              | apply (onFilterChange_content (with_this (put_filter text) s)) ].
  - unfold set_caseSensitive. rewrite bind_get.
    destruct (Bool.eqb (caseSensitive (this s)) b) eqn:E; cbn [negb when ret snd].
    + apply bool_eqb_eq in E. unfold assigned, settings. cbn [filterText isCaseSensitive
        filterDisabled matchesAnywhere isDisabled isMultiSelectable theOrientation].
      rewrite E. repeat split; reflexivity.
    + unfold bind at 1. cbn [modify].
      repeat split; intros;
        first [ exact (onFilterChange_settings (with_this (put_caseSensitive b) s) tt)
              | exact (onFilterChange_options (with_this (put_caseSensitive b) s) tt)
              | apply (onFilterChange_selected (with_this (put_caseSensitive b) s))
              | apply (onFilterChange_content (with_this (put_caseSensitive b) s)) ].
  - unfold set_disableFilter. rewrite bind_get.
    destruct (Bool.eqb (disableFilter (this s)) b) eqn:E; cbn [negb when ret snd].
    + apply bool_eqb_eq in E. unfold assigned, settings. cbn [filterText isCaseSensitive
        filterDisabled matchesAnywhere isDisabled isMultiSelectable theOrientation].
      rewrite E. repeat split; reflexivity.
    + unfold bind at 1. cbn [modify].
      repeat split; intros;
        first [ exact (onFilterChange_settings (with_this (put_disableFilter b) s) tt)
              | exact (onFilterChange_options (with_this (put_disableFilter b) s) tt)
              | apply (onFilterChange_selected (with_this (put_disableFilter b) s))
              | apply (onFilterChange_content (with_this (put_disableFilter b) s)) ].
  - unfold set_matchAnywhere. rewrite bind_get.
    destruct (Bool.eqb (matchAnywhere (this s)) b) eqn:E; cbn [negb when ret snd].
    + apply bool_eqb_eq in E. unfold assigned, settings. cbn [filterText isCaseSensitive
        filterDisabled matchesAnywhere isDisabled isMultiSelectable theOrientation].
      rewrite E. repeat split; reflexivity.
    + unfold bind at 1. cbn [modify].
      repeat split; intros;
        first [ exact (onFilterChange_settings (with_this (put_matchAnywhere b) s) tt)
              | exact (onFilterChange_options (with_this (put_matchAnywhere b) s) tt)
              | apply (onFilterChange_selected (with_this (put_matchAnywhere b) s))
              | apply (onFilterChange_content (with_this (put_matchAnywhere b) s)) ].
  - destruct b; repeat split; reflexivity.
  - destruct b; repeat split; reflexivity.
  - repeat split; reflexivity.
Qed.

Lemma perform_override (a : Action) (s : State) : override_clear s (perform a s).
Proof.
  destruct a as [e|c|opts|v|]; cbn [perform].
  - apply handle_override.
  - destruct c as [text|b|b|b|b|b|o]; cbn [assign].
    + apply (proj1 (setters_override text true [] (One VUndefined))).
    + apply (proj1 (proj2 (setters_override "" b [] (One VUndefined)))).
    + apply (proj1 (proj2 (proj2 (setters_override "" b [] (One VUndefined))))).
    + apply (proj1 (proj2 (proj2 (proj2 (setters_override "" b [] (One VUndefined)))))).
    + intros H. exact H.
    + intros H. exact H.
    + intros H. exact H.
  - apply (proj1 (proj2 (proj2 (proj2 (proj2 (setters_override "" true opts (One VUndefined))))))).
  - apply (proj2 (proj2 (proj2 (proj2 (proj2 (setters_override "" true [] v)))))).
  - revert s. change (preserves override_clear focus). unfold focus. override.
Qed.

(** X9 (the show-all override is never set): from construction on, through
    every sequence of events, assignments to settings, to the options and to
    the value, and calls of [focus], the private show-all flag is false.  So
    the filter is in force whenever filtering is enabled and the filter text
    is not the wildcard: the third way of showing every option that the
    visible-options derivation tests for is never taken. *)
Theorem show_all_override_is_never_set
        (d : Dom.store) (config : ListboxConfigOptions) (actions : list Action) :
  showAllOptions (this (perform_all actions (constructor d config))) = false.
Proof.
  assert (Hstart : showAllOptions (this (constructor d config)) = false).
  { unfold constructor.
    destruct (setters_override "" (config_disableFilter config) [] (One VUndefined))
      as (_ & _ & Hset & _).
    apply Hset. reflexivity. }
  revert Hstart. generalize (constructor d config). intros s.
  revert s. induction actions as [|a actions IH]; intros s Hs; [exact Hs|].
  cbn [perform_all fold_left]. apply IH. apply perform_override. exact Hs.
Qed.

(** ** Notifications *)

Lemma emits_refl (ev : HostEvent) (k : nat) (s : State) : emits ev k s s.
Proof. exists 0. split; [lia|reflexivity]. Qed.

Lemma emits_trans (ev : HostEvent) (a b : nat) (s1 s2 s3 : State) :
  emits ev a s1 s2 -> emits ev b s2 s3 -> emits ev (a + b) s1 s3.
Proof.
  intros (n & Hn & H1) (m & Hm & H2). exists (m + n). split; [lia|].
  rewrite H2, H1, repeat_app, <- app_assoc. reflexivity.
Qed.

Lemma emits_more (ev : HostEvent) (a b : nat) (A : Type) (m : M A) :
  a <= b -> preserves (emits ev a) m -> preserves (emits ev b) m.
Proof. intros Hab Hm s. destruct (Hm s) as (n & Hn & H). exists n. split; [lia|exact H]. Qed.

Lemma emits_bind (ev : HostEvent) (a b : nat) (A B : Type) (m : M A) (f : A -> M B) :
  preserves (emits ev a) m -> (forall x, preserves (emits ev b) (f x)) ->
  preserves (emits ev (a + b)) (bind m f).
Proof.
  intros Hm Hf s. rewrite bind_fst_snd. destruct (fst (m s)) as [x|e].
  - eapply emits_trans; [apply Hm|apply Hf].
  - destruct (Hm s) as (n & Hn & H). exists n. split; [lia|exact H].
Qed.

Lemma emits_get_bind (ev : HostEvent) (k : nat) (B : Type) (f : State -> M B) :
  (forall s0, preserves (emits ev k) (f s0)) -> preserves (emits ev k) (bind get f).
Proof. intros H s. apply (H s s). Qed.

Lemma emits_when (ev : HostEvent) (k : nat) (b : bool) (m : M unit) :
  preserves (emits ev k) m -> preserves (emits ev k) (when b m).
Proof. intros H. destruct b; [exact H|]. intros s. apply emits_refl. Qed.

Lemma emits_ret (ev : HostEvent) (k : nat) (A : Type) (a : A) : preserves (emits ev k) (ret a).
Proof. intros s. apply emits_refl. Qed.

Lemma emits_fire (ev : HostEvent) : preserves (emits ev 1) (modify (dispatchEvent ev)).
Proof. intros s. exists 1. split; [lia|reflexivity]. Qed.

Lemma quiet_emits (ev : HostEvent) (k : nat) (A : Type) (m : M A) :
  quiet m -> preserves (emits ev k) m.
Proof. intros H s. exists 0. split; [lia|]. exact (H s tt). Qed.

Ltac quietly := apply quiet_emits; unfold quiet; open_controller; unseen.

Lemma keydown_end_emits (old : ListboxValue) (stop : bool) (focusEvent : elref) :
  preserves (emits Change 1) (keydown_end old stop focusEvent).
Proof.
  unfold keydown_end. apply emits_get_bind. intros s0.
  apply (emits_bind (a := 1) (b := 0)).
  - apply emits_when. apply emits_fire.
  - intros u. quietly.
Qed.

Lemma click_end_emits (old : ListboxValue) (target : elref) :
  preserves (emits Change 1) (click_end old target).
Proof.
  unfold click_end. apply emits_get_bind. intros s1.
  apply (emits_bind (a := 0) (b := 1)).
  - quietly.
  - intros u. apply emits_get_bind. intros s2. apply emits_when. apply emits_fire.
Qed.

Lemma range_and_notice_emits (cur ref : elref) (ctrl : bool) :
  preserves (emits Change 1) (updateMultiselect cur ref ctrl ;; fireChange).
Proof.
  apply (emits_bind (a := 0) (b := 1)); [quietly|intros u; apply emits_fire].
Qed.

Lemma onOptionClick_emits (c : MouseEvent) : preserves (emits Change 2) (onOptionClick c).
Proof.
  unfold onOptionClick. apply emits_get_bind. intros s0. cbv zeta.
  apply (emits_bind (a := 1) (b := 1)); [|intros u; apply click_end_emits].
  destruct (multiSelectable s0).
  - destruct (negb (mouse_shiftKey c)); [quietly|].
    apply emits_when. apply range_and_notice_emits.
  - quietly.
Qed.

Lemma onOptionKeyup_emits (k : KeyboardEvent) : preserves (emits Change 1) (onOptionKeyup k).
Proof.
  unfold onOptionKeyup. apply emits_get_bind. intros s0. cbv zeta.
  apply emits_when. apply (emits_bind (a := 1) (b := 0)).
  - apply emits_when. apply range_and_notice_emits.
  - intros u. quietly.
Qed.

Lemma updateSingleselect_emits : preserves (emits Change 1) updateSingleselect.
Proof.
  unfold updateSingleselect. apply emits_get_bind. intros s0. apply emits_when.
  apply (emits_bind (a := 0) (b := 1)); [quietly|intros u; apply emits_fire].
Qed.

Lemma keydown_branches_emits (k : KeyboardEvent) :
  preserves (emits Change 2) (keydown_branches k).
Proof.
  unfold keydown_branches. apply emits_get_bind. intros s0. cbv zeta.
  destruct (altKey k || metaKey k); [apply emits_ret|].
  destruct (ctrlKey k).
  { destruct (is_a_key (key k) && truthy (RovingTabindex.firstItem (tabindex s0)));
      [|apply emits_ret].
    apply (emits_more (a := 0 + 1)); [lia|].
    apply emits_bind; [quietly|intros u; apply keydown_end_emits]. }
  destruct (is_word_key (key k)).
  { apply (emits_more (a := 0 + 1)); [lia|].
    apply emits_bind; [quietly|intros u; apply keydown_end_emits]. }
  destruct (String.eqb (key k) "Enter" || String.eqb (key k) " ");
    [|apply (emits_more (a := 1)); [lia|apply keydown_end_emits]].
  destruct (truthy (target k));
    [|apply (emits_more (a := 1)); [lia|apply keydown_end_emits]].
  apply (emits_bind (a := 1) (b := 1)); [|intros u; apply keydown_end_emits].
  destruct (multiSelectable s0); [|apply updateSingleselect_emits].
  destruct (shiftKey k); quietly.
Qed.

Lemma onOptionKeydown_emits (k : KeyboardEvent) :
  preserves (emits Change 2) (onOptionKeydown k).
Proof.
  unfold onOptionKeydown.
  apply (emits_bind (a := 0) (b := 2)); [quietly|intros u].
  apply emits_get_bind. intros s0.
  apply (emits_bind (a := 0) (b := 2)); [quietly|intros u'].
  apply keydown_branches_emits.
Qed.

Lemma onFilterChange_emits : preserves (emits Input 1) onFilterChange.
Proof.
  unfold onFilterChange. apply emits_get_bind. intros s0.
  destruct (disabled s0); [apply emits_ret|]. cbv zeta.
  apply (emits_bind (a := 0) (b := 1)); [quietly|intros u].
  apply emits_get_bind. intros s1. apply emits_when. apply emits_fire.
Qed.

Lemma assign_emits (c : Setting) : preserves (emits Input 1) (assign c).
Proof.
  destruct c as [text|b|b|b|b|b|o]; cbn [assign];
    try (quietly; fail).
  - unfold set_filter. apply emits_get_bind. intros s0. apply emits_when.
    apply (emits_bind (a := 0) (b := 1)); [quietly|intros u; apply onFilterChange_emits].
  - unfold set_caseSensitive. apply emits_get_bind. intros s0. apply emits_when.
    apply (emits_bind (a := 0) (b := 1)); [quietly|intros u; apply onFilterChange_emits].
  - unfold set_disableFilter. apply emits_get_bind. intros s0. apply emits_when.
    apply (emits_bind (a := 0) (b := 1)); [quietly|intros u; apply onFilterChange_emits].
  - unfold set_matchAnywhere. apply emits_get_bind. intros s0. apply emits_when.
    apply (emits_bind (a := 0) (b := 1)); [quietly|intros u; apply onFilterChange_emits].
Qed.

Lemma set_value_emits (v : ValueArg) : preserves (emits Input 1) (set_value v).
Proof.
  unfold set_value. apply emits_get_bind. intros s0. cbv zeta.
  apply (emits_bind (a := 0) (b := 1)); [quietly|intros u].
  apply emits_get_bind. intros s1. apply emits_when. apply emits_fire.
Qed.

Lemma set_options_quiet (opts : list nat) : quiet (set_options opts).
Proof.
  unfold quiet, set_options.
  apply preserves_bind; [apply unchanged_trans|apply preserves_get; apply unchanged_refl|].
  intros s0. cbv zeta. apply preserves_when; [apply unchanged_refl|].
  apply preserves_bind; [apply unchanged_trans| |intros u].
  - apply number_from_unseen. intros; reflexivity.
  - open_controller. unseen.
Qed.

(** X10 (which notifications, and how many): a listener dispatches nothing on
    the host but [change] events, at most two of them for one event, at most
    one for a key release and none for a focus event; an assignment to a
    setting or to the value dispatches nothing but [input] events, at most
    one; an assignment to the options and a call of [focus] dispatch
    nothing.  This holds for every state and whether the step returns or
    throws. *)
Theorem notifications_are_bounded (s : State) :
  (forall e, exists n, (n <= 2)%nat /\
             dispatched (handle e s) = (repeat Change n ++ dispatched s)%list) /\
  (forall k, exists n, (n <= 1)%nat /\
             dispatched (handle (Keyup k) s) = (repeat Change n ++ dispatched s)%list) /\
  (forall t, dispatched (handle (OptionFocus t) s) = dispatched s) /\
  (forall c, exists n, (n <= 1)%nat /\
             dispatched (perform (Assign c) s) = (repeat Input n ++ dispatched s)%list) /\
  (forall v, exists n, (n <= 1)%nat /\
             dispatched (perform (AssignValue v) s) = (repeat Input n ++ dispatched s)%list) /\
  (forall opts, dispatched (perform (AssignOptions opts) s) = dispatched s) /\
  dispatched (perform CallFocus s) = dispatched s.
Proof.
  split; [|split; [|split; [|split; [|split; [|split]]]]].
  - intros [k|k|t|c]; cbn [handle].
    + apply onOptionKeydown_emits.
    + apply (emits_more (a := 1)); [lia|apply onOptionKeyup_emits].
    + apply (emits_more (a := 0)); [lia|]. quietly.
    + apply onOptionClick_emits.
  - intros k. apply onOptionKeyup_emits.
  - intros t. cbn [handle].
    assert (H : quiet (onOptionFocus t)) by (unfold quiet; open_controller; unseen).
    exact (H s tt).
  - intros c. apply assign_emits.
  - intros v. apply set_value_emits.
  - intros opts. exact (set_options_quiet opts s tt).
  - cbn [perform].
    assert (H : quiet focus) by (unfold quiet; open_controller; unseen).
    exact (H s tt).
Qed.

(** ** The visible-options derivation as a whole *)

Lemma option_matches_state (o : nat) (s : State) : snd (option_matches o s) = s.
Proof.
  unfold option_matches, new_RegExp. rewrite bind_get.
  destruct (RegExp.RegExp_new _ _); reflexivity.
Qed.

Lemma filter_by_state (l : list nat) (s : State) : snd (filter_by l option_matches s) = s.
Proof.
  induction l as [|o l IH]; [reflexivity|].
  cbn [filter_by]. rewrite bind_fst_snd, option_matches_state.
  destruct (fst (option_matches o s)) as [keep|e]; [|reflexivity].
  rewrite bind_fst_snd, IH. destruct (fst (filter_by l option_matches s)); reflexivity.
Qed.

Lemma filter_inputs_eq (s s' : State) :
  filter_inputs s' = filter_inputs s ->
  filter (this s') = filter (this s) /\ caseSensitive (this s') = caseSensitive (this s) /\
  disableFilter (this s') = disableFilter (this s) /\
  matchAnywhere (this s') = matchAnywhere (this s) /\
  showAllOptions (this s') = showAllOptions (this s) /\ options (this s') = options (this s).
Proof. unfold filter_inputs. intros H. injection H as H1 H2 H3 H4 H5 H6. repeat split; assumption. Qed.

Lemma option_matches_congr (o : nat) (s s' : State) :
  filter_inputs s' = filter_inputs s ->
  (forall q, Dom.textContent (dom s' q) = Dom.textContent (dom s q)) ->
  fst (option_matches o s') = fst (option_matches o s).
Proof.
  intros Hin Htext. apply filter_inputs_eq in Hin.
  destruct Hin as (Hf & Hc & _ & Hm & _).
  unfold option_matches, new_RegExp. rewrite !bind_get. rewrite Hf, Hc, Hm, Htext.
  destruct (RegExp.RegExp_new _ _); reflexivity.
Qed.

Lemma filter_by_congr (l : list nat) (s s' : State) :
  filter_inputs s' = filter_inputs s ->
  (forall q, Dom.textContent (dom s' q) = Dom.textContent (dom s q)) ->
  fst (filter_by l option_matches s') = fst (filter_by l option_matches s).
Proof.
  intros Hin Htext. induction l as [|o l IH]; [reflexivity|].
  cbn [filter_by]. rewrite !bind_fst_snd, !option_matches_state.
  rewrite (option_matches_congr o Hin Htext).
  destruct (fst (option_matches o s)) as [keep|e]; [|reflexivity].
  rewrite !bind_fst_snd, !filter_by_state, IH.
  destruct (fst (filter_by l option_matches s)); reflexivity.
Qed.

(** The options that pass the filter, before the fallback to the full
    list. *)
Lemma matched_phase_state (s : State) (c : bool) :
  snd ((if c then filter_by (options (this s)) option_matches else ret []) s) = s.
Proof. destruct c; [apply filter_by_state|reflexivity]. Qed.

(** The derivation in two phases: the filter, which writes nothing, and the
    marking of the options. *)
Lemma visibleOptions_run (s : State) :
  visibleOptions s
  = match fst ((if negb (disableFilter (this s) || String.eqb (filter (this s)) "*"
                         || showAllOptions (this s))
                then filter_by (options (this s)) option_matches
                else ret []) s) with
    | Returns matched =>
        let shown := if (List.length matched <? 1)%nat then options (this s) else matched in
        (Returns shown, snd (forEach (options (this s)) (mark_hidden shown) s))
    | Throws e => (Throws e, s)
    end.
Proof.
  unfold visibleOptions. rewrite bind_get.
  set (c := negb (disableFilter (this s) || String.eqb (filter (this s)) "*"
                  || showAllOptions (this s))).
  pose proof (matched_phase_state s c) as Hstate.
  unfold bind at 1.
  destruct ((if c then filter_by (options (this s)) option_matches else ret []) s)
    as [[matched|e] s1] eqn:Hphase; cbn [fst snd] in *; subst s1; [|reflexivity].
  cbv zeta. unfold bind at 1.
  pose proof (forEach_returns (options (this s))
                (mark_hidden (if (List.length matched <? 1)%nat then options (this s) else matched))
                (mark_hidden_returns _) s) as Hret.
  destruct (forEach (options (this s)) _ s) as [[[]|e] s2]; cbn [fst] in Hret;
    [reflexivity|discriminate Hret].
Qed.

(** What the derivation returns depends on the filter settings, the option
    list and the option texts alone. *)
Lemma visibleOptions_congr (s s' : State) :
  filter_inputs s' = filter_inputs s ->
  (forall q, Dom.textContent (dom s' q) = Dom.textContent (dom s q)) ->
  fst (visibleOptions s') = fst (visibleOptions s).
Proof.
  intros Hin Htext. rewrite !visibleOptions_run.
  pose proof (filter_inputs_eq Hin) as (Hf & Hc & Hd & Hm & Hall & Ho).
  rewrite Hf, Hd, Hall, Ho.
  assert (Hphase : forall c : bool,
             fst ((if c then filter_by (options (this s)) option_matches else ret []) s')
             = fst ((if c then filter_by (options (this s)) option_matches else ret []) s)).
  { intros [|]; [apply filter_by_congr; assumption|reflexivity]. }
  rewrite Hphase.
  match goal with
  | |- context [fst ((if ?c then ?a else ?b) s)] =>
      destruct (fst ((if c then a else b) s)) as [matched|e]
  end; reflexivity.
Qed.

Lemma put_updateFocus_same (f : Fields) : put_updateFocus (updateFocus f) f = f.
Proof. destruct f; reflexivity. Qed.

(** The marking loop: every option of [l] is marked hidden exactly when it
    is not among [v]; the focus is noted for an update when the focused
    element is one of those hidden. *)
Lemma forEach_mark_hidden (v l : list nat) (s : State) :
  (forall q, dom (snd (forEach l (mark_hidden v) s)) q
             = if includes l q
               then Dom.with_hidden_by_filter (negb (includes v q)) (dom s q)
               else dom s q) /\
  this (snd (forEach l (mark_hidden v) s))
  = put_updateFocus
      (updateFocus (this s)
       || existsb (fun o => elref_eqb (activeElement s) (El o) && negb (includes v o)) l)
      (this s) /\
  internals (snd (forEach l (mark_hidden v) s)) = internals s /\
  tabindex (snd (forEach l (mark_hidden v) s)) = tabindex s /\
  activeElement (snd (forEach l (mark_hidden v) s)) = activeElement s /\
  dispatched (snd (forEach l (mark_hidden v) s)) = dispatched s.
Proof.
  revert s. induction l as [|o l IH]; intros s.
  - cbn [forEach ret snd includes existsb]. rewrite orb_false_r, put_updateFocus_same.
    repeat split; reflexivity.
  - cbn [forEach]. rewrite bind_fst_snd, mark_hidden_returns.
    set (s1 := snd (mark_hidden v o s)).
    assert (Hs1 : (forall q, dom s1 q
                             = if Nat.eqb q o
                               then Dom.with_hidden_by_filter (negb (includes v o)) (dom s q)
                               else dom s q) /\
                  this s1 = put_updateFocus
                              (updateFocus (this s)
                               || (elref_eqb (activeElement s) (El o) && negb (includes v o)))
                              (this s) /\
                  internals s1 = internals s /\ tabindex s1 = tabindex s /\
                  activeElement s1 = activeElement s /\ dispatched s1 = dispatched s).
    { unfold s1, mark_hidden, set_hidden_by_filter.
      destruct (includes v o); cbn [negb].
      - cbn [modify snd with_dom dom this internals tabindex activeElement dispatched].
        rewrite andb_false_r, orb_false_r, put_updateFocus_same.
        repeat split; reflexivity.
      - rewrite bind_get. rewrite andb_true_r.
        destruct (elref_eqb (activeElement s) (El o)); cbn [when].
        + rewrite orb_true_r. repeat split; reflexivity.
        + rewrite orb_false_r, put_updateFocus_same. repeat split; reflexivity. }
    destruct Hs1 as (Hd1 & Ht1 & Hi1 & Htab1 & Ha1 & He1).
    destruct (IH s1) as (Hd & Ht & Hi & Htab & Ha & He).
    split; [|split; [|split; [|split; [|split]]]].
    + intros q. rewrite (Hd q), (Hd1 q). cbn [includes existsb]. fold (includes l q).
      destruct (Nat.eqb q o) eqn:Hq; cbn [orb].
      * apply Nat.eqb_eq in Hq. subst q. destruct (includes l o); reflexivity.
      * reflexivity.
    + rewrite Ht, Ht1, Ha1. cbn [existsb put_updateFocus updateFocus].
      rewrite orb_assoc. reflexivity.
    + congruence.
    + congruence.
    + congruence.
    + congruence.
Qed.

Lemma filter_by_incl (l matched : list nat) (s : State) :
  fst (filter_by l option_matches s) = Returns matched ->
  forall q, In q matched -> In q l.
Proof.
  revert matched. induction l as [|o l IH]; intros matched.
  - cbn [filter_by ret fst]. intros H. injection H as <-. intros q [].
  - cbn [filter_by]. rewrite bind_fst_snd, option_matches_state.
    destruct (fst (option_matches o s)) as [keep|e]; [|discriminate].
    rewrite bind_fst_snd, filter_by_state.
    destruct (fst (filter_by l option_matches s)) as [rest|e]; [|discriminate].
    cbn [ret fst]. intros H. injection H as <-. intros q Hq.
    destruct keep.
    + destruct Hq as [<-|Hq]; [left; reflexivity|right; exact (IH rest eq_refl q Hq)].
    + right. exact (IH rest eq_refl q Hq).
Qed.

(** What a returning derivation leaves behind. *)
Lemma visibleOptions_returns (s : State) (v : list nat) :
  fst (visibleOptions s) = Returns v ->
  snd (visibleOptions s) = snd (forEach (options (this s)) (mark_hidden v) s) /\
  forall q, In q v -> In q (options (this s)).
Proof.
  rewrite visibleOptions_run.
  destruct (negb (disableFilter (this s) || String.eqb (filter (this s)) "*"
                  || showAllOptions (this s))) eqn:Hc.
  - destruct (fst (filter_by (options (this s)) option_matches s)) as [matched|e] eqn:Hm;
      cbv zeta; cbn [fst snd]; [|discriminate].
    intros H. injection H as <-. split; [reflexivity|].
    destruct matched as [|o matched]; cbn [List.length Nat.ltb Nat.leb].
    + intros q Hq. exact Hq.
    + apply (filter_by_incl _ s Hm).
  - cbv zeta. cbn [ret fst snd List.length Nat.ltb Nat.leb].
    intros H. injection H as <-. split; [reflexivity|]. intros q Hq. exact Hq.
Qed.

Lemma visibleOptions_throws (s : State) (e : exn) :
  fst (visibleOptions s) = Throws e -> snd (visibleOptions s) = s.
Proof.
  rewrite visibleOptions_run.
  match goal with
  | |- context [fst ((if ?c then ?a else ?b) s)] =>
      destruct (fst ((if c then a else b) s)) as [matched|e']
  end; cbv zeta; cbn [fst snd]; [discriminate|reflexivity].
Qed.

Lemma with_hidden_by_filter_twice (b : bool) (e : Dom.Element) :
  Dom.with_hidden_by_filter b (Dom.with_hidden_by_filter b e) = Dom.with_hidden_by_filter b e.
Proof. reflexivity. Qed.

(** X11 (the visible-options getter writes marks, and settles): when the
    derivation returns a list, the list holds options of the full list only;
    every option of the full list is marked hidden-by-filter exactly when it
    is not in the returned list, nothing else of any element is written, and
    a focus update is noted exactly when the focused element is an option
    that is now hidden (or one was noted already).  A second read returns
    the same list and changes nothing.  When the derivation throws, it has
    written nothing. *)
Theorem visible_options_marks_and_settles (s : State) :
  (forall v, fst (visibleOptions s) = Returns v ->
     (forall q, In q v -> In q (options (this s))) /\
     (forall q, dom (after visibleOptions s) q
                = if includes (options (this s)) q
                  then Dom.with_hidden_by_filter (negb (includes v q)) (dom s q)
                  else dom s q) /\
     this (after visibleOptions s)
     = put_updateFocus
         (updateFocus (this s)
          || existsb (fun o => elref_eqb (activeElement s) (El o) && negb (includes v o))
               (options (this s)))
         (this s) /\
     fst (visibleOptions (after visibleOptions s)) = Returns v /\
     equivalent (after visibleOptions s) (after visibleOptions (after visibleOptions s))) /\
  (forall e, fst (visibleOptions s) = Throws e -> after visibleOptions s = s).
Proof.
  split; [|intros e He; apply (visibleOptions_throws s He)].
  intros v Hv. unfold after.
  destruct (visibleOptions_returns s Hv) as [Hsnd Hincl].
  destruct (forEach_mark_hidden v (options (this s)) s) as (Hd & Ht & Hi & Htab & Ha & He).
  rewrite <- Hsnd in Hd, Ht, Hi, Htab, Ha, He.
  set (s1 := snd (visibleOptions s)) in *.
  assert (Hagain : fst (visibleOptions s1) = Returns v).
  { rewrite <- Hv. apply visibleOptions_congr.
    - unfold filter_inputs. rewrite Ht. reflexivity.
    - intros q. rewrite (Hd q). destruct (includes (options (this s)) q); reflexivity. }
  split; [exact Hincl|]. split; [exact Hd|]. split; [exact Ht|]. split; [exact Hagain|].
  destruct (visibleOptions_returns s1 Hagain) as [Hsnd2 _].
  destruct (forEach_mark_hidden v (options (this s1)) s1)
    as (Hd2 & Ht2 & Hi2 & Htab2 & Ha2 & He2).
  rewrite <- Hsnd2 in Hd2, Ht2, Hi2, Htab2, Ha2, He2.
  assert (Hopts : options (this s1) = options (this s)) by (rewrite Ht; reflexivity).
  unfold equivalent. split; [|split; [|split; [|split; [|split]]]]; try assumption.
  - rewrite Ht2, Ha, Hopts. rewrite Ht. cbn [put_updateFocus updateFocus].
    match goal with
    | |- context [?a || ?b || ?b] =>
        replace (a || b || b) with (a || b) by (destruct a, b; reflexivity)
    end.
    reflexivity.
  - intros q. rewrite (Hd2 q), Hopts, (Hd q).
    destruct (includes (options (this s)) q); reflexivity.
Qed.

(** The theorem at scenario A: with "r" as the filter, Red is shown and Blue
    is marked hidden. *)
Lemma visible_options_marks_and_settles_witness :
  fst (visibleOptions (after (set_filter "r") eight_colours)) = Returns [6] /\
  Dom.hidden_by_filter (dom (after visibleOptions (after (set_filter "r") eight_colours)) 0)
  = true.
Proof.
  assert (Hv : fst (visibleOptions (after (set_filter "r") eight_colours)) = Returns [6])
    by (vm_compute; reflexivity).
  split; [exact Hv|].
  destruct (proj1 (visible_options_marks_and_settles (after (set_filter "r") eight_colours))
              [6] Hv) as (_ & Hd & _).
  rewrite (Hd 0). vm_compute. reflexivity.
Defined.

(** ** The focus tracker and the visible options *)

Lemma pair_run (A : Type) (m : M A) (s : State) : m s = (fst (m s), snd (m s)).
Proof. destruct (m s); reflexivity. Qed.

Lemma handle_filter_inputs (e : Event) (s : State) :
  showAllOptions (this s) = false -> filter_inputs (handle e s) = filter_inputs s.
Proof.
  intros Hall. pose proof (handle_override e s Hall) as Hall'.
  pose proof (handlers_leave_the_configuration e s tt) as Hc. cbv beta in Hc.
  unfold configuration in Hc. injection Hc as H1 H2 H3 H4 H5 _ _ _ _.
  unfold filter_inputs. rewrite H1, H2, H3, H4, H5, Hall, Hall'. reflexivity.
Qed.

Lemma handle_items (e : Event) (s : State) :
  RovingTabindex.items (tabindex (handle e s)) = RovingTabindex.items (tabindex s).
Proof.
  pose proof (handlers_leave_the_configuration e s tt) as Hc. cbv beta in Hc.
  unfold configuration in Hc. injection Hc as _ _ _ _ _ _ _ _ H. exact H.
Qed.

Lemma handle_text (e : Event) (s : State) (q : nat) :
  Dom.textContent (dom (handle e s) q) = Dom.textContent (dom s q).
Proof.
  pose proof (handlers_leave_the_content e s q) as Hc. cbv beta in Hc.
  unfold content in Hc. injection Hc as _ H _ _ _ _ _. exact H.
Qed.

Lemma onFilterChange_filter_inputs :
  preserves (unchanged (fun s (_ : unit) => filter_inputs s)) onFilterChange.
Proof. open_controller. unseen. Qed.

Lemma onFilterChange_text :
  preserves (unchanged (fun s q => Dom.textContent (dom s q))) onFilterChange.
Proof. open_controller. unseen. Qed.

Lemma onFilterChange_items (s : State) (v : list nat) :
  disabled s = false ->
  fst (visibleOptions s) = Returns v ->
  RovingTabindex.items (tabindex (snd (onFilterChange s))) = v.
Proof.
  intros Hd Hv. unfold onFilterChange. rewrite bind_get, Hd. cbv zeta.
  assert (Hrun : visibleOptions s = (Returns v, snd (visibleOptions s))).
  { rewrite (pair_run visibleOptions s) at 1. rewrite Hv. reflexivity. }
  destruct (updateFocus (this s)).
  - unfold bind at 1. unfold bind at 1. rewrite Hrun.
    cbn [modify bind get fst snd].
    match goal with |- context [when ?b _] => destruct b end; reflexivity.
  - unfold bind at 1. unfold bind at 1. rewrite Hrun.
    cbn [modify bind get fst snd].
    match goal with |- context [when ?b _] => destruct b end; reflexivity.
Qed.

(** After a refresh on an enabled listbox, the tracker holds what the
    derivation returns in the new state. *)
Lemma onFilterChange_follows (s : State) (v : list nat) :
  disabled s = false ->
  fst (visibleOptions (snd (onFilterChange s))) = Returns v ->
  RovingTabindex.items (tabindex (snd (onFilterChange s))) = v.
Proof.
  intros Hd Hv.
  assert (Hsame : fst (visibleOptions (snd (onFilterChange s))) = fst (visibleOptions s)).
  { apply visibleOptions_congr.
    - exact (onFilterChange_filter_inputs s tt).
    - intros q. exact (onFilterChange_text s q). }
  rewrite Hsame in Hv. apply onFilterChange_items; assumption.
Qed.

Lemma number_from_returns (pos size : nat) (l : list nat) (s : State) :
  fst (number_from pos size l s) = Returns tt.
Proof.
  revert pos s. induction l as [|o l IH]; intros pos s; [reflexivity|].
  cbn [number_from]. rewrite bind_fst_snd. cbn [modify fst snd]. apply IH.
Qed.

Lemma visibleOptions_filter_inputs :
  preserves (unchanged (fun s (_ : unit) => filter_inputs s)) visibleOptions.
Proof. open_controller. unseen. Qed.

Lemma visibleOptions_text :
  preserves (unchanged (fun s q => Dom.textContent (dom s q))) visibleOptions.
Proof. open_controller. unseen. Qed.

Lemma set_options_follows (s : State) (opts v : list nat) :
  tracker_follows s ->
  fst (visibleOptions (snd (set_options opts s))) = Returns v ->
  RovingTabindex.items (tabindex (snd (set_options opts s))) = v.
Proof.
  unfold tracker_follows. intros Hfollows. unfold set_options. rewrite bind_get. cbv zeta.
  match goal with |- context [when ?b _] => destruct b end; cbn [when].
  2:{ cbn [ret snd]. intros Hv. rewrite Hfollows in Hv. injection Hv as Hv. exact Hv. }
  rewrite bind_fst_snd, number_from_returns.
  set (s1 := snd (number_from 0 (List.length opts) opts s)).
  rewrite bind_fst_snd. cbn [modify fst snd].
  set (s2 := with_this (put_options opts) s1).
  rewrite bind_fst_snd.
  destruct (fst (visibleOptions s2)) as [v1|e] eqn:Hv1.
  - cbn [modify snd RovingTabindex.initItems with_tabindex tabindex RovingTabindex.items].
    intros Hv.
    assert (Hsame : fst (visibleOptions
                           (with_tabindex (RovingTabindex.initItems v1) (snd (visibleOptions s2))))
                    = fst (visibleOptions s2)).
    { apply visibleOptions_congr.
      - exact (visibleOptions_filter_inputs s2 tt).
      - intros q. exact (visibleOptions_text s2 q). }
    rewrite Hsame, Hv1 in Hv. injection Hv as Hv. exact Hv.
  - rewrite (visibleOptions_throws s2 Hv1). cbn [snd]. intros Hv. rewrite Hv1 in Hv.
    discriminate Hv.
Qed.

Lemma quiet_steps_follow (A : Type) (m : M A) (s : State) (v : list nat) :
  preserves (unchanged (fun s (_ : unit) => filter_inputs s)) m ->
  preserves (unchanged (fun s q => Dom.textContent (dom s q))) m ->
  preserves (unchanged (fun s (_ : unit) => RovingTabindex.items (tabindex s))) m ->
  tracker_follows s ->
  fst (visibleOptions (snd (m s))) = Returns v ->
  RovingTabindex.items (tabindex (snd (m s))) = v.
Proof.
  unfold tracker_follows. intros Hin Htext Hitems Hfollows Hv.
  rewrite (Hitems s tt).
  rewrite (visibleOptions_congr (Hin s tt) (Htext s)), Hfollows in Hv.
  injection Hv as Hv. exact Hv.
Qed.

Lemma refresh_follows (put : Fields -> Fields) (s : State) (v : list nat) :
  disabled s = false ->
  fst (visibleOptions (snd ((modify (with_this put) ;; onFilterChange) s))) = Returns v ->
  RovingTabindex.items (tabindex (snd ((modify (with_this put) ;; onFilterChange) s))) = v.
Proof.
  intros Hd. unfold bind at 1 2. cbn [modify]. apply onFilterChange_follows. exact Hd.
Qed.

(** X12 (the focus tracker holds the visible options): a new controller's
    tracker holds what the visible-options derivation returns, and every
    step keeps it so: an event, an assignment to a setting, to the options or
    to the value, a call of [focus].  Two provisos: a filter setting
    assigned while the listbox is disabled is stored without a refresh, and
    a filter text that does not compile leaves nothing to hold; so the
    listbox must be enabled when a filter setting is assigned, and the
    derivation must return in the state after the step. *)
Theorem tracker_follows_the_visible_options :
  (forall d config, tracker_follows (constructor d config)) /\
  (forall s a v,
     showAllOptions (this s) = false ->
     tracker_follows s ->
     (forall c, a = Assign c -> is_filter_setting c = true -> disabled s = false) ->
     fst (visibleOptions (perform a s)) = Returns v ->
     RovingTabindex.items (tabindex (perform a s)) = v).
Proof.
  split.
  - intros d [[|] [|]]; reflexivity.
  - intros s a v Hall Hfollows Henabled.
    destruct a as [e|c|opts|value|]; cbn [perform].
    + intros Hv. rewrite handle_items.
      rewrite (visibleOptions_congr (handle_filter_inputs e s Hall) (handle_text e s)) in Hv.
      unfold tracker_follows in Hfollows. rewrite Hfollows in Hv.
      injection Hv as Hv. exact Hv.
    + destruct c as [text|b|b|b|b|b|o]; cbn [assign].
      * specialize (Henabled _ eq_refl eq_refl).
        unfold set_filter. rewrite bind_get.
        destruct (negb (String.eqb (filter (this s)) text)); cbn [when].
        -- apply refresh_follows. exact Henabled.
        -- cbn [ret snd]. intros Hv. unfold tracker_follows in Hfollows.
           rewrite Hfollows in Hv. injection Hv as Hv. exact Hv.
      * specialize (Henabled _ eq_refl eq_refl).
        unfold set_caseSensitive. rewrite bind_get.
        destruct (negb (Bool.eqb (caseSensitive (this s)) b)); cbn [when].
        -- apply refresh_follows. exact Henabled.
        -- cbn [ret snd]. intros Hv. unfold tracker_follows in Hfollows.
           rewrite Hfollows in Hv. injection Hv as Hv. exact Hv.
      * specialize (Henabled _ eq_refl eq_refl).
        unfold set_disableFilter. rewrite bind_get.
        destruct (negb (Bool.eqb (disableFilter (this s)) b)); cbn [when].
        -- apply refresh_follows. exact Henabled.
        -- cbn [ret snd]. intros Hv. unfold tracker_follows in Hfollows.
           rewrite Hfollows in Hv. injection Hv as Hv. exact Hv.
      * specialize (Henabled _ eq_refl eq_refl).
        unfold set_matchAnywhere. rewrite bind_get.
        destruct (negb (Bool.eqb (matchAnywhere (this s)) b)); cbn [when].
        -- apply refresh_follows. exact Henabled.
        -- cbn [ret snd]. intros Hv. unfold tracker_follows in Hfollows.
           rewrite Hfollows in Hv. injection Hv as Hv. exact Hv.
      * apply quiet_steps_follow; [open_controller; unseen ..|exact Hfollows].
      * apply quiet_steps_follow; [open_controller; unseen ..|exact Hfollows].
      * apply quiet_steps_follow; [open_controller; unseen ..|exact Hfollows].
    + apply set_options_follows. exact Hfollows.
    + apply quiet_steps_follow; [open_controller; unseen ..|exact Hfollows].
    + apply quiet_steps_follow; [open_controller; unseen ..|exact Hfollows].
Qed.

(** The theorem at the eight colours when "r" becomes the filter: the
    tracker then holds Red alone. *)
Lemma tracker_follows_the_visible_options_witness :
  fst (visibleOptions (perform (Assign (Filter "r")) eight_colours)) = Returns [6] /\
  RovingTabindex.items (tabindex (perform (Assign (Filter "r")) eight_colours)) = [6].
Proof.
  assert (Hv : fst (visibleOptions (perform (Assign (Filter "r")) eight_colours))
               = Returns [6]) by (vm_compute; reflexivity).
  split; [exact Hv|].
  apply (proj2 tracker_follows_the_visible_options eight_colours (Assign (Filter "r")) [6]).
  - vm_compute. reflexivity.
  - vm_compute. reflexivity.
  - intros c Hc Hfilter. vm_compute. reflexivity.
  - exact Hv.
Defined.

(** ** Assigning the options *)

Lemma every_same_refl (l : list nat) : every_same l l = true.
Proof. induction l as [|x l IH]; [reflexivity|]. cbn [every_same]. rewrite Nat.eqb_refl. exact IH. Qed.

Lemma every_same_eq (new old : list nat) :
  List.length new = List.length old -> every_same new old = true -> new = old.
Proof.
  revert old. induction new as [|x new IH]; intros [|y old] Hlen Hsame;
    cbn [List.length] in Hlen; try discriminate; [reflexivity|].
  cbn [every_same] in Hsame. apply andb_true_iff in Hsame. destruct Hsame as [Hxy Hrest].
  apply Nat.eqb_eq in Hxy. subst y. f_equal. apply IH; [lia|exact Hrest].
Qed.

(** The guard of the setter: the list assigned is not the list held. *)
Lemma options_guard (opts old : list nat) :
  negb (Nat.eqb (List.length opts) (List.length old)) || negb (every_same opts old) = false
  <-> opts = old.
Proof.
  split.
  - intros H. apply orb_false_elim in H. destruct H as [Hlen Hsame].
    apply negb_false_iff in Hlen, Hsame. apply Nat.eqb_eq in Hlen.
    apply every_same_eq; assumption.
  - intros ->. rewrite Nat.eqb_refl, every_same_refl. reflexivity.
Qed.

Lemma number_from_elsewhere (pos size : nat) (l : list nat) (s : State) (q : nat) :
  ~ In q l -> dom (snd (number_from pos size l s)) q = dom s q.
Proof.
  revert pos s. induction l as [|o l IH]; intros pos s Hq; [reflexivity|].
  cbn [number_from]. rewrite bind_fst_snd. cbn [modify fst snd].
  rewrite IH by (intros Hin; apply Hq; right; exact Hin).
  cbn [with_dom dom]. unfold Dom.update.
  destruct (Nat.eqb q o) eqn:E; [|reflexivity].
  apply Nat.eqb_eq in E. exfalso. apply Hq. left. symmetry. exact E.
Qed.

Lemma number_from_positions (pos size : nat) (l : list nat) (s : State) :
  NoDup l ->
  forall i o, nth_error l i = Some o ->
    Dom.posInSet (dom (snd (number_from pos size l s)) o) = Some (pos + i) /\
    Dom.setSize (dom (snd (number_from pos size l s)) o) = Some size.
Proof.
  revert pos s. induction l as [|x l IH]; intros pos s Hnodup i o Hnth.
  - destruct i; discriminate Hnth.
  - inversion Hnodup as [|? ? Hx Hl]; subst.
    cbn [number_from]. rewrite bind_fst_snd. cbn [modify fst snd].
    destruct i as [|i]; cbn [nth_error] in Hnth.
    + injection Hnth as <-. rewrite number_from_elsewhere by exact Hx.
      cbn [with_dom dom]. unfold Dom.update. rewrite Nat.eqb_refl.
      rewrite Nat.add_0_r. split; reflexivity.
    + destruct (IH (S pos) (with_dom (Dom.update x (Dom.with_position pos size)) s)
                  Hl i o Hnth) as [Hp Hs].
      rewrite Hp, Hs. split; [f_equal; lia|reflexivity].
Qed.

Lemma number_from_fields (pos size : nat) (l : list nat) (s : State) :
  this (snd (number_from pos size l s)) = this s /\
  forall q, Dom.selected (dom (snd (number_from pos size l s)) q) = Dom.selected (dom s q).
Proof.
  revert pos s. induction l as [|o l IH]; intros pos s; [split; reflexivity|].
  cbn [number_from]. rewrite bind_fst_snd. cbn [modify fst snd].
  destruct (IH (S pos) (with_dom (Dom.update o (Dom.with_position pos size)) s)) as [Ht Hsel].
  split; [rewrite Ht; reflexivity|].
  intros q. rewrite Hsel. cbn [with_dom dom]. unfold Dom.update.
  destruct (Nat.eqb q o); reflexivity.
Qed.

(** The rest of the setter, after the numbering: the list is stored and the
    tracker initialised. *)
Lemma track_after_numbering (I A : Type) (p : State -> I -> A) (opts : list nat) :
  (forall f s i, p (with_tabindex f s) i = p s i) ->
  (forall o b s i, p (with_dom (Dom.update o (Dom.with_hidden_by_filter b)) s) i = p s i) ->
  (forall b s i, p (with_this (put_updateFocus b) s) i = p s i) ->
  forall s,
    unchanged p (with_this (put_options opts) s)
      (snd ((modify (with_this (put_options opts)) ;;
             visible <- visibleOptions ;;
             modify (with_tabindex (RovingTabindex.initItems visible))) s)).
Proof.
  intros Htab Hdom Hthis s.
  unfold bind at 1. cbn [modify].
  generalize (with_this (put_options opts) s). clear s.
  change (preserves (unchanged p)
            (visible <- visibleOptions ;;
             modify (with_tabindex (RovingTabindex.initItems visible)))).
  open_controller.
  frame_with (@unchanged_refl _ _ p) (@unchanged_trans _ _ p);
    intros; apply preserves_modify; intros s i;
    first [apply Htab | apply Hdom | apply Hthis].
Qed.

(** X13 (assigning the options): after [options] is assigned a list without
    repetition, the controller holds that list; unless it is the list
    already held, the option at index i has position i and the set size is
    the length of the list, even when the refresh then throws on the filter
    text.  No selected flag changes.  Assigning the same list again does
    nothing at all. *)
Theorem options_assignment (s : State) (opts : list nat) :
  NoDup opts ->
  options (this (after (set_options opts) s)) = opts /\
  (opts <> options (this s) ->
   forall i o, nth_error opts i = Some o ->
     Dom.posInSet (dom (after (set_options opts) s) o) = Some i /\
     Dom.setSize (dom (after (set_options opts) s) o) = Some (List.length opts)) /\
  (forall q, Dom.selected (dom (after (set_options opts) s) q) = Dom.selected (dom s q)) /\
  set_options opts (after (set_options opts) s) = (Returns tt, after (set_options opts) s).
Proof.
  intros Hnodup.
  assert (Hheld : options (this (after (set_options opts) s)) = opts /\
                  (opts <> options (this s) ->
                   forall i o, nth_error opts i = Some o ->
                     Dom.posInSet (dom (after (set_options opts) s) o) = Some i /\
                     Dom.setSize (dom (after (set_options opts) s) o)
                     = Some (List.length opts)) /\
                  (forall q, Dom.selected (dom (after (set_options opts) s) q)
                             = Dom.selected (dom s q))).
  { unfold after, set_options. rewrite bind_get. cbv zeta.
    destruct (negb (Nat.eqb (List.length opts) (List.length (options (this s))))
              || negb (every_same opts (options (this s)))) eqn:Hguard; cbn [when].
    - rewrite bind_fst_snd, number_from_returns.
      set (s1 := snd (number_from 0 (List.length opts) opts s)).
      destruct (number_from_fields 0 (List.length opts) opts s) as [Ht1 Hsel1].
      fold s1 in Ht1, Hsel1.
      split; [|split].
      + exact (@track_after_numbering unit _ (fun s _ => options (this s)) opts
                 (fun _ _ _ => eq_refl) (fun _ _ _ _ => eq_refl) (fun _ _ _ => eq_refl) s1 tt).
      + intros _ i o Hnth.
        destruct (number_from_positions 0 (List.length opts) s Hnodup i Hnth) as [Hp Hs].
        fold s1 in Hp, Hs.
        pose proof (@track_after_numbering nat _
                      (fun s q => (Dom.posInSet (dom s q), Dom.setSize (dom s q))) opts
                      (fun _ _ _ => eq_refl)) as Hkeep.
        specialize (Hkeep
                      (fun o b s q =>
                         match Nat.eqb q o as c
                               return (let e := if c then Dom.with_hidden_by_filter b (dom s q)
                                                else dom s q in
                                       (Dom.posInSet e, Dom.setSize e))
                                      = (Dom.posInSet (dom s q), Dom.setSize (dom s q))
                         with true => eq_refl | false => eq_refl end)
                      (fun _ _ _ => eq_refl) s1 o).
        cbv beta in Hkeep. cbn [with_this dom] in Hkeep.
        injection Hkeep as Hp' Hs'. rewrite Hp', Hs', Hp, Hs. split; reflexivity.
      + intros q. rewrite <- Hsel1.
        pose proof (@track_after_numbering nat _ (fun s q => Dom.selected (dom s q)) opts
                      (fun _ _ _ => eq_refl)) as Hkeep.
        specialize (Hkeep
                      (fun o b s q =>
                         match Nat.eqb q o as c
                               return Dom.selected (if c then Dom.with_hidden_by_filter b (dom s q)
                                                    else dom s q)
                                      = Dom.selected (dom s q)
                         with true => eq_refl | false => eq_refl end)
                      (fun _ _ _ => eq_refl) s1 q).
        exact Hkeep.
    - apply options_guard in Hguard. cbn [ret snd]. split; [|split].
      + symmetry. exact Hguard.
      + intros Hne. congruence.
      + reflexivity. }
  destruct Hheld as (Hopts & Hpos & Hsel).
  split; [exact Hopts|]. split; [exact Hpos|]. split; [exact Hsel|].
  unfold set_options at 1. rewrite bind_get. cbv zeta.
  rewrite Hopts, Nat.eqb_refl, every_same_refl. reflexivity.
Qed.

(** The theorem at the eight colours given as the options of a new
    controller: Orange stands at position 3 of 8. *)
Lemma options_assignment_witness :
  NoDup (seq 0 8) /\
  Dom.posInSet (dom (after (set_options (seq 0 8)) (fresh colours)) 3) = Some 3 /\
  Dom.setSize (dom (after (set_options (seq 0 8)) (fresh colours)) 3) = Some 8.
Proof.
  split; [apply seq_NoDup|].
  apply (proj1 (proj2 (@options_assignment (fresh colours) (seq 0 8) (seq_NoDup 8 0)))).
  - vm_compute. intros Heq. discriminate Heq.
  - reflexivity.
Defined.

(** ** Assigning the value *)

Lemma only_selected_refl (s : State) : only_selected s s.
Proof. unfold only_selected. repeat split; reflexivity. Qed.

Lemma only_selected_trans (a b c : State) :
  only_selected a b -> only_selected b c -> only_selected a c.
Proof.
  unfold only_selected.
  intros (H1 & H2 & H3 & H4 & H5 & H6) (K1 & K2 & K3 & K4 & K5 & K6).
  repeat split; try congruence; intros q b0; rewrite K6; apply H6.
Qed.

Lemma set_selected_only_selected (o : nat) (b : bool) (s : State) :
  only_selected s (with_dom (Dom.update o (Dom.with_selected b)) s).
Proof.
  unfold only_selected. cbn [with_dom this internals tabindex dom activeElement dispatched].
  repeat split. intros q b0. unfold Dom.update. destruct (Nat.eqb q o); reflexivity.
Qed.

Lemma only_selected_same_but_selected (s s' : State) :
  only_selected s s' -> same_but_selected s s'.
Proof.
  intros (H1 & H2 & H3 & _ & _ & H6). unfold same_but_selected.
  repeat split; try assumption.
  intros q. exact (f_equal Dom.id_attr (H6 q true)).
Qed.

Lemma with_selected_same (e : Dom.Element) : Dom.with_selected (Dom.selected e) e = e.
Proof. destruct e; reflexivity. Qed.

(** A loop over [l] whose callback assigns [h s option], where [h] reads
    nothing that the assignments write: it returns, it sets the flag of
    every option of [l] to [h] of the state before the loop, and it writes
    nothing else. *)
Lemma forEach_assigns (h : State -> nat -> bool) (l : list nat) :
  (forall s s' o, only_selected s s' -> h s' o = h s o) ->
  forall s,
    fst (forEach l (fun o => s1 <- get ;; set_selected o (h s1 o)) s) = Returns tt /\
    only_selected s (snd (forEach l (fun o => s1 <- get ;; set_selected o (h s1 o)) s)) /\
    selected_by (h s) l s (snd (forEach l (fun o => s1 <- get ;; set_selected o (h s1 o)) s)).
Proof.
  intros Hh. induction l as [|o l IH]; intros s.
  - split; [reflexivity|]. split; [apply only_selected_refl|]. intros q. reflexivity.
  - set (f := fun o => s1 <- get ;; set_selected o (h s1 o)) in *.
    set (s1 := with_dom (Dom.update o (Dom.with_selected (h s o))) s).
    assert (Hstep : forEach (o :: l) f s = forEach l f s1) by reflexivity.
    rewrite Hstep.
    assert (Hs1 : only_selected s s1) by apply set_selected_only_selected.
    destruct (IH s1) as (Hret & Hsame & Hsel).
    split; [exact Hret|]. split.
    + eapply only_selected_trans; [exact Hs1|exact Hsame].
    + intros q. rewrite (Hsel q). cbn [includes existsb]. fold (includes l q).
      destruct (includes l q) eqn:Hin.
      * rewrite orb_true_r. apply Hh. exact Hs1.
      * rewrite orb_false_r. unfold s1. cbn [with_dom dom]. unfold Dom.update.
        destruct (Nat.eqb q o) eqn:Hq; [|reflexivity].
        apply Nat.eqb_eq in Hq. subst q. reflexivity.
Qed.

(** What the setter assigns to an option. *)
Lemma set_value_loop (s : State) (arg : ValueArg) :
  exists s1,
    forEach (options (this s))
      (fun option =>
         s' <- get ;;
         set_selected option
           match arg with
           | Many l =>
               if multiSelectable s'
               then existsb (strict_eqb (Dom.value (dom s' option))) l
               else strict_eqb (first_item arg) (VEl option)
           | One _ => strict_eqb (first_item arg) (VEl option)
           end) s = (Returns tt, s1) /\
    only_selected s s1 /\
    selected_by
      (fun option =>
         match arg with
         | Many l =>
             if multiSelectable s
             then existsb (strict_eqb (Dom.value (dom s option))) l
             else strict_eqb (first_item arg) (VEl option)
         | One _ => strict_eqb (first_item arg) (VEl option)
         end) (options (this s)) s s1.
Proof.
  pose (h := fun (s' : State) (option : nat) =>
               match arg with
               | Many l =>
                   if multiSelectable s'
                   then existsb (strict_eqb (Dom.value (dom s' option))) l
                   else strict_eqb (first_item arg) (VEl option)
               | One _ => strict_eqb (first_item arg) (VEl option)
               end).
  assert (Hh : forall s s' o, only_selected s s' -> h s' o = h s o).
  { intros a b o (_ & Hi & _ & _ & _ & Hd). unfold h, multiSelectable. rewrite Hi.
    rewrite (f_equal Dom.value (Hd o true) : Dom.value (dom b o) = Dom.value (dom a o)).
    reflexivity. }
  destruct (forEach_assigns h (options (this s)) Hh s) as (Hret & Hsame & Hsel).
  exists (snd (forEach (options (this s)) (fun o => s1 <- get ;; set_selected o (h s1 o)) s)).
  split; [|split; [exact Hsame|exact Hsel]].
  change (forEach (options (this s)) (fun o => s1 <- get ;; set_selected o (h s1 o)) s
          = (Returns tt,
             snd (forEach (options (this s)) (fun o => s1 <- get ;; set_selected o (h s1 o)) s))).
  rewrite (pair_run (forEach (options (this s)) (fun o => s1 <- get ;; set_selected o (h s1 o))) s)
    at 1.
  rewrite Hret. reflexivity.
Qed.

Lemma set_value_run (s : State) (arg : ValueArg) :
  exists s1,
    only_selected s s1 /\
    selected_by (selects s arg) (options (this s)) s s1 /\
    set_value arg s
    = (Returns tt, if strict_neq (value s) (value s1) then dispatchEvent Input s1 else s1).
Proof.
  destruct (set_value_loop s arg) as (s1 & Hrun & Hsame & Hsel).
  exists s1. split; [exact Hsame|]. split; [exact Hsel|].
  unfold set_value. rewrite bind_get. cbv zeta.
  erewrite bind_returns; [|exact Hrun]. rewrite bind_get.
  destruct (strict_neq (value s) (value s1)); reflexivity.
Qed.

(** The options that are a given element: that element alone, if listed. *)
Lemma filter_identity (o : nat) (l : list nat) :
  match List.filter (fun q => Nat.eqb o q) l with
  | [] => includes l o = false
  | x :: _ => x = o /\ includes l o = true
  end.
Proof.
  induction l as [|y l IH]; [reflexivity|].
  cbn [List.filter includes existsb]. fold (includes l o).
  destruct (Nat.eqb o y) eqn:E.
  - apply Nat.eqb_eq in E. split; [symmetry; exact E|reflexivity].
  - cbn [orb]. exact IH.
Qed.

Lemma selected_by_selectedOptions (g : nat -> bool) (s s1 : State) :
  options (this s1) = options (this s) ->
  selected_by g (options (this s)) s s1 ->
  selectedOptions s1 = List.filter g (options (this s)).
Proof.
  intros Ho Hsel. unfold selectedOptions. rewrite Ho.
  apply filter_ext_in. intros q Hq.
  rewrite (Hsel q), (proj2 (includes_In _ _) Hq). reflexivity.
Qed.

(** What an assignment to the value writes, returns and dispatches. *)
Lemma set_value_effect (s : State) (arg : ValueArg) :
  fst (set_value arg s) = Returns tt /\
  (forall q, Dom.selected (dom (after (set_value arg) s) q)
             = if includes (options (this s)) q then selects s arg q
               else Dom.selected (dom s q)) /\
  (forall q b, Dom.with_selected b (dom (after (set_value arg) s) q)
               = Dom.with_selected b (dom s q)) /\
  this (after (set_value arg) s) = this s /\
  (multiSelectable s = false ->
   value (after (set_value arg) s)
   = Single match first_item arg with
            | VEl o => if includes (options (this s)) o then El o else Undefined
            | _ => Undefined
            end) /\
  dispatched (after (set_value arg) s)
  = if multiSelectable s then Input :: dispatched s
    else if strict_neq (value s) (value (after (set_value arg) s))
         then Input :: dispatched s else dispatched s.
Proof.
  destruct (set_value_run s arg) as (s1 & Hsame & Hsel & Hrun).
  pose proof Hsame as (Ht & Hi & Htab & Ha & He & Hd).
  unfold after. rewrite Hrun. cbn [fst snd].
  set (final := if strict_neq (value s) (value s1) then dispatchEvent Input s1 else s1).
  assert (Hdom : dom final = dom s1) by (unfold final; destruct (strict_neq _ _); reflexivity).
  assert (Hthis : this final = this s1) by (unfold final; destruct (strict_neq _ _); reflexivity).
  assert (Hint : internals final = internals s1)
    by (unfold final; destruct (strict_neq _ _); reflexivity).
  assert (Hvalue : value final = value s1).
  { unfold value, selectedOptions, multiSelectable. rewrite Hdom, Hthis, Hint. reflexivity. }
  assert (Hmode : multiSelectable s1 = multiSelectable s).
  { unfold multiSelectable. rewrite Hi. reflexivity. }
  split; [reflexivity|]. split; [|split; [|split; [|split]]].
  - intros q. rewrite Hdom. apply Hsel.
  - intros q b. rewrite Hdom. apply Hd.
  - rewrite Hthis. exact Ht.
  - intros Hm. rewrite Hvalue. unfold value. rewrite Hmode, Hm.
    rewrite (selected_by_selectedOptions (f_equal options Ht) Hsel).
    assert (Htest : forall q, selects s arg q = strict_eqb (first_item arg) (VEl q)).
    { intros q. unfold selects. rewrite Hm. destruct arg; reflexivity. }
    rewrite (filter_ext _ _ Htest).
    destruct (first_item arg) as [| |b|z|t|o]; cbn [strict_eqb];
      try (rewrite filter_none by (intros; reflexivity); reflexivity).
    pose proof (filter_identity o (options (this s))) as Hf.
    destruct (List.filter (fun q => Nat.eqb o q) (options (this s))) as [|x rest].
    + rewrite Hf. reflexivity.
    + destruct Hf as [-> Hin]. rewrite Hin. reflexivity.
  - rewrite Hvalue. unfold final.
    destruct (multiSelectable s) eqn:Hm.
    + assert (Hneq : strict_neq (value s) (value s1) = true).
      { unfold value at 1. rewrite Hm. reflexivity. }
      rewrite Hneq. cbn [dispatchEvent dispatched]. rewrite He. reflexivity.
    + destruct (strict_neq (value s) (value s1)); cbn [dispatchEvent dispatched];
        rewrite He; reflexivity.
Qed.

(** X14 (assigning the value): the setter never throws.  It writes the
    selected flag of every option of the full list and nothing else: with an
    array in multiselect mode an option is selected exactly when the array
    includes the option's value; in every other case exactly when the value
    assigned (the first item of an array) is the option element itself.  So
    in single-select mode the value afterwards is that element if it is an
    option of the list, and [undefined] if it is anything else, a string
    among them.  One [input] event is dispatched in multiselect mode, always;
    in single-select mode one is dispatched exactly when the value read
    before and after is not the same option. *)
Theorem value_assignment (s : State) (arg : ValueArg) :
  fst (set_value arg s) = Returns tt /\
  (forall q, Dom.selected (dom (after (set_value arg) s) q)
             = if includes (options (this s)) q then selects s arg q
               else Dom.selected (dom s q)) /\
  (forall q b, Dom.with_selected b (dom (after (set_value arg) s) q)
               = Dom.with_selected b (dom s q)) /\
  this (after (set_value arg) s) = this s /\
  (multiSelectable s = false ->
   value (after (set_value arg) s)
   = Single match first_item arg with
            | VEl o => if includes (options (this s)) o then El o else Undefined
            | _ => Undefined
            end) /\
  dispatched (after (set_value arg) s)
  = if multiSelectable s then Input :: dispatched s
    else if strict_neq (value s) (value (after (set_value arg) s))
         then Input :: dispatched s else dispatched s.
Proof. exact (set_value_effect s arg). Qed.

Lemma elref_eqb_refl (x : elref) : elref_eqb x x = true.
Proof. destruct x; cbn [elref_eqb]; [reflexivity|reflexivity|apply Nat.eqb_refl]. Qed.

Lemma existsb_none (A : Type) (p : A -> bool) (l : list A) :
  (forall x, In x l -> p x = false) -> existsb p l = false.
Proof.
  induction l as [|x l IH]; intros Hp; [reflexivity|].
  cbn [existsb]. rewrite (Hp x (or_introl eq_refl)). apply IH.
  intros y Hy. apply Hp. right. exact Hy.
Qed.

(** X15 (the value handed back to its setter): in single-select mode, with
    at most one option selected, assigning the listbox the value it reports
    changes nothing and dispatches nothing.  In multiselect mode the value
    reported is the array of the selected option elements, while the setter
    looks for each option's [value] in the array it is given: when no
    option's value is an option element (option values are strings, say),
    assigning the listbox the value it reports deselects every option, and
    dispatches [input]. *)
Theorem value_handed_back (s : State) :
  (multiSelectable s = false -> at_most_one_selected s ->
   equivalent s (after (set_value (as_argument (value s))) s)) /\
  (multiSelectable s = true ->
   (forall q r, In q (options (this s)) -> Dom.value (dom s q) <> VEl r) ->
   selectedOptions (after (set_value (as_argument (value s))) s) = [] /\
   dispatched (after (set_value (as_argument (value s))) s) = Input :: dispatched s).
Proof.
  split.
  - intros Hm Hone.
    destruct (set_value_run s (as_argument (value s))) as (s1 & Hsame & Hsel & Hrun).
    destruct Hsame as (Ht & Hi & Htab & Ha & He & Hd).
    assert (Hflags : forall q, Dom.selected (dom s1 q) = Dom.selected (dom s q)).
    { intros q. rewrite (Hsel q).
      destruct (includes (options (this s)) q) eqn:Hin; [|reflexivity].
      apply includes_In in Hin.
      unfold value. rewrite Hm.
      destruct (selectedOptions s) as [|o rest] eqn:Hsels.
      - cbn [as_argument selects first_item strict_eqb].
        destruct (Dom.selected (dom s q)) eqn:Hq; [|reflexivity].
        exfalso. assert (Hin' : In q (selectedOptions s))
          by (apply selectedOptions_In; split; assumption).
        rewrite Hsels in Hin'. destruct Hin'.
      - cbn [as_argument selects first_item strict_eqb].
        assert (Ho : In o (selectedOptions s)) by (rewrite Hsels; left; reflexivity).
        destruct (Dom.selected (dom s q)) eqn:Hq.
        + assert (Hin' : In q (selectedOptions s))
            by (apply selectedOptions_In; split; assumption).
          rewrite (Hone o q Ho Hin'). apply Nat.eqb_refl.
        + apply Nat.eqb_neq. intros ->.
          apply selectedOptions_In in Ho. destruct Ho as [_ Ho]. congruence. }
    assert (Hdom : forall q, dom s1 q = dom s q).
    { intros q. rewrite <- (with_selected_same (dom s1 q)), Hflags, Hd.
      apply with_selected_same. }
    assert (Hvalue : value s1 = value s).
    { unfold value, selectedOptions, multiSelectable. rewrite Ht, Hi.
      rewrite (filter_ext _ _ Hflags). reflexivity. }
    unfold after. rewrite Hrun. cbn [snd]. rewrite Hvalue.
    unfold value at 1 2. rewrite Hm. cbn [strict_neq]. rewrite elref_eqb_refl. cbn [negb].
    unfold equivalent. repeat split; assumption.
  - intros Hm Hvalues.
    destruct (set_value_effect s (as_argument (value s))) as (_ & Hsel & _ & Ht & _ & He).
    split.
    + unfold selectedOptions. rewrite Ht. apply filter_none. intros q Hq.
      rewrite (Hsel q), (proj2 (includes_In _ _) Hq).
      unfold value. rewrite Hm. cbn [as_argument selects]. rewrite Hm.
      apply existsb_none. intros x Hx. apply in_map_iff in Hx.
      destruct Hx as (r & <- & _).
      destruct (Dom.value (dom s q)) as [| |b|z|t|o] eqn:Hv; cbn [strict_eqb]; try reflexivity.
      apply Nat.eqb_neq. intros ->. exact (Hvalues q r Hq Hv).
    + rewrite He, Hm. reflexivity.
Qed.

(** The theorem at the eight colours in multiselect mode with Green
    selected: the value reported is Green's element, and after it is
    assigned back nothing is selected. *)
Lemma value_handed_back_witness :
  value eight_multi_green = Selection [1] /\
  selectedOptions (after (set_value (as_argument (value eight_multi_green))) eight_multi_green)
  = [].
Proof.
  split; [vm_compute; reflexivity|].
  apply (proj2 (value_handed_back eight_multi_green)).
  - vm_compute. reflexivity.
  - intros q r Hq.
    assert (Hopts : options (this eight_multi_green) = seq 0 8) by (vm_compute; reflexivity).
    rewrite Hopts in Hq. cbn [seq In] in Hq.
    repeat (destruct Hq as [<-|Hq]; [vm_compute; intros Heq; discriminate Heq|]).
    destruct Hq.
Defined.

(** ** Clicks and the Enter key *)

Lemma same_selection_value (s s' : State) : same_selection s s' -> value s' = value s.
Proof.
  intros H. unfold value.
  rewrite (same_selection_selectedOptions H), (same_selection_multiSelectable H). reflexivity.
Qed.

Lemma bind_returns_inv (A B : Type) (m : M A) (f : A -> M B) (s : State) (b : B) :
  fst (bind m f s) = Returns b ->
  exists a, fst (m s) = Returns a /\ bind m f s = f a (snd (m s)).
Proof.
  unfold bind. destruct (m s) as [[a|e] s']; cbn [fst snd]; [|discriminate].
  intros _. exists a. split; reflexivity.
Qed.

(** The end of the click handler, when it returns: one [change] event if
    the value read now is not the one read at the start. *)
Lemma click_end_returns (old : ListboxValue) (target : elref) (s : State) :
  fst (click_end old target s) = Returns tt ->
  dispatched (snd (click_end old target s))
  = if strict_neq old (value s) then Change :: dispatched s else dispatched s.
Proof.
  unfold click_end. rewrite bind_get.
  set (m := when (negb (elref_eqb target (RovingTabindex.activeItem (tabindex s))))
                 (focusOnItem target ;; updateActiveDescendant)).
  intros Hret. apply bind_returns_inv in Hret. destruct Hret as (u & _ & Hrun).
  rewrite Hrun. rewrite bind_get.
  assert (Hquiet : quiet m) by (unfold quiet, m; open_controller; unseen).
  assert (Hframe : preserves same_selection m) by (unfold m; frame).
  rewrite (same_selection_value (Hframe s)).
  pose proof (Hquiet s tt) as Hd. cbv beta in Hd.
  destruct (strict_neq old (value s)); cbn [when fireChange modify ret snd dispatchEvent dispatched];
    rewrite Hd; reflexivity.
Qed.

Lemma keydown_end_run (old : ListboxValue) (stop : bool) (s : State) :
  keydown_end old stop Undefined s
  = (Returns stop, if strict_neq old (value s) then dispatchEvent Change s else s).
Proof.
  unfold keydown_end. rewrite bind_get.
  destruct (strict_neq old (value s)); reflexivity.
Qed.

Lemma assigned_flags (g : nat -> bool) (s : State) :
  exists s1,
    forEach (options (this s)) (fun o => set_selected o (g o)) s = (Returns tt, s1) /\
    only_selected s s1 /\ selected_by g (options (this s)) s s1.
Proof.
  destruct (forEach_assigns (fun _ => g) (options (this s)) (fun _ _ _ _ => eq_refl) s)
    as (Hret & Hsame & Hsel).
  exists (snd (forEach (options (this s)) (fun o => set_selected o (g o)) s)).
  split; [|split; [exact Hsame|exact Hsel]].
  rewrite (pair_run (forEach (options (this s)) (fun o => set_selected o (g o))) s) at 1.
  f_equal. exact Hret.
Qed.

Lemma only_selected_value (g : nat -> bool) (s s1 : State) :
  only_selected s s1 -> selected_by g (options (this s)) s s1 ->
  multiSelectable s = false ->
  value s1 = Single match List.filter g (options (this s)) with
                    | [] => Undefined
                    | o :: _ => El o
                    end.
Proof.
  intros (Ht & Hi & _) Hsel Hm. unfold value, multiSelectable. rewrite Hi.
  fold (multiSelectable s). rewrite Hm.
  rewrite (selected_by_selectedOptions (f_equal options Ht) Hsel). reflexivity.
Qed.

(** X16 (a click in single-select mode): whatever was selected before, and
    whether or not the listbox is disabled, a click on an element leaves
    selected exactly the options that are that element: the value is then
    the clicked option, or [undefined] if the element is not an option of
    the list.  The selection is written even when the handler then throws
    on the filter text; when it returns, it has dispatched one [change]
    event if the value is no longer the same option, and none otherwise. *)
Theorem click_selects_the_target_alone (s : State) (c : MouseEvent) (t : nat) :
  multiSelectable s = false ->
  mouse_target c = El t ->
  (forall q, Dom.selected (dom (handle (Click c) s) q)
             = if includes (options (this s)) q then Nat.eqb q t
               else Dom.selected (dom s q)) /\
  value (handle (Click c) s)
  = Single (if includes (options (this s)) t then El t else Undefined) /\
  (fst (onOptionClick c s) = Returns tt ->
   dispatched (handle (Click c) s)
   = if strict_neq (value s) (value (handle (Click c) s))
     then Change :: dispatched s else dispatched s).
Proof.
  intros Hm Htarget.
  destruct (assigned_flags (fun o => elref_eqb (El o) (mouse_target c)) s)
    as (s1 & Hrun & Hsame & Hsel).
  assert (Hstep : onOptionClick c s = click_end (value s) (mouse_target c) s1).
  { unfold onOptionClick. rewrite bind_get. cbv zeta. rewrite Hm.
    erewrite bind_returns; [reflexivity|exact Hrun]. }
  cbn [handle]. rewrite Hstep.
  pose proof (click_end_frame (value s) (mouse_target c) s1) as Hframe.
  assert (Hvalue1 : value s1 = Single (if includes (options (this s)) t then El t
                                       else Undefined)).
  { rewrite (only_selected_value Hsame Hsel Hm). rewrite Htarget. cbn [elref_eqb].
    rewrite (filter_ext (fun o => Nat.eqb o t) (fun o => Nat.eqb t o))
      by (intros o; apply Nat.eqb_sym).
    pose proof (filter_identity t (options (this s))) as Hf.
    destruct (List.filter (fun q => Nat.eqb t q) (options (this s))) as [|x rest].
    - rewrite Hf. reflexivity.
    - destruct Hf as [-> Hin]. rewrite Hin. reflexivity. }
  split; [|split].
  - intros q. destruct Hframe as (_ & _ & _ & _ & Hflags & _).
    rewrite Hflags, (Hsel q), Htarget. reflexivity.
  - rewrite (same_selection_value Hframe). exact Hvalue1.
  - intros Hret. rewrite (click_end_returns _ _ _ Hret).
    rewrite (same_selection_value Hframe).
    destruct Hsame as (_ & _ & _ & _ & He & _). rewrite He. reflexivity.
Qed.

(** The theorem at the two options: a click on Green leaves Green alone
    selected. *)
Lemma click_selects_the_target_alone_witness :
  multiSelectable two_options = false /\
  value (handle (Click (click 1)) two_options) = Single (El 1).
Proof.
  assert (Hm : multiSelectable two_options = false) by (vm_compute; reflexivity).
  split; [exact Hm|].
  rewrite (proj1 (proj2 (@click_selects_the_target_alone two_options (click 1) 1 Hm eq_refl))).
  vm_compute. reflexivity.
Defined.

Lemma commit_key_branches (k : KeyboardEvent) (s : State) :
  is_commit_key k = true ->
  onOptionKeydown k s
  = (let s0 := with_this (put_showAllOptions false) s in
     if truthy (target k)
     then ((if multiSelectable s0
            then if shiftKey k
                 then updateMultiselect (target k) (activeItem s0) false
                 else toggle_selected (target k)
            else updateSingleselect) ;;
           keydown_end (value s0) true Undefined) s0
     else keydown_end (value s0) false Undefined s0).
Proof.
  unfold is_commit_key. intros Hk. apply andb_true_iff in Hk. destruct Hk as [Hkey Hmod].
  apply negb_true_iff in Hmod. apply orb_false_elim in Hmod. destruct Hmod as [Hmod Hctrl].
  assert (Hshift : String.eqb (key k) "Shift" = false).
  { apply orb_true_iff in Hkey. destruct Hkey as [H|H]; apply String.eqb_eq in H;
      rewrite H; reflexivity. }
  assert (Hword : is_word_key (key k) = false).
  { apply orb_true_iff in Hkey. destruct Hkey as [H|H]; apply String.eqb_eq in H;
      rewrite H; reflexivity. }
  rewrite (onOptionKeydown_other_key k s Hshift). cbv zeta.
  unfold keydown_branches. rewrite bind_get. cbv zeta.
  rewrite Hmod, Hctrl, Hword, Hkey. destruct (truthy (target k)); reflexivity.
Qed.

(** What a toggle gesture does, in multiselect mode. *)
Lemma toggle_gesture (s : State) (e : Event) (t : nat) :
  multiSelectable s = true ->
  toggle_target e = Some t ->
  (forall q, Dom.selected (dom (handle e s) q)
             = if Nat.eqb q t then negb (Dom.selected (dom s q)) else Dom.selected (dom s q)) /\
  multiSelectable (handle e s) = true /\
  ((forall c, e = Click c -> fst (onOptionClick c s) = Returns tt) ->
   dispatched (handle e s) = Change :: dispatched s).
Proof.
  intros Hm Hgesture.
  destruct e as [k|k|x|c]; cbn [toggle_target] in Hgesture; try discriminate.
  - (* Enter or Space *)
    destruct (target k) as [| |t'] eqn:Htarget; try discriminate.
    destruct (is_commit_key k) eqn:Hkey; cbn [andb] in Hgesture; [|discriminate].
    destruct (shiftKey k) eqn:Hshift; cbn [negb] in Hgesture; [discriminate|].
    injection Hgesture as Heq. subst t'.
    set (s0 := with_this (put_showAllOptions false) s).
    set (s1 := with_dom (Dom.update t (Dom.with_selected (negb (Dom.selected (dom s0 t))))) s0).
    assert (Hstep : onOptionKeydown k s = keydown_end (value s0) true Undefined s1).
    { rewrite (commit_key_branches k s Hkey). cbv zeta. rewrite Htarget, Hshift.
      cbn [truthy].
      change (multiSelectable (with_this (put_showAllOptions false) s))
        with (multiSelectable s).
      rewrite Hm. reflexivity. }
    assert (Hneq : strict_neq (value s0) (value s1) = true).
    { unfold value at 1. change (multiSelectable s0) with (multiSelectable s).
      rewrite Hm. reflexivity. }
    cbn [handle]. rewrite Hstep, keydown_end_run, Hneq. cbn [snd].
    split; [|split].
    + intros q. cbn [dispatchEvent dom]. unfold s1. cbn [with_dom dom]. unfold Dom.update.
      destruct (Nat.eqb q t) eqn:Hq; [|reflexivity].
      apply Nat.eqb_eq in Hq. subst q. reflexivity.
    + exact Hm.
    + intros _. reflexivity.
  - (* a click *)
    destruct (mouse_target c) as [| |t'] eqn:Htarget; try discriminate.
    destruct (mouse_shiftKey c) eqn:Hshift; [discriminate|].
    injection Hgesture as Heq. subst t'.
    set (s1 := with_dom (Dom.update t (Dom.with_selected (negb (Dom.selected (dom s t))))) s).
    assert (Hstep : onOptionClick c s = click_end (value s) (El t) s1).
    { unfold onOptionClick. rewrite bind_get. cbv zeta.
      rewrite Hm, Hshift, Htarget. cbn [negb]. reflexivity. }
    cbn [handle]. rewrite Hstep.
    pose proof (click_end_frame (value s) (El t) s1) as Hframe.
    split; [|split].
    + intros q. destruct Hframe as (_ & _ & _ & _ & Hflags & _). rewrite Hflags.
      unfold s1. cbn [with_dom dom]. unfold Dom.update.
      destruct (Nat.eqb q t) eqn:Hq; [|reflexivity].
      apply Nat.eqb_eq in Hq. subst q. reflexivity.
    + rewrite (same_selection_multiSelectable Hframe). exact Hm.
    + intros Hret. specialize (Hret c eq_refl). rewrite Hstep in Hret.
      rewrite (click_end_returns _ _ _ Hret).
      unfold value at 1. rewrite Hm. reflexivity.
Qed.

(** X17 (toggling in multiselect mode): a click without Shift on an element,
    or Enter or Space without Shift on it, flips the selected flag of that
    element and leaves every other flag as it was; the same gesture made
    twice in a row restores every flag.  The key handler returns and
    dispatches one [change] event; so does the click handler when it
    returns. *)
Theorem toggle_gesture_flips_its_target (s : State) (e : Event) (t : nat) :
  multiSelectable s = true ->
  toggle_target e = Some t ->
  (forall q, Dom.selected (dom (handle e s) q)
             = if Nat.eqb q t then negb (Dom.selected (dom s q)) else Dom.selected (dom s q)) /\
  (forall q, Dom.selected (dom (handle e (handle e s)) q) = Dom.selected (dom s q)) /\
  ((forall c, e = Click c -> fst (onOptionClick c s) = Returns tt) ->
   dispatched (handle e s) = Change :: dispatched s).
Proof.
  intros Hm Hgesture.
  destruct (toggle_gesture s e Hm Hgesture) as (Hflip & Hm1 & Hevent).
  destruct (toggle_gesture (handle e s) e Hm1 Hgesture) as (Hflip2 & _).
  split; [exact Hflip|]. split; [|exact Hevent].
  intros q. rewrite (Hflip2 q), (Hflip q).
  destruct (Nat.eqb q t); [apply negb_involutive|reflexivity].
Qed.

(** The theorem at the eight colours in multiselect mode: a click on Green
    selects it, a second click deselects it. *)
Lemma toggle_gesture_flips_its_target_witness :
  multiSelectable eight_multi = true /\
  Dom.selected (dom (handle (Click (click 1)) eight_multi) 1) = true /\
  Dom.selected (dom (handle (Click (click 1)) (handle (Click (click 1)) eight_multi)) 1)
  = false.
Proof.
  assert (Hm : multiSelectable eight_multi = true) by (vm_compute; reflexivity).
  destruct (@toggle_gesture_flips_its_target eight_multi (Click (click 1)) 1 Hm eq_refl)
    as (Hflip & Htwice & _).
  split; [exact Hm|]. split.
  - rewrite (Hflip 1). vm_compute. reflexivity.
  - rewrite (Htwice 1). vm_compute. reflexivity.
Defined.

Lemma updateSingleselect_run (s : State) :
  multiSelectable s = false ->
  exists s1,
    only_selected s s1 /\
    selected_by (fun o => option_string_eqb (Some (Dom.id (dom s o)))
                            (Internals.ariaActivedescendant (internals s)))
                (options (this s)) s s1 /\
    updateSingleselect s = (Returns tt, dispatchEvent Change s1).
Proof.
  intros Hm.
  pose (h := fun (s : State) (o : nat) =>
               option_string_eqb (Some (Dom.id (dom s o)))
                 (Internals.ariaActivedescendant (internals s))).
  assert (Hh : forall a b o, only_selected a b -> h b o = h a o).
  { intros a b o (_ & Hi & _ & _ & _ & Hd). unfold h. rewrite Hi.
    rewrite (f_equal Dom.id (Hd o true) : Dom.id (dom b o) = Dom.id (dom a o)).
    reflexivity. }
  destruct (forEach_assigns h (options (this s)) Hh s) as (Hret & Hsame & Hsel).
  exists (snd (forEach (options (this s)) select_if_active s)).
  split; [exact Hsame|]. split; [exact Hsel|].
  unfold updateSingleselect. rewrite bind_get, Hm. cbn [negb when].
  rewrite (pair_run (forEach (options (this s)) select_if_active ;; fireChange) s).
  rewrite bind_fst_snd.
  change (fst (forEach (options (this s)) select_if_active s))
    with (fst (forEach (options (this s)) (fun o => s1 <- get ;; set_selected o (h s1 o)) s)).
  rewrite Hret. reflexivity.
Qed.

(** X18 (Enter and Space in single-select mode): on an option, with no
    modifier but possibly Shift, the key handler returns and stops the
    event.  It leaves selected exactly the options whose id is the active
    descendant published to assistive technology, whichever option the key
    event names as its target; with no active descendant, nothing is left
    selected.  One [change] event is dispatched even when no flag changes,
    and a second one when the value is no longer the same option. *)
Theorem enter_commits_the_active_descendant (s : State) (k : KeyboardEvent) :
  multiSelectable s = false ->
  is_commit_key k = true ->
  truthy (target k) = true ->
  fst (onOptionKeydown k s) = Returns true /\
  (forall q, Dom.selected (dom (handle (Keydown k) s) q)
             = if includes (options (this s)) q
               then option_string_eqb (Some (Dom.id (dom s q)))
                      (Internals.ariaActivedescendant (internals s))
               else Dom.selected (dom s q)) /\
  (Internals.ariaActivedescendant (internals s) = None ->
   selectedOptions (handle (Keydown k) s) = []) /\
  dispatched (handle (Keydown k) s)
  = if strict_neq (value s) (value (handle (Keydown k) s))
    then Change :: Change :: dispatched s else Change :: dispatched s.
Proof.
  intros Hm Hkey Htarget.
  set (s0 := with_this (put_showAllOptions false) s).
  destruct (updateSingleselect_run s0 Hm) as (s1 & Hsame & Hsel & Hrun).
  assert (Hstep : onOptionKeydown k s
                  = keydown_end (value s) true Undefined (dispatchEvent Change s1)).
  { rewrite (commit_key_branches k s Hkey). cbv zeta. rewrite Htarget. fold s0.
    change (multiSelectable s0) with (multiSelectable s). rewrite Hm.
    erewrite bind_returns; [reflexivity|exact Hrun]. }
  cbn [handle]. rewrite Hstep, keydown_end_run. cbn [fst snd].
  change (value (dispatchEvent Change s1)) with (value s1).
  destruct Hsame as (Ht & Hi & Htab & Ha & He & Hd).
  assert (Hfinal : forall b : bool,
             dom (if b then dispatchEvent Change (dispatchEvent Change s1)
                  else dispatchEvent Change s1) = dom s1 /\
             this (if b then dispatchEvent Change (dispatchEvent Change s1)
                   else dispatchEvent Change s1) = this s1 /\
             value (if b then dispatchEvent Change (dispatchEvent Change s1)
                    else dispatchEvent Change s1) = value s1)
    by (intros [|]; repeat split; reflexivity).
  destruct (Hfinal (strict_neq (value s) (value s1))) as (Fd & Ft & Fv).
  split; [reflexivity|]. split; [|split].
  - intros q. rewrite Fd. exact (Hsel q).
  - intros Hnone. unfold selectedOptions. rewrite Fd, Ft, Ht.
    apply filter_none. intros q Hq.
    rewrite (Hsel q), (proj2 (includes_In _ _) Hq).
    change (internals s0) with (internals s). rewrite Hnone. reflexivity.
  - rewrite Fv. destruct (strict_neq (value s) (value s1));
      cbn [dispatchEvent dispatched]; rewrite He; reflexivity.
Qed.

(** The theorem at the eight colours with the focus on Purple: Enter on
    Blue selects Purple. *)
Lemma enter_commits_the_active_descendant_witness :
  multiSelectable eight_on_purple = false /\
  Dom.selected (dom (handle (Keydown (key_press "Enter" 0)) eight_on_purple) 4) = true /\
  Dom.selected (dom (handle (Keydown (key_press "Enter" 0)) eight_on_purple) 0) = false.
Proof.
  assert (Hm : multiSelectable eight_on_purple = false) by (vm_compute; reflexivity).
  destruct (@enter_commits_the_active_descendant eight_on_purple (key_press "Enter" 0)
              Hm eq_refl eq_refl) as (_ & Hflags & _).
  split; [exact Hm|]. split.
  - rewrite (Hflags 4). vm_compute. reflexivity.
  - rewrite (Hflags 0). vm_compute. reflexivity.
Defined.

(** ** Typeahead *)

Lemma indexOf_from_falsy (l : list nat) (x : elref) (i : Z) :
  truthy x = false -> indexOf_from l x i = (-1)%Z.
Proof.
  intros Hx. revert i. induction l as [|y l IH]; intros i; [reflexivity|].
  cbn [indexOf_from]. destruct x; cbn [elref_eqb]; try discriminate; apply IH.
Qed.

(** The index from which the typeahead rotates the visible options is -1,
    whatever the active item. *)
Lemma typeahead_index (s : State) (items : list nat) :
  (if negb (truthy (activeItem s)) then indexOf items (activeItem s) else (-1)%Z) = (-1)%Z.
Proof.
  destruct (truthy (activeItem s)) eqn:Ht; cbn [negb]; [reflexivity|].
  apply indexOf_from_falsy. exact Ht.
Qed.

Lemma rotate_at_minus_one (A : Type) (l : list A) :
  (slice_from l (-1) ++ slice l 0 (-1))%list = last_first l.
Proof.
  unfold last_first. destruct (rev l) as [|x front] eqn:Hrev.
  - assert (Hl : l = []).
    { rewrite <- (rev_involutive l), Hrev. reflexivity. }
    subst l. reflexivity.
  - assert (Hl : l = (rev front ++ [x])%list).
    { rewrite <- (rev_involutive l), Hrev. reflexivity. }
    subst l. clear Hrev. set (f := rev front).
    unfold slice_from, slice, relative_index. rewrite length_app. cbn [List.length].
    assert (Hlen : Z.of_nat (List.length f + 1) = (Z.of_nat (List.length f) + 1)%Z) by lia.
    rewrite Hlen. cbn [Z.ltb Z.compare].
    replace (Z.of_nat (List.length f) + 1 <? 0)%Z with false
      by (symmetry; apply Z.ltb_ge; lia).
    replace (Z.max (Z.of_nat (List.length f) + 1 + -1) 0) with (Z.of_nat (List.length f))
      by lia.
    rewrite Z.min_id.
    replace (Z.min 0 (Z.of_nat (List.length f) + 1)) with 0%Z by lia.
    replace (Z.of_nat (List.length f) + 1 - Z.of_nat (List.length f))%Z with 1%Z by lia.
    rewrite Z.sub_0_r, Nat2Z.id. cbn [Z.to_nat Pos.to_nat Pos.iter_op Nat.add skipn].
    rewrite skipn_app, Nat.sub_diag, skipn_all. cbn [skipn app firstn].
    rewrite firstn_app, Nat.sub_diag, firstn_all. cbn [firstn]. rewrite app_nil_r.
    reflexivity.
Qed.

Lemma word_is_plain (c : ascii) :
  RegExp.is_word c = true -> plain_text (String c "") = true.
Proof.
  intros Hw. unfold plain_text. cbn [list_ascii_of_string forallb]. rewrite andb_true_r.
  destruct c as [b0 b1 b2 b3 b4 b5 b6 b7].
  destruct b0, b1, b2, b3, b4, b5, b6, b7; try reflexivity; discriminate Hw.
Qed.

Lemma typeahead_pattern (c : ascii) (caseSens : bool) :
  RegExp.is_word c = true ->
  exists re,
    new_RegExp ("^" ++ String c "") (if caseSens then "" else "i") = ret re /\
    forall text, RegExp.test re text
                 = starts_with_chars (negb caseSens) [c] (list_ascii_of_string text).
Proof.
  intros Hw. pose proof (RegExp_new_plain (String c "") true caseSens (word_is_plain c Hw)) as Hre.
  cbv iota in Hre. eexists. split.
  - unfold new_RegExp. rewrite Hre. reflexivity.
  - intros text. unfold RegExp.test. cbn [RegExp.source RegExp.ignoreCase].
    apply search_anchored_literal.
Qed.

Lemma visibleOptions_content :
  preserves (unchanged (fun s q => content (dom s q))) visibleOptions.
Proof. open_controller. unseen. Qed.

Lemma visibleOptions_fields :
  preserves (unchanged (fun s (_ : unit) =>
                          (caseSensitive (this s), internals s, tabindex s, options (this s))))
            visibleOptions.
Proof. open_controller. unseen. Qed.

Lemma content_candidate (s s' : State) (c : ascii) (o : nat) :
  content (dom s' o) = content (dom s o) ->
  caseSensitive (this s') = caseSensitive (this s) ->
  typeahead_candidate s' c o = typeahead_candidate s c o.
Proof.
  unfold content, typeahead_candidate. intros Hc Hcs.
  injection Hc as _ Htext _ Hhidden Hdisabled _ _.
  rewrite Htext, Hhidden, Hdisabled, Hcs. reflexivity.
Qed.

(** The typeahead, run on a state where the derivation returns [items]. *)
Lemma nextMatchingItem_run (s : State) (c : ascii) (items : list nat) :
  RegExp.is_word c = true ->
  fst (visibleOptions s) = Returns items ->
  nextMatchingItem (String c "") s
  = (Returns match find (typeahead_candidate s c) (last_first items) with
             | Some o => El o
             | None => Undefined
             end,
     snd (visibleOptions s)).
Proof.
  intros Hw Hv. unfold nextMatchingItem.
  assert (Hrun : visibleOptions s = (Returns items, snd (visibleOptions s))).
  { rewrite (pair_run visibleOptions s) at 1. rewrite Hv. reflexivity. }
  erewrite bind_returns; [|exact Hrun].
  set (s1 := snd (visibleOptions s)). rewrite bind_get. cbv zeta.
  destruct (typeahead_pattern c (caseSensitive (this s1)) Hw) as (re & Hre & Htest).
  rewrite Hre. unfold bind, ret.
  rewrite typeahead_index, rotate_at_minus_one.
  f_equal. f_equal.
  assert (Hext : forall o,
             negb (Dom.disabled_attr (dom s1 o)) && negb (Dom.hidden (dom s1 o))
             && RegExp.test re (Dom.textContent (dom s1 o))
             = typeahead_candidate s c o).
  { intros o. rewrite Htest.
    change (negb (Dom.disabled_attr (dom s1 o)) && negb (Dom.hidden (dom s1 o))
            && starts_with_chars (negb (caseSensitive (this s1))) [c]
                 (list_ascii_of_string (Dom.textContent (dom s1 o))))
      with (typeahead_candidate s1 c o).
    apply content_candidate.
    - exact (visibleOptions_content s o).
    - pose proof (visibleOptions_fields s tt) as Hf. cbv beta in Hf.
      injection Hf as Hcs _ _ _. exact Hcs. }
  induction (last_first items) as [|o l IH]; [reflexivity|].
  cbn [find]. rewrite Hext. destruct (typeahead_candidate s c o); [reflexivity|exact IH].
Qed.

(** X19 (where the typeahead looks): for a letter, a digit or an underscore
    as the key, and a state where the visible options can be derived, the
    typeahead returns the first option that is neither disabled nor hidden
    and whose text starts with the key (letter case ignored unless the
    listbox is case-sensitive), in this order: the last visible option
    first, then the others from the first on.  The active item plays no part
    in the order; with no such option the typeahead returns [undefined]. *)
Theorem typeahead_looks_from_the_last_option (s : State) (c : ascii) (items : list nat) :
  RegExp.is_word c = true ->
  fst (visibleOptions s) = Returns items ->
  fst (nextMatchingItem (String c "") s)
  = Returns match find (typeahead_candidate s c) (last_first items) with
            | Some o => El o
            | None => Undefined
            end.
Proof. intros Hw Hv. rewrite (nextMatchingItem_run s c Hw Hv). reflexivity. Qed.

(** The theorem at the eight colours with the focus on Purple: for "p" the
    typeahead returns Purple itself, the first of Purple and Pink in the
    order of the list, where a search after the active item would find
    Pink. *)
Lemma typeahead_looks_from_the_last_option_witness :
  RegExp.is_word "p" = true /\
  activeItem eight_on_purple = El 4 /\
  fst (nextMatchingItem "p" eight_on_purple) = Returns (El 4).
Proof.
  split; [reflexivity|]. split; [vm_compute; reflexivity|].
  rewrite (@typeahead_looks_from_the_last_option eight_on_purple "p" (seq 0 8) eq_refl).
  - vm_compute. reflexivity.
  - vm_compute. reflexivity.
Defined.

Lemma keydown_end_focus (old : ListboxValue) (stop : bool) (o : nat) (s : State) :
  RovingTabindex.items (tabindex s) <> [] ->
  fst (keydown_end old stop (El o) s) = Returns stop /\
  RovingTabindex.activeItem (tabindex (snd (keydown_end old stop (El o) s))) = El o /\
  activeElement (snd (keydown_end old stop (El o) s)) = El o.
Proof.
  intros Hitems. unfold keydown_end, focusOnItem. rewrite bind_get.
  destruct (strict_neq old (value s)); cbn [when truthy];
    destruct s as [th int [its act] d ae disp];
    cbn [tabindex RovingTabindex.items] in Hitems;
    (destruct its as [|x rest]; [congruence|]); repeat split; reflexivity.
Qed.

Lemma one_character_is_not_shift (c : ascii) : String.eqb (String c "") "Shift" = false.
Proof. cbn [String.eqb]. apply andb_false_r. Qed.

(** X20 (a printable key moves the focus and nothing else): a key press of a
    letter, a digit or an underscore, without Alt, Meta or Ctrl, returns and
    stops the event whether or not an option matches; it changes no selected
    flag; when the typeahead finds an option and the focus tracker holds
    items, that option becomes the tracker's active item and the focused
    element; when it finds none, the tracker and the focused element are as
    before. *)
Theorem typeahead_key_moves_the_focus_only
        (s : State) (k : KeyboardEvent) (c : ascii) (items : list nat) :
  showAllOptions (this s) = false ->
  key k = String c "" -> RegExp.is_word c = true ->
  altKey k = false -> metaKey k = false -> ctrlKey k = false ->
  fst (visibleOptions s) = Returns items ->
  fst (onOptionKeydown k s) = Returns true /\
  (forall q, Dom.selected (dom (handle (Keydown k) s) q) = Dom.selected (dom s q)) /\
  (forall o, find (typeahead_candidate s c) (last_first items) = Some o ->
             RovingTabindex.items (tabindex s) <> [] ->
             RovingTabindex.activeItem (tabindex (handle (Keydown k) s)) = El o /\
             activeElement (handle (Keydown k) s) = El o) /\
  (find (typeahead_candidate s c) (last_first items) = None ->
   tabindex (handle (Keydown k) s) = tabindex s /\
   activeElement (handle (Keydown k) s) = activeElement s).
Proof.
  intros Hall Hkey Hw Halt Hmeta Hctrl Hv.
  set (s0 := with_this (put_showAllOptions false) s).
  assert (Hv0 : fst (visibleOptions s0) = Returns items).
  { rewrite <- Hv. apply visibleOptions_congr; [|intros q; reflexivity].
    unfold filter_inputs, s0. cbn [with_this this put_showAllOptions filter caseSensitive
      disableFilter matchAnywhere showAllOptions options]. rewrite Hall. reflexivity. }
  set (s1 := snd (visibleOptions s0)).
  set (found := match find (typeahead_candidate s c) (last_first items) with
                | Some o => El o
                | None => Undefined
                end).
  assert (Hstep : onOptionKeydown k s = keydown_end (value s0) true found s1).
  { rewrite (onOptionKeydown_other_key k s) by (rewrite Hkey; apply one_character_is_not_shift).
    fold s0. unfold keydown_branches. rewrite bind_get. cbv zeta.
    rewrite Halt, Hmeta, Hctrl, Hkey. cbn [orb is_word_key]. rewrite Hw.
    erewrite bind_returns; [reflexivity|].
    exact (nextMatchingItem_run s0 c Hw Hv0). }
  pose proof (visibleOptions_fields s0 tt) as Hfields. cbv beta in Hfields. fold s1 in Hfields.
  injection Hfields as _ _ Htab _.
  assert (Hactive : activeElement s1 = activeElement s).
  { assert (H : preserves (unchanged (fun s (_ : unit) => activeElement s)) visibleOptions)
      by (open_controller; unseen).
    exact (H s0 tt). }
  cbn [handle]. rewrite Hstep.
  split; [|split; [|split]].
  - unfold found. destruct (find _ _) as [o|].
    + unfold keydown_end, focusOnItem. rewrite bind_get.
      destruct (strict_neq (value s0) (value s1)); cbn [when truthy];
        unfold bind, fireChange, modify, get, ret; cbn [dispatchEvent tabindex];
        destruct (RovingTabindex.items (tabindex s1)); reflexivity.
    + rewrite keydown_end_run. reflexivity.
  - intros q.
    destruct (keydown_end_frame (value s0) true found s1) as (_ & _ & _ & _ & Hflags & _).
    rewrite Hflags.
    destruct (visibleOptions_frame s0) as (_ & _ & _ & _ & Hflags0 & _).
    fold s1 in Hflags0. rewrite Hflags0. reflexivity.
  - intros o Hfound Hitems. unfold found. rewrite Hfound.
    apply keydown_end_focus. rewrite Htab. exact Hitems.
  - intros Hnone. unfold found. rewrite Hnone, keydown_end_run. cbn [snd].
    destruct (strict_neq (value s0) (value s1)); cbn [dispatchEvent tabindex activeElement];
      split; assumption.
Qed.

(** The theorem at the two options: "g" moves the focus to Green. *)
Lemma typeahead_key_moves_the_focus_only_witness :
  fst (visibleOptions two_options) = Returns [0; 1] /\
  RovingTabindex.activeItem (tabindex (handle (Keydown (key_press "g" 0)) two_options))
  = El 1.
Proof.
  assert (Hv : fst (visibleOptions two_options) = Returns [0; 1]) by (vm_compute; reflexivity).
  split; [exact Hv|].
  assert (Hall : showAllOptions (this two_options) = false) by (vm_compute; reflexivity).
  destruct (@typeahead_key_moves_the_focus_only two_options (key_press "g" 0) "g" [0; 1]
              Hall eq_refl eq_refl eq_refl eq_refl eq_refl Hv) as (_ & _ & Hfocus & _).
  apply (Hfocus 1).
  - vm_compute. reflexivity.
  - vm_compute. intros Heq. discriminate Heq.
Defined.

(** ** Notifications without a change *)

Lemma strict_neq_same_value (s s' : State) :
  value s' = value s ->
  strict_neq (value s) (value s') = multiSelectable s.
Proof.
  intros ->. unfold value. destruct (multiSelectable s); cbn [strict_neq]; [reflexivity|].
  rewrite elref_eqb_refl. reflexivity.
Qed.

Lemma onFilterChange_returns (s : State) :
  disabled s = false ->
  fst (onFilterChange s) = Returns tt ->
  dispatched (snd (onFilterChange s))
  = if multiSelectable s then Input :: dispatched s else dispatched s.
Proof.
  intros Hd. unfold onFilterChange. rewrite bind_get, Hd. cbv zeta.
  set (m := if updateFocus (this s)
            then visible <- visibleOptions ;;
                 modify (with_tabindex (RovingTabindex.updateItems visible)) ;;
                 modify (with_this (put_updateFocus false))
            else visible <- visibleOptions ;;
                 modify (with_tabindex (RovingTabindex.initItems visible))).
  intros Hret. apply bind_returns_inv in Hret. destruct Hret as (u & _ & Hrun).
  rewrite Hrun, bind_get.
  assert (Hquiet : quiet m) by (unfold quiet, m; open_controller; unseen).
  assert (Hsel : preserves (unchanged (fun s q => Dom.selected (dom s q))) m)
    by (unfold m; open_controller; unseen).
  assert (Hfields : preserves (unchanged (fun s (_ : unit) => (options (this s), internals s))) m)
    by (unfold m; open_controller; unseen).
  pose proof (Hfields s tt) as Hf. cbv beta in Hf. injection Hf as Ho Hi.
  assert (Hvalue : value (snd (m s)) = value s).
  { unfold value, selectedOptions, multiSelectable. rewrite Ho, Hi.
    rewrite (filter_ext _ _ (Hsel s)). reflexivity. }
  rewrite (@strict_neq_same_value _ _ Hvalue).
  pose proof (Hquiet s tt) as Hdisp. cbv beta in Hdisp.
  destruct (multiSelectable s); cbn [when fireInput modify ret snd dispatchEvent dispatched];
    rewrite Hdisp; reflexivity.
Qed.

(** X21 (notifications without a change): the controller reads the value
    before and after a step and notifies when the two readings are not the
    same; in multiselect mode a reading is a new array each time.  So a key
    press that the handler does not recognise (an arrow key, Tab, Shift: no
    Alt, Meta or Ctrl, not a letter, digit or underscore, not Enter or
    Space) returns without stopping the event, writes no element, no
    tracker state and no accessibility property, and yet dispatches one
    [change] event in multiselect mode; in single-select mode it dispatches
    none.  Likewise a new filter text on an enabled listbox, when the
    refresh returns, dispatches one [input] event in multiselect mode and
    none in single-select mode, while no selected flag changes. *)
Theorem notifications_without_a_change (s : State) :
  (forall k,
     altKey k = false -> metaKey k = false -> ctrlKey k = false ->
     is_word_key (key k) = false ->
     String.eqb (key k) "Enter" || String.eqb (key k) " " = false ->
     fst (onOptionKeydown k s) = Returns false /\
     dom (handle (Keydown k) s) = dom s /\
     tabindex (handle (Keydown k) s) = tabindex s /\
     internals (handle (Keydown k) s) = internals s /\
     activeElement (handle (Keydown k) s) = activeElement s /\
     dispatched (handle (Keydown k) s)
     = if multiSelectable s then Change :: dispatched s else dispatched s) /\
  (forall text,
     disabled s = false -> filter (this s) <> text ->
     fst (set_filter text s) = Returns tt ->
     (forall q, Dom.selected (dom (after (set_filter text) s) q) = Dom.selected (dom s q)) /\
     dispatched (after (set_filter text) s)
     = if multiSelectable s then Input :: dispatched s else dispatched s).
Proof.
  split.
  - intros k Halt Hmeta Hctrl Hword Hcommit.
    assert (Hrun : forall s0, value s0 = value s -> multiSelectable s0 = multiSelectable s ->
               keydown_branches k s0
               = (Returns false, if multiSelectable s then dispatchEvent Change s0 else s0)).
    { intros s0 Hvalue Hm. unfold keydown_branches. rewrite bind_get. cbv zeta.
      rewrite Halt, Hmeta, Hctrl, Hword, Hcommit. cbn [orb].
      rewrite keydown_end_run. rewrite (@strict_neq_same_value s0 s0 eq_refl), Hm. reflexivity. }
    assert (Hstep : exists s0,
               value s0 = value s /\ multiSelectable s0 = multiSelectable s /\
               dom s0 = dom s /\ tabindex s0 = tabindex s /\ internals s0 = internals s /\
               activeElement s0 = activeElement s /\ dispatched s0 = dispatched s /\
               onOptionKeydown k s = keydown_branches k s0).
    { unfold onOptionKeydown.
      destruct (String.eqb (key k) "Shift" && multiSelectable s) eqn:E.
      - exists (with_this (put_shiftStartingItem
                             (activeItem (with_this (put_showAllOptions false) s)))
                  (with_this (put_showAllOptions false) s)).
        repeat split. unfold bind at 1. cbn [modify]. rewrite bind_get.
        change (multiSelectable (with_this (put_showAllOptions false) s))
          with (multiSelectable s).
        rewrite E. reflexivity.
      - exists (with_this (put_showAllOptions false) s).
        repeat split. unfold bind at 1. cbn [modify]. rewrite bind_get.
        change (multiSelectable (with_this (put_showAllOptions false) s))
          with (multiSelectable s).
        rewrite E. reflexivity. }
    destruct Hstep as (s0 & Hvalue & Hm & H1 & H2 & H3 & H4 & H5 & Hstep).
    cbn [handle]. rewrite Hstep, (Hrun s0 Hvalue Hm). cbn [fst snd].
    destruct (multiSelectable s); cbn [dispatchEvent dom tabindex internals activeElement
                                       dispatched];
      rewrite ?H5; repeat split; assumption.
  - intros text Hd Hne. unfold after, set_filter. rewrite bind_get.
    assert (Hchanged : String.eqb (filter (this s)) text = false)
      by (apply String.eqb_neq; exact Hne).
    rewrite Hchanged. cbn [negb when].
    assert (Heq : (modify (with_this (put_filter text)) ;; onFilterChange) s
                  = onFilterChange (with_this (put_filter text) s)) by reflexivity.
    rewrite Heq. intros Hret. split.
    + intros q. exact (onFilterChange_selected (with_this (put_filter text) s) q).
    + rewrite (onFilterChange_returns (with_this (put_filter text) s) Hd Hret). reflexivity.
Qed.

(** The theorem at the eight colours in multiselect mode: the down arrow
    selects nothing and a [change] event is dispatched. *)
Lemma notifications_without_a_change_witness :
  selectedOptions (handle (Keydown (key_press "ArrowDown" 0)) eight_multi) = [] /\
  dispatched (handle (Keydown (key_press "ArrowDown" 0)) eight_multi)
  = Change :: dispatched eight_multi.
Proof.
  split; [vm_compute; reflexivity|].
  destruct (proj1 (notifications_without_a_change eight_multi) (key_press "ArrowDown" 0)
              eq_refl eq_refl eq_refl eq_refl eq_refl) as (_ & _ & _ & _ & _ & Hd).
  rewrite Hd. vm_compute. reflexivity.
Defined.

(** ** The range operation on lists of any length *)

Lemma to_int_nonnil (z : Z) :
  Z.to_int z <> Decimal.Pos Decimal.Nil /\ Z.to_int z <> Decimal.Neg Decimal.Nil.
Proof.
  destruct z as [|p|p]; cbn [Z.to_int]; split; try discriminate;
    intros H; injection H as H; exact (DecimalPos.Unsigned.to_uint_nonnil p H).
Qed.

Lemma number_toString_inj (i j : Z) : number_toString i = number_toString j -> i = j.
Proof.
  unfold number_toString. intros H.
  apply (f_equal NilZero.int_of_string) in H.
  rewrite !NilZero.isi in H by apply to_int_nonnil.
  injection H as H. apply DecimalZ.to_int_inj. exact H.
Qed.

Lemma ltb_antisym (a b : string) : a <> b -> String.ltb a b = negb (String.ltb b a).
Proof.
  intros Hne. unfold String.ltb. rewrite (String.compare_antisym b a).
  destruct (String.compare a b) eqn:E; cbn [CompOpp negb]; try reflexivity.
  apply String.compare_eq_iff in E. contradiction.
Qed.

Lemma ltb_irrefl (a : string) : String.ltb a a = false.
Proof.
  unfold String.ltb. pose proof (String.compare_antisym a a) as H.
  destruct (String.compare a a); [reflexivity|discriminate H|reflexivity].
Qed.

(** The two indices as [sort()] leaves them. *)
Lemma sort_two (i j : Z) :
  sort [i; j] = if misordered i j then [Z.max i j; Z.min i j] else [Z.min i j; Z.max i j].
Proof.
  cbn [sort fold_right sort_insert]. unfold sortCompare_le, misordered.
  destruct (Z.compare_spec i j) as [Heq|Hlt|Hgt].
  - subst j. rewrite Z.max_id, Z.min_id, ltb_irrefl. reflexivity.
  - rewrite Z.max_r, Z.min_l by lia.
    destruct (String.ltb (number_toString j) (number_toString i)); reflexivity.
  - rewrite Z.max_l, Z.min_r by lia.
    rewrite (ltb_antisym (a := number_toString j) (b := number_toString i)).
    + destruct (String.ltb (number_toString i) (number_toString j)); reflexivity.
    + intros H. apply number_toString_inj in H. lia.
Qed.

Lemma slice_empty (A : Type) (l : list A) (start finish : Z) :
  (0 <= finish <= start)%Z -> slice l start finish = [].
Proof.
  intros H. unfold slice, relative_index.
  destruct (start <? 0)%Z eqn:Hs; [apply Z.ltb_lt in Hs; lia|].
  destruct (finish <? 0)%Z eqn:Hf; [apply Z.ltb_lt in Hf; lia|].
  replace (Z.to_nat (Z.min finish (Z.of_nat (List.length l))
                     - Z.min start (Z.of_nat (List.length l)))) with 0 by lia.
  reflexivity.
Qed.

(** With both items in the list, the range written is the index range
    between them, or empty when [sort()] misorders the two indices. *)
Lemma written_range_or_nothing (s : State) (r t : nat) :
  In r (options (this s)) -> In t (options (this s)) ->
  written_range s (El t) (El r)
  = if misordered (indexOf (options (this s)) (El r)) (indexOf (options (this s)) (El t))
    then [] else index_range s r t.
Proof.
  intros Hr Ht. unfold written_range, index_range.
  pose proof (indexOf_bounds _ _ Hr) as Hi. pose proof (indexOf_bounds _ _ Ht) as Hj.
  rewrite sort_two.
  destruct (misordered _ _) eqn:Hmis; cbn [nth]; [|reflexivity].
  assert (Hne : indexOf (options (this s)) (El r) <> indexOf (options (this s)) (El t)).
  { intros Heq. unfold misordered in Hmis.
    rewrite Heq, Z.max_id, Z.min_id, ltb_irrefl in Hmis. discriminate Hmis. }
  apply slice_empty. lia.
Qed.

Lemma misordered_comm (i j : Z) : misordered i j = misordered j i.
Proof. unfold misordered. rewrite Z.max_comm, Z.min_comm. reflexivity. Qed.

Lemma one_digit_in_order (i j : Z) :
  (0 <= i < 10)%Z -> (0 <= j < 10)%Z -> misordered i j = false.
Proof.
  intros Hi Hj. pose proof (sort_two i j) as H. rewrite (sort_one_digit Hi Hj) in H.
  destruct (misordered i j) eqn:E; [|reflexivity].
  injection H as H1 H2.
  assert (i = j) by lia. subst j.
  unfold misordered in E. rewrite Z.max_id, Z.min_id, ltb_irrefl in E. discriminate E.
Qed.

Lemma two_digits_in_order (i j : Z) :
  (10 <= i < 100)%Z -> (10 <= j < 100)%Z -> misordered i j = false.
Proof.
  intros Hi Hj.
  assert (Hall : forallb (fun a => forallb (fun b => negb (misordered (Z.of_nat a) (Z.of_nat b)))
                                     (seq 10 90)) (seq 10 90) = true)
    by (vm_compute; reflexivity).
  rewrite forallb_forall in Hall.
  assert (Hin : forall k, (10 <= k < 100)%Z -> In (Z.to_nat k) (seq 10 90)).
  { intros k Hk. apply in_seq. lia. }
  specialize (Hall (Z.to_nat i) (Hin i Hi)). rewrite forallb_forall in Hall.
  specialize (Hall (Z.to_nat j) (Hin j Hj)).
  rewrite !Z2Nat.id in Hall by lia. apply negb_true_iff in Hall. exact Hall.
Qed.

(** X22 (the range operation on a list of any length): in multiselect mode,
    for a reference and a target that are both options of the list, the
    range operation returns and leaves its target as the anchor; it writes
    either the whole contiguous index range between the two (the state of
    the reference, or under Ctrl the toggled state), or nothing at all, and
    never an option outside that range.  It writes nothing exactly when the
    default [sort()] misorders the two indices, that is when the decimal
    form of the larger index comes before that of the smaller as a string.  This never happens for two
    indices below 10, nor for two indices from 10 to 99. *)
Theorem range_operation_writes_the_range_or_nothing
        (s : State) (r t : nat) (ctrl : bool) :
  multiSelectable s = true ->
  In r (options (this s)) -> In t (options (this s)) ->
  fst (updateMultiselect (El t) (El r) ctrl s) = Returns tt /\
  shiftStartingItem (this (after (updateMultiselect (El t) (El r) ctrl) s)) = El t /\
  (misordered (indexOf (options (this s)) (El r)) (indexOf (options (this s)) (El t)) = false ->
   forall q,
     Dom.selected (dom (after (updateMultiselect (El t) (El r) ctrl) s) q)
     = if includes (index_range s r t) q
       then range_state s (index_range s r t) r ctrl
       else Dom.selected (dom s q)) /\
  (misordered (indexOf (options (this s)) (El r)) (indexOf (options (this s)) (El t)) = true ->
   forall q,
     Dom.selected (dom (after (updateMultiselect (El t) (El r) ctrl) s) q)
     = Dom.selected (dom s q)) /\
  (forall i j, (0 <= i < 10)%Z /\ (0 <= j < 10)%Z \/ (10 <= i < 100)%Z /\ (10 <= j < 100)%Z ->
               misordered i j = false).
Proof.
  intros Hm Hr Ht.
  destruct (updateMultiselect_run s (El t) r ctrl Hm) as (Hret & _).
  destruct (updateMultiselect_effect s (El t) r ctrl Hm) as (s1 & Hsame & Hsel & Hsnd).
  rewrite (written_range_or_nothing s r t Hr Ht) in Hsel.
  unfold after. rewrite Hsnd.
  split; [exact Hret|]. split; [reflexivity|]. split; [|split].
  - intros Hmis q. rewrite Hmis in Hsel. exact (Hsel q).
  - intros Hmis q. rewrite Hmis in Hsel. exact (Hsel q).
  - intros i j [[Hi Hj]|[Hi Hj]]; [apply one_digit_in_order|apply two_digits_in_order];
      assumption.
Qed.

(** The theorem at eleven options with the one at index 9 selected: from
    the reference at index 2 to the target at index 10 nothing is written. *)
Lemma range_operation_writes_the_range_or_nothing_witness :
  misordered (indexOf (options (this eleven_multi)) (El 2))
             (indexOf (options (this eleven_multi)) (El 10)) = true /\
  forall q,
    Dom.selected (dom (after (updateMultiselect (El 10) (El 2) false) eleven_multi) q)
    = Dom.selected (dom eleven_multi q).
Proof.
  assert (Hm : multiSelectable eleven_multi = true) by (vm_compute; reflexivity).
  assert (Hopts : options (this eleven_multi) = seq 0 11) by (vm_compute; reflexivity).
  assert (Hr : In 2 (options (this eleven_multi))) by (rewrite Hopts; apply in_seq; lia).
  assert (Ht : In 10 (options (this eleven_multi))) by (rewrite Hopts; apply in_seq; lia).
  assert (Hmis : misordered (indexOf (options (this eleven_multi)) (El 2))
                            (indexOf (options (this eleven_multi)) (El 10)) = true)
    by (vm_compute; reflexivity).
  split; [exact Hmis|].
  destruct (@range_operation_writes_the_range_or_nothing eleven_multi 2 10 false Hm Hr Ht)
    as (_ & _ & _ & Hnothing & _).
  exact (Hnothing Hmis).
Defined.

(** The string form of an index that is not negative starts with a digit,
    and so comes after "-1". *)
Lemma minus_one_sorts_first (j : Z) :
  (0 <= j)%Z -> String.ltb "-1" (number_toString j) = true.
Proof.
  intros Hj. destruct j as [|p|p]; try lia; [reflexivity|].
  unfold number_toString. cbn [Z.to_int NilZero.string_of_int].
  pose proof (DecimalPos.Unsigned.to_uint_nonnil p) as Hnil.
  destruct (Pos.to_uint p); [congruence|reflexivity..].
Qed.

Lemma minus_one_in_order (j : Z) : (0 <= j)%Z -> misordered (-1) j = false.
Proof.
  intros Hj. unfold misordered. rewrite Z.max_r, Z.min_l by lia.
  change (number_toString (-1)) with "-1".
  rewrite ltb_antisym.
  - rewrite minus_one_sorts_first by exact Hj. reflexivity.
  - intros Heq. pose proof (minus_one_sorts_first Hj) as H.
    rewrite Heq, ltb_irrefl in H. discriminate H.
Qed.

Lemma indexOf_from_nth (l : list nat) (t : nat) (i : Z) :
  In t l -> nth_error l (Z.to_nat (indexOf_from l (El t) i - i)) = Some t.
Proof.
  revert i. induction l as [|y l IH]; intros i Hin; [destruct Hin|].
  cbn [indexOf_from elref_eqb]. destruct (Nat.eqb y t) eqn:Hy.
  - apply Nat.eqb_eq in Hy. subst y. rewrite Z.sub_diag. reflexivity.
  - destruct Hin as [Heq|Hin]; [apply Nat.eqb_neq in Hy; congruence|].
    pose proof (indexOf_from_bounds l t (i + 1) Hin) as Hb.
    specialize (IH (i + 1)%Z Hin).
    replace (Z.to_nat (indexOf_from l (El t) (i + 1) - i))
      with (S (Z.to_nat (indexOf_from l (El t) (i + 1) - (i + 1)))) by lia.
    exact IH.
Qed.

Lemma skipn_last (A : Type) (l : list A) (x : A) :
  nth_error l (List.length l - 1) = Some x -> skipn (List.length l - 1) l = [x].
Proof.
  destruct (rev l) as [|y front] eqn:Hrev.
  - assert (Hl : l = []) by (rewrite <- (rev_involutive l), Hrev; reflexivity).
    subst l. discriminate.
  - assert (Hl : l = (rev front ++ [y])%list)
      by (rewrite <- (rev_involutive l), Hrev; reflexivity).
    subst l. rewrite length_app. cbn [List.length].
    replace (List.length (rev front) + 1 - 1) with (List.length (rev front)) by lia.
    rewrite nth_error_app2 by lia. rewrite Nat.sub_diag. cbn [nth_error].
    intros H. injection H as <-.
    rewrite skipn_app, Nat.sub_diag, skipn_all. reflexivity.
Qed.

(** From index -1 the slice starts at the last option: it holds that
    option, when the other index is the last one, and nothing otherwise. *)
Lemma slice_from_minus_one (l : list nat) (t : nat) :
  In t l ->
  slice l (-1) (indexOf l (El t) + 1)
  = if (indexOf l (El t) =? Z.of_nat (List.length l) - 1)%Z then [t] else [].
Proof.
  intros Hin. pose proof (indexOf_bounds l t Hin) as Hb.
  pose proof (indexOf_from_nth l t 0 Hin) as Hnth. fold (indexOf l (El t)) in Hnth.
  rewrite Z.sub_0_r in Hnth.
  unfold slice, relative_index. cbn [Z.ltb Z.compare].
  replace (indexOf l (El t) + 1 <? 0)%Z with false by (symmetry; apply Z.ltb_ge; lia).
  replace (Z.max (Z.of_nat (List.length l) + -1) 0) with (Z.of_nat (List.length l) - 1)%Z
    by lia.
  replace (Z.min (indexOf l (El t) + 1) (Z.of_nat (List.length l)))
    with (indexOf l (El t) + 1)%Z by lia.
  destruct (indexOf l (El t) =? Z.of_nat (List.length l) - 1)%Z eqn:E.
  - apply Z.eqb_eq in E. rewrite E in Hnth |- *.
    replace (Z.to_nat (Z.of_nat (List.length l) - 1 + 1 - (Z.of_nat (List.length l) - 1)))
      with 1 by lia.
    replace (Z.to_nat (Z.of_nat (List.length l) - 1)) with (List.length l - 1) in * by lia.
    rewrite (skipn_last l Hnth). reflexivity.
  - apply Z.eqb_neq in E.
    replace (Z.to_nat (indexOf l (El t) + 1 - (Z.of_nat (List.length l) - 1))) with 0 by lia.
    reflexivity.
Qed.

(** X23 (a reference that is no longer in the list): in multiselect mode,
    when the reference of the range operation (the anchor stored at the
    press of Shift) is not an option of the current list and the target is,
    the operation returns and makes the target the anchor; it writes nothing
    unless the target is the last option of the list; then it writes the
    target alone, giving it the selected state of the element that was the
    reference (under Ctrl: deselecting it if it was selected, selecting it
    otherwise). *)
Theorem range_operation_from_outside_the_list (s : State) (r t : nat) (ctrl : bool) :
  multiSelectable s = true ->
  ~ In r (options (this s)) -> In t (options (this s)) ->
  fst (updateMultiselect (El t) (El r) ctrl s) = Returns tt /\
  shiftStartingItem (this (after (updateMultiselect (El t) (El r) ctrl) s)) = El t /\
  forall q,
    Dom.selected (dom (after (updateMultiselect (El t) (El r) ctrl) s) q)
    = if (indexOf (options (this s)) (El t) =? Z.of_nat (List.length (options (this s))) - 1)%Z
         && Nat.eqb q t
      then range_state s [t] r ctrl
      else Dom.selected (dom s q).
Proof.
  intros Hm Hr Ht.
  destruct (updateMultiselect_run s (El t) r ctrl Hm) as (Hret & _).
  destruct (updateMultiselect_effect s (El t) r ctrl Hm) as (s1 & Hsame & Hsel & Hsnd).
  assert (Hrange : written_range s (El t) (El r)
                   = if (indexOf (options (this s)) (El t)
                         =? Z.of_nat (List.length (options (this s))) - 1)%Z
                     then [t] else []).
  { unfold written_range.
    pose proof (indexOf_bounds _ _ Ht) as Hb.
    assert (Habsent : indexOf (options (this s)) (El r) = (-1)%Z)
      by (apply indexOf_from_absent; exact Hr).
    rewrite Habsent, sort_two, minus_one_in_order by lia.
    rewrite Z.min_l, Z.max_r by lia. cbn [nth].
    apply slice_from_minus_one. exact Ht. }
  rewrite Hrange in Hsel.
  unfold after. rewrite Hsnd.
  split; [exact Hret|]. split; [reflexivity|].
  intros q. cbn [with_this dom]. rewrite (Hsel q).
  destruct (indexOf (options (this s)) (El t) =? Z.of_nat (List.length (options (this s))) - 1)%Z;
    cbn [includes existsb andb]; [|reflexivity].
  rewrite orb_false_r. reflexivity.
Qed.

(** The theorem at the eight colours in multiselect mode with Green
    selected, for a reference that is no option (the element at address 8)
    and Orange as the target: nothing is written. *)
Lemma range_operation_from_outside_the_list_witness :
  ~ In 8 (options (this eight_multi_green)) /\
  forall q,
    Dom.selected (dom (after (updateMultiselect (El 3) (El 8) false) eight_multi_green) q)
    = Dom.selected (dom eight_multi_green q).
Proof.
  assert (Hm : multiSelectable eight_multi_green = true) by (vm_compute; reflexivity).
  assert (Hopts : options (this eight_multi_green) = seq 0 8) by (vm_compute; reflexivity).
  assert (Hr : ~ In 8 (options (this eight_multi_green)))
    by (rewrite Hopts; intros Hin; apply in_seq in Hin; lia).
  assert (Ht : In 3 (options (this eight_multi_green))) by (rewrite Hopts; apply in_seq; lia).
  split; [exact Hr|].
  destruct (@range_operation_from_outside_the_list eight_multi_green 8 3 false Hm Hr Ht)
    as (_ & _ & Hflags).
  intros q. rewrite (Hflags q).
  replace (indexOf (options (this eight_multi_green)) (El 3)
           =? Z.of_nat (List.length (options (this eight_multi_green))) - 1)%Z
    with false by (vm_compute; reflexivity).
  reflexivity.
Defined.

(** ** Focus and the active descendant *)

Lemma visibleOptions_marks_only :
  preserves (unchanged (fun s q => (Dom.id_attr (dom s q), Dom.active_descendant (dom s q))))
            visibleOptions.
Proof. open_controller. unseen. Qed.

Lemma visibleOptions_keeps_fields :
  preserves (unchanged (fun s (_ : unit) => (internals s, tabindex s, options (this s))))
            visibleOptions.
Proof. open_controller. unseen. Qed.

Lemma mark_active_keeps :
  forall o, preserves (unchanged (fun s (_ : unit) => (tabindex s, filter_inputs s))) (mark_active o).
Proof. intros o. open_controller. unseen. Qed.

Lemma mark_active_keeps_content :
  forall o, preserves (unchanged (fun s q => (Dom.id_attr (dom s q), Dom.textContent (dom s q))))
                      (mark_active o).
Proof. intros o. open_controller. unseen. Qed.

(** One round of the loop. *)
Lemma mark_active_step (s0 : State) (t : nat) (v : list nat) (o : nat) (s : State) :
  In t v ->
  focused_on s0 t v s ->
  fst (mark_active o s) = Returns tt /\
  focused_on s0 t v (snd (mark_active o s)) /\
  (forall q, Dom.active_descendant (dom (snd (mark_active o s)) q)
             = if Nat.eqb q o then Nat.eqb o t else Dom.active_descendant (dom s q)) /\
  Internals.ariaActivedescendant (internals (snd (mark_active o s)))
  = if Nat.eqb o t then Some (Dom.id (dom s0 t))
    else if option_string_eqb (Internals.ariaActivedescendant (internals s))
                              (Some (Dom.id (dom s0 o)))
         then None
         else Internals.ariaActivedescendant (internals s).
Proof.
  intros Hvis (Hactive & Hv & Hopts & Hids).
  assert (Hinv : focused_on s0 t v (snd (mark_active o s))).
  { pose proof (mark_active_keeps o s tt) as Hk. cbv beta in Hk.
    pose proof (f_equal fst Hk) as Htab. pose proof (f_equal snd Hk) as Hin.
    cbn [fst snd] in Htab, Hin.
    pose proof (mark_active_keeps_content o s) as Hc.
    unfold focused_on. split; [rewrite Htab; exact Hactive|]. split; [|split].
    - rewrite <- Hv. apply visibleOptions_congr; [exact Hin|].
      intros q. exact (f_equal snd (Hc q)).
    - apply filter_inputs_eq in Hin. destruct Hin as (_ & _ & _ & _ & _ & Ho).
      rewrite Ho. exact Hopts.
    - intros q. rewrite <- (Hids q). exact (f_equal fst (Hc q)). }
  split; [|split; [exact Hinv|]].
  - unfold mark_active. rewrite bind_get, Hactive. cbn [elref_eqb].
    destruct (Nat.eqb o t).
    + rewrite bind_fst_snd, bind_fst_snd, Hv. cbn [ret fst snd].
      rewrite bind_get.
      destruct (includes v o); [reflexivity|].
      destruct (option_string_eqb _ _); reflexivity.
    + rewrite bind_fst_snd. cbn [ret fst snd]. rewrite bind_get.
      destruct (option_string_eqb _ _); reflexivity.
  - unfold mark_active. rewrite bind_get, Hactive. cbn [elref_eqb].
    destruct (Nat.eqb o t) eqn:Hot.
    + apply Nat.eqb_eq in Hot. subst o.
      assert (Hrun : (visible <- visibleOptions ;; ret (includes visible t)) s
                     = (Returns true, snd (visibleOptions s))).
      { rewrite (pair_run (visible <- visibleOptions ;; ret (includes visible t)) s).
        rewrite !bind_fst_snd, Hv. cbn [ret fst snd].
        rewrite (proj2 (includes_In v t) Hvis). reflexivity. }
      erewrite bind_returns; [|exact Hrun]. rewrite bind_get.
      pose proof (visibleOptions_marks_only s) as Hm. cbv beta in Hm.
      split.
      * intros q. cbn [bind modify set_active_descendant snd with_dom with_internals dom].
        unfold Dom.update. destruct (Nat.eqb q t); [reflexivity|].
        exact (f_equal snd (Hm q)).
      * cbn [bind modify set_active_descendant snd with_dom with_internals internals
             Internals.with_ariaActivedescendant Internals.ariaActivedescendant].
        unfold Dom.id. rewrite (f_equal fst (Hm t) : Dom.id_attr _ = Dom.id_attr (dom s t)).
        rewrite Hids. reflexivity.
    + erewrite bind_returns; [|reflexivity]. rewrite bind_get.
      assert (Hid : Dom.id (dom s o) = Dom.id (dom s0 o)) by (unfold Dom.id; rewrite Hids; reflexivity).
      rewrite Hid.
      destruct (option_string_eqb (Internals.ariaActivedescendant (internals s))
                                  (Some (Dom.id (dom s0 o)))); cbn [when]; split;
        try (intros q; cbn [bind modify ret set_active_descendant snd with_dom with_internals dom];
             unfold Dom.update; destruct (Nat.eqb q o); reflexivity);
        reflexivity.
Qed.

Lemma distinct_ids (s : State) (a b : nat) :
  unique_ids s -> In a (options (this s)) -> In b (options (this s)) -> a <> b ->
  option_string_eqb (Some (Dom.id (dom s a))) (Some (Dom.id (dom s b))) = false.
Proof.
  intros [Hsome Hinj] Ha Hb Hne. unfold Dom.id.
  pose proof (Hsome a Ha) as Hna. pose proof (Hsome b Hb) as Hnb.
  destruct (Dom.id_attr (dom s a)) as [ia|] eqn:Hia; [|congruence].
  destruct (Dom.id_attr (dom s b)) as [ib|] eqn:Hib; [|congruence].
  cbn [option_string_eqb]. apply String.eqb_neq. intros Heq. subst ib.
  apply Hne. apply Hinj; [exact Ha|exact Hb|congruence].
Qed.

(** The loop over a part [l] of the options. *)
Lemma publish_loop (s0 : State) (t : nat) (v l : list nat) :
  unique_ids s0 -> In t (options (this s0)) -> In t v ->
  (forall o, In o l -> In o (options (this s0))) ->
  forall s, focused_on s0 t v s ->
    fst (forEach l mark_active s) = Returns tt /\
    focused_on s0 t v (snd (forEach l mark_active s)) /\
    (forall q, Dom.active_descendant (dom (snd (forEach l mark_active s)) q)
               = if includes l q then Nat.eqb q t else Dom.active_descendant (dom s q)) /\
    (In t l \/ Internals.ariaActivedescendant (internals s) = Some (Dom.id (dom s0 t)) ->
     Internals.ariaActivedescendant (internals (snd (forEach l mark_active s)))
     = Some (Dom.id (dom s0 t))).
Proof.
  intros Hunique Ht Hvis. induction l as [|o l IH]; intros Hl s Hinv.
  - cbn [forEach ret fst snd includes existsb]. split; [reflexivity|]. split; [exact Hinv|].
    split; [reflexivity|]. intros [[]|Haria]. exact Haria.
  - destruct (mark_active_step o Hvis Hinv) as (Hret & Hinv1 & Hflag & Haria).
    cbn [forEach]. rewrite !bind_fst_snd, Hret.
    set (s1 := snd (mark_active o s)) in *.
    assert (Hl' : forall x, In x l -> In x (options (this s0)))
      by (intros x Hx; apply Hl; right; exact Hx).
    destruct (IH Hl' s1 Hinv1) as (Hret2 & Hinv2 & Hflag2 & Haria2).
    split; [exact Hret2|]. split; [exact Hinv2|]. split.
    + intros q. rewrite (Hflag2 q), (Hflag q). cbn [includes existsb]. fold (includes l q).
      destruct (Nat.eqb q o) eqn:Hq; cbn [orb]; [|reflexivity].
      apply Nat.eqb_eq in Hq. subst q. destruct (includes l o); reflexivity.
    + intros Hpre. apply Haria2.
      destruct (Nat.eqb o t) eqn:Hot.
      * right. rewrite Haria. reflexivity.
      * apply Nat.eqb_neq in Hot.
        destruct Hpre as [[Heq|Hin]|Hs]; [congruence|left; exact Hin|].
        right. rewrite Haria, Hs.
        assert (Ho : In o (options (this s0))) by (apply Hl; left; reflexivity).
        rewrite (distinct_ids Hunique Ht Ho) by congruence. reflexivity.
Qed.

(** The eight colours carry distinct ids. *)
Lemma eight_colours_ids : unique_ids eight_colours.
Proof.
  assert (Hopts : options (this eight_colours) = seq 0 8) by (vm_compute; reflexivity).
  unfold unique_ids. rewrite Hopts. split.
  - intros a Ha. cbn [seq In] in Ha.
    repeat (destruct Ha as [<-|Ha]; [vm_compute; intros Heq; discriminate Heq|]).
    destruct Ha.
  - intros a b Ha Hb. cbn [seq In] in Ha, Hb.
    repeat (destruct Ha as [<-|Ha]; [
      repeat (destruct Hb as [<-|Hb];
              [first [reflexivity | vm_compute; intros Heq; discriminate Heq]|]);
      destruct Hb|]).
    destruct Ha.
Qed.

(** X24 (a focus event publishes the active descendant): with options that
    carry distinct ids, a focus tracker that holds items and a filter from
    which the visible options can be derived, a focus event on a visible
    option returns; that option is then the tracker's active item, its id is
    the active descendant published to assistive technology, it alone among
    the options carries the active-descendant attribute, and the
    controller's [activeItem] getter answers that option.  No selected flag
    changes. *)
Theorem focus_publishes_the_active_descendant (s : State) (t : nat) (v : list nat) :
  unique_ids s ->
  RovingTabindex.items (tabindex s) <> [] ->
  fst (visibleOptions s) = Returns v ->
  In t v ->
  fst (onOptionFocus (El t) s) = Returns tt /\
  RovingTabindex.activeItem (tabindex (handle (OptionFocus (El t)) s)) = El t /\
  Internals.ariaActivedescendant (internals (handle (OptionFocus (El t)) s))
  = Some (Dom.id (dom s t)) /\
  (forall q, In q (options (this s)) ->
             Dom.active_descendant (dom (handle (OptionFocus (El t)) s) q) = Nat.eqb q t) /\
  activeItem (handle (OptionFocus (El t)) s) = El t /\
  (forall q, Dom.selected (dom (handle (OptionFocus (El t)) s) q) = Dom.selected (dom s q)).
Proof.
  intros Hunique Hitems Hv Hvis.
  assert (Ht : In t (options (this s)))
    by (apply (proj2 (visibleOptions_returns s Hv)); exact Hvis).
  set (s1 := snd (when (negb (elref_eqb (El t) (RovingTabindex.activeItem (tabindex s))))
                       (modify (with_tabindex (RovingTabindex.updateActiveItem (El t)))) s)).
  assert (Hs1 : focused_on s t v s1 /\ internals s1 = internals s /\ dom s1 = dom s).
  { unfold s1. destruct (elref_eqb (El t) (RovingTabindex.activeItem (tabindex s))) eqn:E;
      cbn [negb when ret modify snd].
    - split; [|split; reflexivity]. unfold focused_on. split; [|split; [exact Hv|split; reflexivity]].
      destruct (RovingTabindex.activeItem (tabindex s)) as [| |a]; cbn [elref_eqb] in E;
        try discriminate.
      apply Nat.eqb_eq in E. congruence.
    - split; [|split; reflexivity]. unfold focused_on. split; [|split; [|split; reflexivity]].
      + cbn [with_tabindex tabindex]. unfold RovingTabindex.updateActiveItem.
        destruct (RovingTabindex.items (tabindex s)); [congruence|reflexivity].
      + rewrite <- Hv. apply visibleOptions_congr; [reflexivity|intros q; reflexivity]. }
  destruct Hs1 as (Hinv & Hint & Hdom).
  assert (Hstep : onOptionFocus (El t) s = forEach (options (this s)) mark_active s1).
  { unfold onOptionFocus. rewrite bind_get. unfold s1.
    destruct (negb (elref_eqb (El t) (RovingTabindex.activeItem (tabindex s)))); reflexivity. }
  destruct (publish_loop (options (this s)) Hunique Ht Hvis (fun o H => H) Hinv)
    as (Hret & Hinv' & Hflag & Haria).
  cbn [handle]. rewrite Hstep.
  set (final := snd (forEach (options (this s)) mark_active s1)) in *.
  destruct Hinv' as (Hactive & _ & Hopts & Hids).
  specialize (Haria (or_introl Ht)).
  split; [exact Hret|]. split; [exact Hactive|]. split; [exact Haria|]. split; [|split].
  - intros q Hq. rewrite (Hflag q), (proj2 (includes_In _ _) Hq). reflexivity.
  - apply activeItem_of_id.
    + destruct Hunique as [Hsome Hinj]. unfold unique_ids. rewrite Hopts. split.
      * intros a Ha. rewrite Hids. apply Hsome. exact Ha.
      * intros a b Ha Hb. rewrite !Hids. apply Hinj; assumption.
    + rewrite Hopts. exact Ht.
    + rewrite Haria. unfold Dom.id. rewrite Hids. cbn [option_string_eqb].
      apply String.eqb_refl.
  - intros q. unfold final. rewrite <- Hstep.
    destruct (onOptionFocus_frame (El t) s) as (_ & _ & _ & _ & Hsel & _). apply Hsel.
Qed.

(** The theorem at the eight colours: a focus event on Purple. *)
Lemma focus_publishes_the_active_descendant_witness :
  fst (visibleOptions eight_colours) = Returns (seq 0 8) /\
  Internals.ariaActivedescendant (internals (handle (OptionFocus (El 4)) eight_colours))
  = Some "option-Purple".
Proof.
  assert (Hv : fst (visibleOptions eight_colours) = Returns (seq 0 8))
    by (vm_compute; reflexivity).
  pose proof eight_colours_ids as Hunique.
  assert (Hitems : RovingTabindex.items (tabindex eight_colours) <> [])
    by (vm_compute; intros Heq; discriminate Heq).
  assert (Hvis : In 4 (seq 0 8)) by (apply in_seq; lia).
  split; [exact Hv|].
  destruct (@focus_publishes_the_active_descendant eight_colours 4 (seq 0 8)
              Hunique Hitems Hv Hvis) as (_ & _ & Haria & _).
  rewrite Haria. vm_compute. reflexivity.
Defined.

(** ** Select-all under a filter *)

(** X25 (Ctrl+A between the ends of the visible options): in multiselect
    mode Ctrl+A runs the range operation from the last to the first item of
    the focus tracker, which holds the visible options.  When both are
    options of the list it returns, stops the event and dispatches one
    [change]; unless [sort()] misorders the two indices it writes every
    option of the full list from the first visible one to the last visible
    one, the options hidden by the filter in between included, and none
    before or after: all are deselected if all were selected, and selected
    otherwise.  The first visible option becomes the anchor. *)
Theorem ctrl_a_writes_between_the_visible_ends
        (s : State) (k : KeyboardEvent) (first last : nat) :
  multiSelectable s = true ->
  ctrlKey k = true -> altKey k = false -> metaKey k = false -> is_a_key (key k) = true ->
  RovingTabindex.firstItem (tabindex s) = El first ->
  RovingTabindex.lastItem (tabindex s) = El last ->
  In first (options (this s)) -> In last (options (this s)) ->
  fst (onOptionKeydown k s) = Returns true /\
  shiftStartingItem (this (handle (Keydown k) s)) = El first /\
  dispatched (handle (Keydown k) s) = Change :: dispatched s /\
  (misordered (indexOf (options (this s)) (El last)) (indexOf (options (this s)) (El first))
   = false ->
   forall q,
     Dom.selected (dom (handle (Keydown k) s) q)
     = if includes (index_range s last first) q
       then negb (forallb (fun o => Dom.selected (dom s o)) (index_range s last first))
       else Dom.selected (dom s q)) /\
  (misordered (indexOf (options (this s)) (El last)) (indexOf (options (this s)) (El first))
   = true ->
   forall q, Dom.selected (dom (handle (Keydown k) s) q) = Dom.selected (dom s q)).
Proof.
  intros Hm Hctrl Halt Hmeta Ha Hfirst Hlast Hf Hl.
  assert (Hkey : String.eqb (key k) "Shift" = false).
  { unfold is_a_key in Ha. apply orb_true_iff in Ha.
    destruct Ha as [Ha|Ha]; apply String.eqb_eq in Ha; rewrite Ha; reflexivity. }
  set (s0 := with_this (put_showAllOptions false) s).
  destruct (updateMultiselect_run s0 (El first) last true Hm) as (Hret & _).
  destruct (updateMultiselect_effect s0 (El first) last true Hm) as (s1 & Hsame & Hsel & Hsnd).
  rewrite (written_range_or_nothing s0 last first Hl Hf) in Hsel.
  assert (Hstep : onOptionKeydown k s
                  = keydown_end (value s0) true Undefined
                      (with_this (put_shiftStartingItem (El first)) s1)).
  { rewrite (onOptionKeydown_other_key k s Hkey). fold s0.
    unfold keydown_branches. rewrite bind_get. cbv zeta.
    change (tabindex s0) with (tabindex s).
    rewrite Halt, Hmeta, Hctrl, Ha, Hfirst, Hlast. cbn [orb andb truthy].
    erewrite bind_returns; [reflexivity|].
    rewrite (pair_run (updateMultiselect (El first) (El last) true) s0), Hret, Hsnd.
    reflexivity. }
  assert (Hneq : forall x, strict_neq (value s0) x = true).
  { intros x. unfold value. change (multiSelectable s0) with (multiSelectable s).
    rewrite Hm. reflexivity. }
  cbn [handle]. rewrite Hstep, keydown_end_run, Hneq. cbn [fst snd].
  destruct Hsame as (_ & _ & _ & _).
  split; [reflexivity|]. split; [reflexivity|]. split; [|split].
  - cbn [dispatchEvent dispatched with_this].
    assert (Hd : preserves (unchanged (fun s (_ : unit) => dispatched s))
                           (updateMultiselect (El first) (El last) true))
      by (open_controller; unseen).
    pose proof (Hd s0 tt) as Hd0. cbv beta in Hd0. rewrite Hsnd in Hd0.
    cbn [with_this dispatched] in Hd0. rewrite Hd0. reflexivity.
  - intros Hmis q. change (options (this s0)) with (options (this s)) in Hsel.
    rewrite Hmis in Hsel. exact (Hsel q).
  - intros Hmis q. change (options (this s0)) with (options (this s)) in Hsel.
    rewrite Hmis in Hsel. exact (Hsel q).
Qed.

(** The theorem at the eight colours filtered by "r" anywhere, which shows
    Green, Orange, Purple and Red: Ctrl+A selects the hidden Magenta, between
    Green and Red, and leaves Blue, before Green, unselected. *)
Lemma ctrl_a_writes_between_the_visible_ends_witness :
  RovingTabindex.items (tabindex eight_multi_filtered) = [1; 3; 4; 6] /\
  Dom.selected (dom (handle (Keydown (ctrl_a 1)) eight_multi_filtered) 2) = true /\
  Dom.selected (dom (handle (Keydown (ctrl_a 1)) eight_multi_filtered) 0) = false.
Proof.
  assert (Hm : multiSelectable eight_multi_filtered = true) by (vm_compute; reflexivity).
  assert (Hfirst : RovingTabindex.firstItem (tabindex eight_multi_filtered) = El 1)
    by (vm_compute; reflexivity).
  assert (Hlast : RovingTabindex.lastItem (tabindex eight_multi_filtered) = El 6)
    by (vm_compute; reflexivity).
  assert (Hopts : options (this eight_multi_filtered) = seq 0 8) by (vm_compute; reflexivity).
  assert (Hf : In 1 (options (this eight_multi_filtered))) by (rewrite Hopts; apply in_seq; lia).
  assert (Hl : In 6 (options (this eight_multi_filtered))) by (rewrite Hopts; apply in_seq; lia).
  destruct (@ctrl_a_writes_between_the_visible_ends eight_multi_filtered (ctrl_a 1) 1 6
              Hm eq_refl eq_refl eq_refl eq_refl Hfirst Hlast Hf Hl)
    as (_ & _ & _ & Hrange & _).
  assert (Hmis : misordered (indexOf (options (this eight_multi_filtered)) (El 6))
                            (indexOf (options (this eight_multi_filtered)) (El 1)) = false)
    by (vm_compute; reflexivity).
  split; [vm_compute; reflexivity|]. split.
  - rewrite (Hrange Hmis 2). vm_compute. reflexivity.
  - rewrite (Hrange Hmis 0). vm_compute. reflexivity.
Defined.

(** ** The Shift key and the keyboard range *)

(** X26 (the keyboard range starts at the active item): in multiselect mode
    a press of the Shift key, whatever other modifier is held, stores the
    active item as the anchor.  Shift+Enter or Shift+Space on an option runs
    the range operation from the active item, not from the stored anchor, to
    that option: it returns and stops the event, selects as the range
    operation from the active item does, makes the option the anchor and
    dispatches one [change]. *)
Theorem keyboard_range_starts_at_the_active_item (s : State) :
  multiSelectable s = true ->
  (forall k, key k = "Shift" ->
             shiftStartingItem (this (handle (Keydown k) s)) = activeItem s) /\
  (forall k a t,
     is_commit_key k = true -> shiftKey k = true -> target k = El t ->
     activeItem s = El a ->
     fst (onOptionKeydown k s) = Returns true /\
     (forall q, Dom.selected (dom (handle (Keydown k) s) q)
                = Dom.selected (dom (after (updateMultiselect (El t) (El a) false) s) q)) /\
     shiftStartingItem (this (handle (Keydown k) s)) = El t /\
     dispatched (handle (Keydown k) s) = Change :: dispatched s).
Proof.
  intros Hm. split.
  - intros k Hkey. cbn [handle]. unfold onOptionKeydown.
    unfold bind at 1. cbn [modify]. rewrite bind_get.
    set (s0 := with_this (put_showAllOptions false) s).
    change (multiSelectable s0) with (multiSelectable s).
    rewrite Hkey, Hm. cbn [String.eqb Ascii.eqb Bool.eqb andb when].
    unfold bind at 1. cbn [modify].
    set (s1 := with_this (put_shiftStartingItem (activeItem s0)) s0).
    assert (Hrun : shiftStartingItem (this (snd (keydown_branches k s1)))
                   = shiftStartingItem (this s1)).
    { unfold keydown_branches. rewrite bind_get. cbv zeta. rewrite Hkey.
      destruct (altKey k || metaKey k); [reflexivity|].
      destruct (ctrlKey k); [reflexivity|].
      cbn [is_word_key String.eqb Ascii.eqb Bool.eqb orb].
      rewrite keydown_end_run.
      destruct (strict_neq (value s1) (value s1)); reflexivity. }
    exact Hrun.
  - intros k a t Hkey Hshift Htarget Hactive.
    set (s0 := with_this (put_showAllOptions false) s).
    destruct (updateMultiselect_run s0 (El t) a false Hm) as (Hret & _).
    destruct (updateMultiselect_effect s0 (El t) a false Hm) as (s1 & Hsame & Hsel & Hsnd).
    destruct (updateMultiselect_effect s (El t) a false Hm) as (s1' & _ & Hsel' & Hsnd').
    assert (Hstep : onOptionKeydown k s
                    = keydown_end (value s0) true Undefined
                        (with_this (put_shiftStartingItem (El t)) s1)).
    { rewrite (commit_key_branches k s Hkey). cbv zeta. fold s0.
      rewrite Htarget, Hshift. cbn [truthy].
      change (multiSelectable s0) with (multiSelectable s). rewrite Hm.
      change (activeItem s0) with (activeItem s). rewrite Hactive.
      erewrite bind_returns; [reflexivity|].
      rewrite (pair_run (updateMultiselect (El t) (El a) false) s0), Hret, Hsnd.
      reflexivity. }
    assert (Hneq : forall x, strict_neq (value s0) x = true).
    { intros x. unfold value. change (multiSelectable s0) with (multiSelectable s).
      rewrite Hm. reflexivity. }
    cbn [handle]. rewrite Hstep, keydown_end_run, Hneq. cbn [fst snd].
    split; [reflexivity|]. split; [|split; [reflexivity|]].
    + intros q. unfold after. rewrite Hsnd'. cbn [dispatchEvent with_this dom].
      rewrite (Hsel q), (Hsel' q). reflexivity.
    + cbn [dispatchEvent dispatched with_this].
      assert (Hd : preserves (unchanged (fun s (_ : unit) => dispatched s))
                             (updateMultiselect (El t) (El a) false))
        by (open_controller; unseen).
      pose proof (Hd s0 tt) as Hd0. cbv beta in Hd0. rewrite Hsnd in Hd0.
      cbn [with_this dispatched] in Hd0. rewrite Hd0. reflexivity.
Qed.

(** The theorem at the eight colours in multiselect mode with Green
    selected and Blue the active item: Shift+Enter on Magenta gives Blue's
    state, unselected, to Blue, Green and Magenta. *)
Lemma keyboard_range_starts_at_the_active_item_witness :
  activeItem eight_multi_green = El 0 /\
  Dom.selected (dom eight_multi_green 1) = true /\
  Dom.selected
    (dom (handle (Keydown {| key := "Enter"; altKey := false; metaKey := false;
                            ctrlKey := false; shiftKey := true; target := El 2 |})
                 eight_multi_green) 1) = false.
Proof.
  assert (Hm : multiSelectable eight_multi_green = true) by (vm_compute; reflexivity).
  assert (Hactive : activeItem eight_multi_green = El 0) by (vm_compute; reflexivity).
  split; [exact Hactive|]. split; [vm_compute; reflexivity|].
  destruct (proj2 (keyboard_range_starts_at_the_active_item eight_multi_green Hm)
              {| key := "Enter"; altKey := false; metaKey := false;
                 ctrlKey := false; shiftKey := true; target := El 2 |} 0 2
              eq_refl eq_refl eq_refl Hactive) as (_ & Hflags & _).
  rewrite (Hflags 1). vm_compute. reflexivity.
Defined.

(** ** A click and the focus *)

(** The selecting part of the click handler, on an option: it returns, and
    writes no tracker state, accessibility property, input focus, filter
    input, id, text or active-descendant attribute. *)
Lemma click_selection (e : MouseEvent) (s : State) (t : nat) :
  mouse_target e = El t ->
  exists s1,
    onOptionClick e s = click_end (value s) (El t) s1 /\
    unchanged (fun s (_ : unit) => (internals s, tabindex s, activeElement s, filter_inputs s))
              s s1 /\
    unchanged (fun s q => (Dom.id_attr (dom s q), Dom.textContent (dom s q),
                           Dom.active_descendant (dom s q))) s s1.
Proof.
  intros Ht. unfold onOptionClick. rewrite bind_get. cbv zeta. rewrite Ht.
  match goal with |- context [bind ?m _ s] => set (sel := m) end.
  assert (Hret : fst (sel s) = Returns tt).
  { unfold sel. destruct (multiSelectable s) eqn:Hm.
    - destruct (mouse_shiftKey e); cbn [negb].
      + destruct (shiftStartingItem (this s)) as [| |a]; cbn [truthy andb when]; try reflexivity.
        rewrite bind_fst_snd.
        rewrite (proj1 (updateMultiselect_run s (El t) a false Hm)). reflexivity.
      + reflexivity.
    - apply (proj1 (forEach_assign_const (fun o => elref_eqb (El o) (El t)) (options (this s)) s)). }
  exists (snd (sel s)). split.
  - rewrite bind_fst_snd, Hret. reflexivity.
  - split.
    + assert (H : preserves (unchanged (fun s (_ : unit) =>
                     (internals s, tabindex s, activeElement s, filter_inputs s))) sel)
        by (unfold sel; open_controller; unseen).
      apply H.
    + assert (H : preserves (unchanged (fun s q =>
                     (Dom.id_attr (dom s q), Dom.textContent (dom s q),
                      Dom.active_descendant (dom s q)))) sel)
        by (unfold sel; open_controller; unseen).
      apply H.
Qed.

Lemma click_tail_keeps (old : ListboxValue) :
  preserves (unchanged (fun s q => (internals s, tabindex s, activeElement s,
                                    Dom.active_descendant (dom s q))))
            (s2 <- get ;; when (strict_neq old (value s2)) fireChange).
Proof. open_controller. unseen. Qed.

(** X27 (a click and the focus): a click on the option that is the focus
    tracker's active item publishes nothing, whatever it selects: the
    accessibility properties, the tracker, the input focus and every
    active-descendant attribute stay as they were.  A click on a visible
    option that is not the tracker's active item (ids distinct, tracker not
    empty, visible options derivable) returns, makes the option the
    tracker's active item, moves the input focus to it and publishes its id
    as the active descendant; it alone among the options carries the
    attribute. *)
Theorem click_moves_the_focus (s : State) (e : MouseEvent) (t : nat) :
  mouse_target e = El t ->
  (RovingTabindex.activeItem (tabindex s) = El t ->
   internals (handle (Click e) s) = internals s /\
   tabindex (handle (Click e) s) = tabindex s /\
   activeElement (handle (Click e) s) = activeElement s /\
   forall q, Dom.active_descendant (dom (handle (Click e) s) q)
             = Dom.active_descendant (dom s q)) /\
  (forall v,
     RovingTabindex.activeItem (tabindex s) <> El t ->
     unique_ids s ->
     RovingTabindex.items (tabindex s) <> [] ->
     fst (visibleOptions s) = Returns v ->
     In t v ->
     fst (onOptionClick e s) = Returns tt /\
     RovingTabindex.activeItem (tabindex (handle (Click e) s)) = El t /\
     activeElement (handle (Click e) s) = El t /\
     Internals.ariaActivedescendant (internals (handle (Click e) s))
     = Some (Dom.id (dom s t)) /\
     forall q, In q (options (this s)) ->
               Dom.active_descendant (dom (handle (Click e) s) q) = Nat.eqb q t).
Proof.
  intros Ht.
  destruct (click_selection e s Ht) as (s1 & Hstep & Hfields & Helems).
  pose proof (Hfields tt) as Hf. cbv beta in Hf.
  assert (Hint : internals s1 = internals s) by congruence.
  assert (Htab : tabindex s1 = tabindex s) by congruence.
  assert (Hfocus : activeElement s1 = activeElement s) by congruence.
  assert (Hin : filter_inputs s1 = filter_inputs s) by congruence.
  cbn [handle]. rewrite Hstep. unfold click_end. rewrite bind_get, Htab.
  split.
  - intros Hactive. rewrite Hactive, elref_eqb_refl. cbn [negb when].
    rewrite bind_fst_snd. cbn [ret fst snd].
    pose proof (click_tail_keeps (value s) s1) as Hk.
    assert (Hall : forall q,
               (internals (snd ((s2 <- get ;; when (strict_neq (value s) (value s2)) fireChange) s1)),
                tabindex (snd ((s2 <- get ;; when (strict_neq (value s) (value s2)) fireChange) s1)),
                activeElement (snd ((s2 <- get ;; when (strict_neq (value s) (value s2)) fireChange) s1)),
                Dom.active_descendant
                  (dom (snd ((s2 <- get ;; when (strict_neq (value s) (value s2)) fireChange) s1)) q))
               = (internals s, tabindex s, activeElement s, Dom.active_descendant (dom s q))).
    { intros q. rewrite (Hk q). rewrite Hint, Htab, Hfocus.
      pose proof (Helems q) as Hq. cbv beta in Hq. congruence. }
    pose proof (Hall 0%nat) as H0.
    split; [congruence|]. split; [congruence|]. split; [congruence|].
    intros q. pose proof (Hall q) as Hq. congruence.
  - intros v Hother Hunique Hitems Hv Hvis.
    assert (Hguard : elref_eqb (El t) (RovingTabindex.activeItem (tabindex s)) = false).
    { destruct (RovingTabindex.activeItem (tabindex s)) as [| |a]; cbn [elref_eqb];
        try reflexivity.
      apply Nat.eqb_neq. intros Heq. apply Hother. congruence. }
    rewrite Hguard. cbn [negb when].
    assert (Hto : In t (options (this s)))
      by (apply (proj2 (visibleOptions_returns s Hv)); exact Hvis).
    set (s2 := with_activeElement (El t)
                 (with_tabindex (RovingTabindex.updateActiveItem (El t)) s1)).
    assert (Hmove : focusOnItem (El t) s1 = (Returns tt, s2)).
    { unfold focusOnItem. rewrite bind_get, Htab.
      destruct (RovingTabindex.items (tabindex s)) eqn:Hi; [congruence|].
      reflexivity. }
    assert (Hopts : options (this s1) = options (this s)).
    { destruct (filter_inputs_eq Hin) as (_ & _ & _ & _ & _ & Ho). exact Ho. }
    assert (Hinv : focused_on s t v s2).
    { unfold focused_on. split; [|split; [|split]].
      - unfold s2. cbn [with_activeElement with_tabindex tabindex].
        unfold RovingTabindex.updateActiveItem. rewrite Htab.
        destruct (RovingTabindex.items (tabindex s)); [congruence|reflexivity].
      - rewrite <- Hv. apply visibleOptions_congr; [exact Hin|].
        intros q. change (dom s2 q) with (dom s1 q).
        pose proof (Helems q) as Hq. cbv beta in Hq. congruence.
      - exact Hopts.
      - intros q. change (dom s2 q) with (dom s1 q).
        pose proof (Helems q) as Hq. cbv beta in Hq. congruence. }
    destruct (publish_loop (options (this s)) Hunique Hto Hvis (fun o H => H) Hinv)
      as (Hret & Hinv' & Hflag & Haria).
    specialize (Haria (or_introl Hto)).
    assert (Hpublish : (focusOnItem (El t) ;; updateActiveDescendant) s1
                       = (Returns tt, snd (forEach (options (this s)) mark_active s2))).
    { rewrite bind_fst_snd, Hmove. cbn [fst snd]. unfold updateActiveDescendant.
      rewrite bind_get. change (options (this s2)) with (options (this s1)). rewrite Hopts.
      rewrite (pair_run (forEach (options (this s)) mark_active) s2), Hret. reflexivity. }
    set (s3 := snd (forEach (options (this s)) mark_active s2)) in *.
    rewrite bind_fst_snd, Hpublish. cbn [fst snd].
    pose proof (click_tail_keeps (value s) s3) as Hk.
    set (tail := (s4 <- get ;; when (strict_neq (value s) (value s4)) fireChange)) in *.
    assert (Hdone : fst (tail s3) = Returns tt).
    { unfold tail. rewrite bind_get. destruct (strict_neq (value s) (value s3)); reflexivity. }
    destruct Hinv' as (Hactive & _ & _ & _).
    split; [exact Hdone|].
    pose proof (Hk 0%nat) as H0. cbv beta in H0.
    split; [congruence|]. split.
    + assert (Hkeep : preserves (unchanged (fun s (_ : unit) => activeElement s))
                                (forEach (options (this s)) mark_active))
        by (open_controller; unseen).
      pose proof (Hkeep s2 tt) as Ha. cbv beta in Ha. fold s3 in Ha.
      replace (activeElement (snd (tail s3))) with (activeElement s3) by congruence.
      rewrite Ha. reflexivity.
    + split; [congruence|].
      intros q Hq. pose proof (Hk q) as Hkq. cbv beta in Hkq.
      replace (Dom.active_descendant (dom (snd (tail s3)) q))
        with (Dom.active_descendant (dom s3 q)) by congruence.
      rewrite (Hflag q), (proj2 (includes_In _ _) Hq). reflexivity.
Qed.

(** The theorem at the eight colours: the first option is the tracker's
    active item from the start, and the first click on it selects it and
    leaves the active descendant unset; a click on Purple then publishes
    Purple. *)
Lemma click_moves_the_focus_witness :
  RovingTabindex.activeItem (tabindex eight_colours) = El 0 /\
  Dom.selected (dom (handle (Click (click 0)) eight_colours) 0) = true /\
  Internals.ariaActivedescendant (internals (handle (Click (click 0)) eight_colours)) = None /\
  Internals.ariaActivedescendant (internals (handle (Click (click 4)) eight_colours))
  = Some "option-Purple".
Proof.
  assert (Hactive : RovingTabindex.activeItem (tabindex eight_colours) = El 0)
    by (vm_compute; reflexivity).
  split; [exact Hactive|]. split; [vm_compute; reflexivity|]. split.
  - destruct (proj1 (@click_moves_the_focus eight_colours (click 0) 0 eq_refl) Hactive)
      as (Hint & _).
    rewrite Hint. vm_compute. reflexivity.
  - assert (Hother : RovingTabindex.activeItem (tabindex eight_colours) <> El 4)
      by (rewrite Hactive; intros Heq; discriminate Heq).
    assert (Hitems : RovingTabindex.items (tabindex eight_colours) <> [])
      by (vm_compute; intros Heq; discriminate Heq).
    assert (Hv : fst (visibleOptions eight_colours) = Returns (seq 0 8))
      by (vm_compute; reflexivity).
    assert (Hvis : In 4 (seq 0 8)) by (apply in_seq; lia).
    destruct (proj2 (@click_moves_the_focus eight_colours (click 4) 4 eq_refl) (seq 0 8)
                Hother eight_colours_ids Hitems Hv Hvis) as (_ & _ & _ & Haria & _).
    rewrite Haria. vm_compute. reflexivity.
Defined.

(** * The development server *)

(** X28 (the wait for the manifests never waits): [getManifests] reads the
    manifests once and returns that reading, whatever it is and also when
    it is empty: the loop that should pause and read again, up to a thousand
    times, runs no round, since it asks for a length below zero.  The
    answer needs no round of fuel. *)
Theorem getManifests_reads_once
        (Manifest : Type) (getAll : nat -> list Manifest) (fuel : nat) :
  DevServer.getManifests getAll fuel
  = Some {| DevServer.count := 0; DevServer.manifests := getAll 0%nat;
            DevServer.reads := 1; DevServer.pauses := 0 |}.
Proof.
  unfold DevServer.getManifests.
  assert (Hempty : forall l : list Manifest, (Z.of_nat (List.length l) <? 0)%Z = false)
    by (intros l; apply Z.ltb_ge; lia).
  destruct fuel; cbn [DevServer.poll DevServer.count DevServer.manifests];
    rewrite Hempty, andb_false_r; reflexivity.
Qed.

(** * The option element *)

Section DecimalForms.

Import SelectOption.
Local Open Scope Z_scope.

Ltac decimal_digit :=
  cbn [digits];
  match goal with
  | |- context [digit_value 10 ?c] =>
      let v := eval vm_compute in (digit_value 10 c) in
      change (digit_value 10 c) with v
  end;
  cbv iota beta.

Lemma digits_after (u : Decimal.uint) (acc : positive) :
  digits 10 (NilEmpty.string_of_uint u) (Z.pos acc) = Z.pos (Pos.of_uint_acc u acc).
Proof.
  revert acc. induction u; intros acc; cbn [NilEmpty.string_of_uint Pos.of_uint_acc];
    try reflexivity;
    decimal_digit;
    match goal with
    | |- digits 10 _ ?a = Z.pos (Pos.of_uint_acc _ ?b) =>
        replace a with (Z.pos b) by lia
    end; apply IHu.
Qed.

Lemma digits_of_decimal (u : Decimal.uint) :
  digits 10 (NilEmpty.string_of_uint u) 0 = Z.of_N (Pos.of_uint u).
Proof.
  induction u; cbn [NilEmpty.string_of_uint Pos.of_uint]; try reflexivity;
    decimal_digit;
    first [ exact IHu
          | match goal with
            | |- _ = Z.of_N (N.pos (Pos.of_uint_acc _ ?b)) => exact (digits_after u b)
            end ].
Qed.

(** A decimal numeral has no white space, sign or radix prefix for
    [parseInt] to strip, and starts with a digit. *)
Lemma decimal_is_plain (u : Decimal.uint) :
  u <> Decimal.Nil ->
  NilZero.string_of_uint u = NilEmpty.string_of_uint u /\
  skip_white_space (NilEmpty.string_of_uint u) = NilEmpty.string_of_uint u /\
  strip_sign (NilEmpty.string_of_uint u) = (1, NilEmpty.string_of_uint u) /\
  strip_prefix (NilEmpty.string_of_uint u) = (10, NilEmpty.string_of_uint u) /\
  leading_integer 10 (NilEmpty.string_of_uint u) = Some (Z.of_N (Pos.of_uint u)).
Proof.
  intros Hu. pose proof (digits_of_decimal u) as Hd.
  destruct u as [|u|u|u|u|u|u|u|u|u|u]; [congruence| | | | | | | | | |];
    (split; [reflexivity|]); (split; [reflexivity|]); (split; [reflexivity|]);
    (split; [try reflexivity|unfold leading_integer; cbn [NilEmpty.string_of_uint];
                             rewrite <- Hd; reflexivity]).
  destruct u; reflexivity.
Qed.

Lemma parseInt_of_number (n : Z) :
  exact n = true -> parseInt (JS.number_toString n) = Some (Int n).
Proof.
  intros Hn. destruct n as [|p|p].
  - reflexivity.
  - unfold JS.number_toString. cbn [Z.to_int NilZero.string_of_int].
    destruct (decimal_is_plain (DecimalPos.Unsigned.to_uint_nonnil p))
      as (Hz & Hw & Hs & Hp & Hl).
    rewrite Hz. unfold parseInt. rewrite Hw, Hs, Hp, Hl.
    rewrite DecimalPos.Unsigned.of_to.
    change (1 * Z.of_N (N.pos p)) with (Z.pos p). rewrite Hn. reflexivity.
  - unfold JS.number_toString. cbn [Z.to_int NilZero.string_of_int].
    destruct (decimal_is_plain (DecimalPos.Unsigned.to_uint_nonnil p))
      as (Hz & Hw & Hs & Hp & Hl).
    rewrite Hz. unfold parseInt.
    change (skip_white_space (String "-" (NilEmpty.string_of_uint (Pos.to_uint p))))
      with (String "-" (NilEmpty.string_of_uint (Pos.to_uint p))).
    cbn [strip_sign]. rewrite Hp, Hl.
    rewrite DecimalPos.Unsigned.of_to.
    change (-1 * Z.of_N (N.pos p)) with (Z.neg p). rewrite Hn. reflexivity.
Qed.

Lemma count_of_number (n : Z) :
  exact n = true ->
  count_of (Num n) = Some (JS.number_toString (Z.max 0 n)) /\
  count_of (Str (JS.number_toString n)) = Some (JS.number_toString (Z.max 0 n)).
Proof.
  intros Hn. pose proof (parseInt_of_number n Hn) as Hp.
  assert (Htext : count_of (Str (JS.number_toString n))
                  = Some (JS.number_toString (Z.max 0 n))).
  { unfold count_of.
    destruct (JS.number_toString n) as [|c rest] eqn:Hs; [discriminate Hp|].
    cbn [or_zero ToString]. rewrite Hp. reflexivity. }
  split; [|exact Htext].
  destruct n as [|p|p]; [reflexivity| |];
    unfold count_of; cbn [or_zero ToString]; rewrite Hn, Hp; reflexivity.
Qed.

End DecimalForms.

(** X29 (position and set size are kept as decimal strings): assigning an
    integer [n] of magnitude up to 2^53 to [posInSet] or [setSize] of an
    option stores the decimal form of [n], or of 0 when [n] is negative, and
    reading the property gives that string back; assigning the decimal form
    of [n] as a string stores the same.  So the index 0 that the listbox
    controller assigns to its first option is kept as "0".  [null] and the
    empty string store "0".  Assigning one property leaves the other as it
    was. *)
Theorem count_is_kept_in_decimal (n : Z) (o : SelectOption.Fields) :
  (Z.abs n <= 2 ^ 53)%Z ->
  (forall x, x = SelectOption.Num n \/ x = SelectOption.Str (JS.number_toString n) ->
     SelectOption.set_posInSet x o
     = Some {| SelectOption.ariaPosInSet := Some (JS.number_toString (Z.max 0 n));
               SelectOption.ariaSetSize := SelectOption.ariaSetSize o |} /\
     SelectOption.set_setSize x o
     = Some {| SelectOption.ariaPosInSet := SelectOption.ariaPosInSet o;
               SelectOption.ariaSetSize := Some (JS.number_toString (Z.max 0 n)) |}) /\
  (forall x, x = SelectOption.Null \/ x = SelectOption.Str EmptyString ->
     SelectOption.set_posInSet x o
     = Some {| SelectOption.ariaPosInSet := Some "0";
               SelectOption.ariaSetSize := SelectOption.ariaSetSize o |} /\
     SelectOption.set_setSize x o
     = Some {| SelectOption.ariaPosInSet := SelectOption.ariaPosInSet o;
               SelectOption.ariaSetSize := Some "0" |}).
Proof.
  intros Hn.
  assert (Hexact : SelectOption.exact n = true)
    by (unfold SelectOption.exact; apply Z.leb_le; exact Hn).
  destruct (count_of_number n Hexact) as [Hnum Htext].
  split.
  - intros x [->| ->]; unfold SelectOption.set_posInSet, SelectOption.set_setSize;
      rewrite ?Hnum, ?Htext; split; reflexivity.
  - intros x [->| ->]; split; reflexivity.
Qed.

(** The theorem at the index 3, on an option with neither
    property set. *)
Lemma count_is_kept_in_decimal_witness :
  SelectOption.posInSet
    (match SelectOption.set_posInSet (SelectOption.Num 3)
             {| SelectOption.ariaPosInSet := None; SelectOption.ariaSetSize := None |} with
     | Some o => o
     | None => {| SelectOption.ariaPosInSet := None; SelectOption.ariaSetSize := None |}
     end) = Some "3".
Proof.
  assert (Hn : (Z.abs 3 <= 2 ^ 53)%Z) by (vm_compute; intros H; discriminate H).
  rewrite (proj1 (proj1 (count_is_kept_in_decimal 3
                           {| SelectOption.ariaPosInSet := None;
                              SelectOption.ariaSetSize := None |} Hn)
                        (SelectOption.Num 3) (or_introl eq_refl))).
  reflexivity.
Defined.
